(** * Bravais lattice classification (ase/geometry/bravais.py)

    A shallow embedding of the lattice families, their constructors,
    canonical cells and special points, and of the classifier
    [get_bravais_lattice], followed by the properties proved of them.

    Numbers.  The source computes with IEEE doubles (Python [float],
    numpy [float64]).  They are modelled by the real numbers of the
    Standard Library: every comparison, every arithmetic operation and
    every elementary function is the exact one.  A division of two
    Python floats by zero raises [ZeroDivisionError], and so does
    [truediv] below.  Infinities and NaN have no counterpart: [np.sqrt]
    and [np.arccos] outside their domain and a division by zero in
    which a numpy number takes part (a warning, and an infinity or NaN
    as result) take the value the Standard Library gives them.

    Exceptions.  A Python call either returns a value or raises; this is
    the type [result].  An [assert] that fails raises [AssertionError].

    Absent modules.  [ase.geometry.cell] and [ase.dft.kpoints] are not
    among the sources.  What the code below needs from them is either
    modelled from the specification (cell parameters, tokenisation of a
    path string) or taken as a parameter (Niggli reduction, reciprocal
    cell, [Cell.new], the table [ibz_points]). *)

From Stdlib Require Import Reals Lra Lia ZArith List String Ascii Bool Epsilon.
Import ListNotations.

Local Open Scope string_scope.
Local Open Scope R_scope.

(** * Part I: the program *)

(** ** Exceptions and results *)

Inductive exn : Type :=
| ValueError
| UnconventionalLattice   (* class UnconventionalLattice(ValueError) *)
| AssertionError
| RuntimeError
| NameError
| KeyError
| TypeError
| AttributeError
| IndexError
| ZeroDivisionError
| RecursionError.

Definition exn_eqb (e1 e2 : exn) : bool :=
  match e1, e2 with
  | ValueError, ValueError
  | UnconventionalLattice, UnconventionalLattice
  | AssertionError, AssertionError
  | RuntimeError, RuntimeError
  | NameError, NameError
  | KeyError, KeyError
  | TypeError, TypeError
  | AttributeError, AttributeError
  | IndexError, IndexError
  | ZeroDivisionError, ZeroDivisionError
  | RecursionError, RecursionError => true
  | _, _ => false
  end.

(** [isinstance(e, cls)].  The only inheritance between the classes
    above is [UnconventionalLattice(ValueError)] (line 390). *)
Definition isinstance (e cls : exn) : bool :=
  exn_eqb e cls ||
  match e, cls with
  | UnconventionalLattice, ValueError => true
  | _, _ => false
  end.

Inductive result (A : Type) : Type :=
| Return (a : A)
| Raise (e : exn).
Arguments Return {A} a.
Arguments Raise {A} e.

Definition bind {A B : Type} (m : result A) (k : A -> result B) : result B :=
  match m with
  | Return a => k a
  | Raise e => Raise e
  end.

Notation "x <- m ;; k" := (bind m (fun x => k))
  (at level 61, m at next level, right associativity).
Notation "' pat <- m ;; k" := (bind m (fun x => match x with pat => k end))
  (at level 61, pat pattern, m at next level, right associativity).

(** [assert cond] *)
Definition assert (cond : bool) : result unit :=
  if cond then Return tt else Raise AssertionError.

(** ** Comparisons of numbers *)

Definition Rltb (x y : R) : bool := if Rlt_dec x y then true else false.
Definition Rleb (x y : R) : bool := if Rle_dec x y then true else false.
Definition Reqb (x y : R) : bool := if Req_dec_T x y then true else false.
Arguments Rltb : simpl never.
Arguments Rleb : simpl never.
Arguments Reqb : simpl never.

(** [x / y] on two Python floats (the parameters of a lattice are
    stored as [float(v)], and products and powers of floats are
    floats): a zero divisor raises [ZeroDivisionError]. *)
Definition truediv (x y : R) : result R :=
  if Reqb y 0 then Raise ZeroDivisionError else Return (x / y).

(** ** Sequences of three items and Python indexing *)

Definition vec : Type := (R * R * R)%type.
Definition matrix : Type := (vec * vec * vec)%type.

(** [t[i]] for a sequence of three items: Python accepts the indices
    [-3 .. 2], a negative index counting from the end.  Every index the
    code below forms lies in that range. *)
Definition item {A : Type} (t : A * A * A) (i : Z) : A :=
  let '(x0, x1, x2) := t in
  match (i mod 3)%Z with
  | 0%Z => x0
  | 1%Z => x1
  | _ => x2
  end.

(** [t[index]] for an index array of three items. *)
Definition take {A : Type} (t : A * A * A) (index : Z * Z * Z) : A * A * A :=
  let '(i0, i1, i2) := index in (item t i0, item t i1, item t i2).

Definition to_list {A : Type} (t : A * A * A) : list A :=
  let '(x0, x1, x2) := t in [x0; x1; x2].

Definition map3 {A B : Type} (f : A -> B) (t : A * A * A) : B * B * B :=
  let '(x0, x1, x2) := t in (f x0, f x1, f x2).

(** [sum(bools)]: the number of [True] items. *)
Definition count_true (l : list bool) : nat :=
  List.length (List.filter (fun b => b) l).

(** [np.argmax(bools)]: the index of the first maximal item. *)
Fixpoint argmax_from (i : Z) (l : list bool) : option Z :=
  match l with
  | [] => None
  | b :: l' => if b then Some i else argmax_from (i + 1) l'
  end.

Definition argmax (l : list bool) : Z :=
  match argmax_from 0 l with
  | Some i => i
  | None => 0%Z
  end.

(** [np.argsort] and [np.sort] on three numbers: numpy sorts so short
    an array by insertion, which is stable. *)
Fixpoint insert_key (x : R * Z) (l : list (R * Z)) : list (R * Z) :=
  match l with
  | [] => [x]
  | y :: l' => if Rltb (fst x) (fst y) then x :: l else y :: insert_key x l'
  end.

Definition sort_keys (l : list (R * Z)) : list (R * Z) :=
  List.fold_left (fun acc x => insert_key x acc) l [].

Definition argsort (t : vec) : Z * Z * Z :=
  let '(x0, x1, x2) := t in
  match sort_keys [(x0, 0%Z); (x1, 1%Z); (x2, 2%Z)] with
  | [(_, i); (_, j); (_, k)] => (i, j, k)
  | _ => (0%Z, 1%Z, 2%Z)
  end.

Definition sort (t : vec) : vec := take t (argsort t).

(** [np.allclose(a, b, rtol, atol)]: [|a - b| <= atol + rtol * |b|],
    item by item. *)
Definition isclose (rtol atol a b : R) : bool :=
  Rleb (Rabs (a - b)) (atol + rtol * Rabs b).

Definition np_allclose (rtol atol : R) (a b : list R) : bool :=
  List.forallb (fun ab => isclose rtol atol (fst ab) (snd ab)) (List.combine a b).

Definition default_rtol : R := 1e-5.
Definition default_atol : R := 1e-8.

(** The default tolerance of the classifier and of the lattices. *)
Definition default_eps : R := 2e-4.

(** [_degrees = np.pi / 180] (line 10) *)
Definition _degrees : R := PI / 180.

(** ** Cells *)

Definition vdot (u v : vec) : R :=
  let '(u0, u1, u2) := u in
  let '(v0, v1, v2) := v in
  u0 * v0 + u1 * v1 + u2 * v2.

Definition norm (u : vec) : R := sqrt (vdot u u).

Definition scale (k : R) (m : matrix) : matrix :=
  map3 (map3 (Rmult k)) m.

Definition eye : matrix := ((1, 0, 0), (0, 1, 0), (0, 0, 1)).

Definition diag (d : vec) : matrix :=
  let '(a, b, c) := d in ((a, 0, 0), (0, b, 0), (0, 0, c)).

Definition flatten (m : matrix) : list R :=
  List.concat (List.map to_list (to_list m)).

(** Modelled from the spec: [Cell.cellpar] of ase/geometry/cell.py, which
    is not among the sources.  "a,b,c are row-vector norms and alpha,
    beta, gamma are angles between vector pairs (angle(b,c)=alpha,
    angle(a,c)=beta, angle(a,b)=gamma), angles in degrees." *)
Definition angle (u v : vec) : R :=
  acos (vdot u v / (norm u * norm v)) * 180 / PI.

Definition cellpar_t : Type := (vec * vec)%type.   (* lengths, angles *)

Definition Cell_cellpar (cell : matrix) : cellpar_t :=
  let '(va, vb, vc) := cell in
  ((norm va, norm vb, norm vc), (angle vb vc, angle va vc, angle va vb)).

Definition cellpar_list (cp : cellpar_t) : list R :=
  (to_list (fst cp) ++ to_list (snd cp))%list.

(** The argument of [Cell.new]: the six cell parameters, or a basis. *)
Inductive cell_spec : Type :=
| FromCellpar (lengths angles : vec)
| FromArray (m : matrix).

(** The primitives of ase/geometry/cell.py the code calls and the
    specification leaves external. *)
Class CellOps : Type := {
  (* [uc.niggli_reduce()]: the reduced cell and the transform applied *)
  niggli_reduce : matrix -> matrix * matrix;
  (* [cell.reciprocal()] *)
  reciprocal : matrix -> matrix;
  (* [Cell.new(...)] *)
  Cell_new : cell_spec -> matrix
}.

(** ** Keyword arguments and parameter dictionaries *)

Definition dict (V : Type) : Type := list (string * V).

Fixpoint get {V : Type} (d : dict V) (k : string) : option V :=
  match d with
  | [] => None
  | (k', v) :: d' => if String.eqb k k' then Some v else get d' k
  end.

Definition keys {V : Type} (d : dict V) : list string := List.map fst d.

Definition values {V : Type} (d : dict V) : list V := List.map snd d.

(** [d[k] = v]: an existing key keeps its place. *)
Fixpoint set_item {V : Type} (d : dict V) (k : string) (v : V) : dict V :=
  match d with
  | [] => [(k, v)]
  | (k', v') :: d' =>
      if String.eqb k k' then (k, v) :: d' else (k', v') :: set_item d' k v
  end.

(** [dict(pairs)] *)
Definition dict_of {V : Type} (pairs : list (string * V)) : dict V :=
  List.fold_left (fun d kv => set_item d (fst kv) (snd kv)) pairs [].

(** [kwargs.pop(k, default)] *)
Fixpoint remove {V : Type} (d : dict V) (k : string) : dict V :=
  match d with
  | [] => []
  | (k', v) :: d' => if String.eqb k k' then remove d' k else (k', v) :: remove d' k
  end.

Definition mem (k : string) (l : list string) : bool :=
  List.existsb (String.eqb k) l.

(** [set(l1) == set(l2)] *)
Definition set_eqb (l1 l2 : list string) : bool :=
  List.forallb (fun k => mem k l2) l1 && List.forallb (fun k => mem k l1) l2.

(** Binding one keyword argument of a call that unpacks the dictionary [d]. *)
Definition kw (d : dict R) (k : string) : result R :=
  match get d k with
  | Some v => Return v
  | None => Raise TypeError
  end.

(** [d[k]] *)
Definition lookup {V : Type} (d : dict V) (k : string) : result V :=
  match get d k with
  | Some v => Return v
  | None => Raise KeyError
  end.

(** ** Families, variants and the registry built by [@bravais] *)

Inductive Family : Type :=
| CUB | FCC | BCC | TET | BCT | ORC | ORCF | ORCI | ORCC | HEX
| RHL | MCL | MCLC | TRI.

Definition Family_eqb (f g : Family) : bool :=
  match f, g with
  | CUB, CUB | FCC, FCC | BCC, BCC | TET, TET | BCT, BCT | ORC, ORC
  | ORCF, ORCF | ORCI, ORCI | ORCC, ORCC | HEX, HEX | RHL, RHL
  | MCL, MCL | MCLC, MCLC | TRI, TRI => true
  | _, _ => false
  end.

(** The classes that inherit [SimpleBravaisLattice]. *)
Definition is_simple (f : Family) : bool :=
  match f with
  | CUB | FCC | BCC | TET | ORC | ORCC | HEX => true
  | _ => false
  end.

Record Variant : Type := mkVariant {
  name : string;
  special_point_names : string;
  special_path : string
}.

(** [cls.name], the first argument of the decorator. *)
Definition longname (f : Family) : string :=
  match f with
  | CUB => "cubic"
  | FCC => "face-centered cubic"
  | BCC => "body-centered cubic"
  | TET => "tetragonal"
  | BCT => "body-centered tetragonal"
  | ORC => "orthorhombic"
  | ORCF => "face-centered orthorhombic"
  | ORCI => "body-centered orthorhombic"
  | ORCC => "c-centered orthorhombic"
  | HEX => "hexagonal"
  | RHL => "rhombohedral"
  | MCL => "monoclinic"
  | MCLC => "c-centered monoclinic"
  | TRI => "trigonal"
  end.

(** [cls.type], the name of the class. *)
Definition type (f : Family) : string :=
  match f with
  | CUB => "CUB" | FCC => "FCC" | BCC => "BCC" | TET => "TET"
  | BCT => "BCT" | ORC => "ORC" | ORCF => "ORCF" | ORCI => "ORCI"
  | ORCC => "ORCC" | HEX => "HEX" | RHL => "RHL" | MCL => "MCL"
  | MCLC => "MCLC" | TRI => "TRI"
  end.

(** [cls.parameters = tuple(parameters)] *)
Definition parameters (f : Family) : list string :=
  match f with
  | CUB | FCC | BCC => ["a"]
  | TET | BCT | HEX => ["a"; "c"]
  | ORC | ORCF | ORCI | ORCC => ["a"; "b"; "c"]
  | RHL => ["a"; "alpha"]
  | MCL | MCLC => ["a"; "b"; "c"; "alpha"]
  | TRI => ["a"; "b"; "c"; "alpha"; "beta"; "gamma"]
  end.

(** The third argument of the decorator, in the order given:
    [cls.variant_names] are the names, [cls.variants] maps each name to
    its [Variant]. *)
Definition variant_list (f : Family) : list Variant :=
  match f with
  | CUB => [mkVariant "CUB" "GXRM" "GXMGRX,MR"]
  | FCC => [mkVariant "FCC" "GKLUWX" "GXWKGLUWLK,UX"]
  | BCC => [mkVariant "BCC" "GHPN" "GHNGPH,PN"]
  | TET => [mkVariant "TET" "GAMRXZ" "GXMGZRAZ,XR,MA"]
  | BCT => [mkVariant "BCT1" "GMNPXZZ1" "GXMGZPNZ1M,XP";
            mkVariant "BCT2" "GNPSS1XYY1Z" "GXYSGZS1NPY1Z,XP"]
  | ORC => [mkVariant "ORC" "GRSTUXYZ" "GXSYGZURTZ,YT,UX,SR"]
  | ORCF => [mkVariant "ORCF1" "GAA1LTXX1YZ" "GYTZGXA1Y,TX1,XAZ,LG";
             mkVariant "ORCF2" "GCC1DD1LHH1XYZ" "GYCDXGZD1HC,C1Z,XH1,HY,LG";
             mkVariant "ORCF3" "GAA1LTXX1YZ" "GYTZGXA1Y,XAZ,LG"]
  | ORCI => [mkVariant "ORCI" "GLL1L2RSTWXX1YY1Z" "GXLTWRX1ZGYSW,L1Y,Y1Z"]
  | ORCC => [mkVariant "ORCC" "GAA1RSTXX1YZ" "GXSRAZGYX1A1TY,ZT"]
  | HEX => [mkVariant "HEX" "GMKALH" "GMKGALHA,LM,KH"]
  | RHL => [mkVariant "RHL1" "GBB1FLL1PP1P2QXZ" "GLB1,BZGX,QFP1Z,LP";
            mkVariant "RHL2" "GFLPP1QQ1Z" "GPZQGFP1Q1LZ"]
  | MCL => [mkVariant "MCL" "GACDD1EHH1H2MM1M2XYY1Z" "GYHCEM1AXH1,MDZ,YD"]
  | MCLC => [mkVariant "MCLC1" "GNN1FF1F2F3II1LMXX1X2YY1Z" "GYFLI,I1ZF1,YX1,XGN,MG";
             mkVariant "MCLC2" "GNN1FF1F2F3II1LMXX1X2YY1Z" "GYFLI,I1ZF1,NGM";
             mkVariant "MCLC3" "GFF1F2HH1H2IMNN1XYY1Y2Y3Z" "GYFHZIF1,H1Y1XGN,MG";
             mkVariant "MCLC4" "GFF1F2HH1H2IMNN1XYY1Y2Y3Z" "GYFHZI,H1Y1XGN,MG";
             mkVariant "MCLC5" "GFF1F2HH1H2II1LMNN1XYY1Y2Y3Z"
                       "GYFLI,I1ZHF1,H1Y1XGN,MG"]
  | TRI => [mkVariant "TRI1a" "GLMNRXYZ" "XGY,LGZ,NGM,RG";
            mkVariant "TRI2a" "GLMNRXYZ" "XGY,LGZ,NGM,RG";
            mkVariant "TRI1b" "GLMNRXYZ" "XGY,LGZ,NGM,RG";
            mkVariant "TRI2b" "GLMNRXYZ" "XGY,LGZ,NGM,RG"]
  end.

Definition variant_names (f : Family) : list string :=
  List.map name (variant_list f).

Definition variants (f : Family) : dict Variant :=
  dict_of (List.map (fun v => (name v, v)) (variant_list f)).

(** ** Lattice objects *)

(** An instance of a lattice class.  The three attributes are unset
    until [BravaisLattice.__init__] stores them. *)
Record BravaisLattice : Type := mkLattice {
  cls : Family;
  _parameters : option (dict R);
  _eps : option R;
  _variant : option Variant
}.

(** The instance [__init__] receives. *)
Definition blank (f : Family) : BravaisLattice :=
  mkLattice f None None None.

(** Reading an attribute of an instance. *)
Definition attr {A : Type} (a : option A) : result A :=
  match a with
  | Some x => Return x
  | None => Raise AttributeError
  end.

(** A method that updates its instance: the outcome of the call and the
    instance as the call leaves it. *)
Definition method (A : Type) : Type := BravaisLattice -> result A * BravaisLattice.

(** [cls(...)]: a fresh instance initialised by [init]. *)
Definition new (f : Family) (init : method unit) : result BravaisLattice :=
  match init (blank f) with
  | (Return _, self) => Return self
  | (Raise e, _) => Raise e
  end.

(** ** Canonical cells: the [_cell] methods *)

(** [check_orc] (lines 471-474) *)
Definition check_orc (a b c : R) : result unit :=
  if negb (Rltb a b && Rltb b c) then Raise UnconventionalLattice else Return tt.

(** [check_mcl] (lines 678-682) *)
Definition check_mcl (a b c alpha : R) : result unit :=
  if negb (Rleb a c && Rleb b c && Rltb alpha 90)
  then Raise UnconventionalLattice else Return tt.

Definition CUB_cell (a : R) : result matrix :=
  Return (scale a eye).

Definition FCC_cell (a : R) : result matrix :=
  Return (scale 0.5 ((0, a, a), (a, 0, a), (a, a, 0))).

Definition BCC_cell (a : R) : result matrix :=
  Return (scale 0.5 ((- a, a, a), (a, - a, a), (a, a, - a))).

Definition TET_cell (a c : R) : result matrix :=
  Return (diag (a, a, c)).

Definition BCT_cell (a c : R) : result matrix :=
  Return (scale 0.5 ((- a, a, c), (a, - a, c), (a, a, - c))).

Definition ORC_cell (a b c : R) : result matrix :=
  _ <- check_orc a b c ;;
  Return (diag (a, b, c)).

Definition ORCF_cell (a b c : R) : result matrix :=
  Return (scale 0.5 ((0, b, c), (a, 0, c), (a, b, 0))).

Definition ORCI_cell (a b c : R) : result matrix :=
  Return (scale 0.5 ((- a, b, c), (a, - b, c), (a, b, - c))).

Definition ORCC_cell (a b c : R) : result matrix :=
  Return ((0.5 * a, - 0.5 * b, 0), (0.5 * a, 0.5 * b, 0), (0, 0, c)).

Definition HEX_cell (a c : R) : result matrix :=
  let x := 0.5 * sqrt 3 in
  Return ((0.5 * a, - x * a, 0), (0.5 * a, x * a, 0), (0, 0, c)).

Definition RHL_cell (a alpha : R) : result matrix :=
  let alpha := alpha * (PI / 180) in
  let acosa := a * cos alpha in
  let acosa2 := a * cos (0.5 * alpha) in
  let asina2 := a * sin (0.5 * alpha) in
  let acosfrac := acosa / acosa2 in
  let xx := 1 - acosfrac ^ 2 in
  _ <- assert (Rltb 0 xx) ;;
  Return ((acosa2, - asina2, 0), (acosa2, asina2, 0),
          (a * acosfrac, 0, a * sqrt xx)).

Definition MCL_cell (a b c alpha : R) : result matrix :=
  let alpha := alpha * (PI / 180) in
  Return ((a, 0, 0), (0, b, 0), (0, c * cos alpha, c * sin alpha)).

Definition MCLC_cell (a b c alpha : R) : result matrix :=
  let alpha := alpha * (PI / 180) in
  Return ((0.5 * a, 0.5 * b, 0), (- 0.5 * a, 0.5 * b, 0),
          (0, c * cos alpha, c * sin alpha)).

(** Lines 877-888.  The angles are converted to radians on entry and
    multiplied by [_degrees] once more inside the sines and cosines. *)
Definition TRI_cell (a b c alpha beta gamma : R) : result matrix :=
  let alpha := alpha * (PI / 180) in
  let beta := beta * (PI / 180) in
  let gamma := gamma * (PI / 180) in
  let singamma := sin (gamma * _degrees) in
  let cosgamma := cos (gamma * _degrees) in
  let cosbeta := cos (beta * _degrees) in
  let cosalpha := cos (alpha * _degrees) in
  let a3x := c * cosbeta in
  let a3y := c / singamma * (cosalpha - cosbeta * cosgamma) in
  let a3z := c / singamma * sqrt (singamma ^ 2 - cosalpha ^ 2 - cosbeta ^ 2
                                  + 2 * cosalpha * cosbeta * cosgamma) in
  Return ((a, 0, 0), (b * cosgamma, b * singamma, 0), (a3x, a3y, a3z)).

(** [self._cell( **p )]: the method of the class of [self], its arguments
    bound by name from the dictionary [p]. *)
Definition _cell (f : Family) (p : dict R) : result matrix :=
  match f with
  | CUB => a <- kw p "a" ;; CUB_cell a
  | FCC => a <- kw p "a" ;; FCC_cell a
  | BCC => a <- kw p "a" ;; BCC_cell a
  | TET => a <- kw p "a" ;; c <- kw p "c" ;; TET_cell a c
  | BCT => a <- kw p "a" ;; c <- kw p "c" ;; BCT_cell a c
  | ORC => a <- kw p "a" ;; b <- kw p "b" ;; c <- kw p "c" ;; ORC_cell a b c
  | ORCF => a <- kw p "a" ;; b <- kw p "b" ;; c <- kw p "c" ;; ORCF_cell a b c
  | ORCI => a <- kw p "a" ;; b <- kw p "b" ;; c <- kw p "c" ;; ORCI_cell a b c
  | ORCC => a <- kw p "a" ;; b <- kw p "b" ;; c <- kw p "c" ;; ORCC_cell a b c
  | HEX => a <- kw p "a" ;; c <- kw p "c" ;; HEX_cell a c
  | RHL => a <- kw p "a" ;; alpha <- kw p "alpha" ;; RHL_cell a alpha
  | MCL => a <- kw p "a" ;; b <- kw p "b" ;; c <- kw p "c" ;;
           alpha <- kw p "alpha" ;; MCL_cell a b c alpha
  | MCLC => a <- kw p "a" ;; b <- kw p "b" ;; c <- kw p "c" ;;
            alpha <- kw p "alpha" ;; MCLC_cell a b c alpha
  | TRI => a <- kw p "a" ;; b <- kw p "b" ;; c <- kw p "c" ;;
           alpha <- kw p "alpha" ;; beta <- kw p "beta" ;;
           gamma <- kw p "gamma" ;; TRI_cell a b c alpha beta gamma
  end.

(** [BravaisLattice.tocell] (lines 124-129) *)
Definition tocell (self : BravaisLattice) (cycle : Z) : result matrix :=
  p <- attr (_parameters self) ;;
  cell <- _cell (cls self) p ;;
  if (cycle =? 0)%Z then Return cell
  else
    let index := ((0 + cycle) mod 3, (1 + cycle) mod 3, (2 + cycle) mod 3)%Z in
    Return (take cell index).

(** [BravaisLattice.cellpar] (lines 131-134) *)
Definition cellpar (self : BravaisLattice) (cycle : Z) : result cellpar_t :=
  cell <- tocell self cycle ;;
  Return (Cell_cellpar cell).

(** ** Variant selection and construction *)

Section Lattices.

Context {ops : CellOps}.

(** [SimpleBravaisLattice._variant_name] (lines 303-305) *)
Definition SimpleBravaisLattice_variant_name (f : Family) : result string :=
  _ <- assert (Nat.eqb (List.length (variants f)) 1) ;;
  match variant_names f with
  | n :: _ => Return n
  | [] => Raise IndexError
  end.

(** [BCT._variant_name] (lines 438-439) *)
Definition BCT_variant_name (a c : R) : result string :=
  Return (if Rltb c a then "BCT1" else "BCT2").

(** [ORCF._variant_name] (lines 539-545) *)
Definition ORCF_variant_name (eps a b c : R) : result string :=
  _ <- check_orc a b c ;;
  ia <- truediv 1 (a * a) ;;
  ib <- truediv 1 (b * b) ;;
  ic <- truediv 1 (c * c) ;;
  let diff := ia - ib - ic in
  if Rltb (Rabs diff) eps then Return "ORCF3"
  else Return (if Rltb 0 diff then "ORCF1" else "ORCF2").

(** [ORCI._variant_name] (lines 553-555) *)
Definition ORCI_variant_name (a b c : R) : result string :=
  _ <- check_orc a b c ;;
  Return "ORCI".

(** [ORCC._variant_name] (lines 605-609) *)
Definition ORCC_variant_name (a b c : R) : result string :=
  if negb (Rltb a b) then Raise UnconventionalLattice
  else SimpleBravaisLattice_variant_name ORCC.

(** [RHL._variant_name] (lines 644-645) *)
Definition RHL_variant_name (a alpha : R) : result string :=
  Return (if Rltb alpha 90 then "RHL1" else "RHL2").

(** [MCL._variant_name] (lines 719-721) *)
Definition MCL_variant_name (a b c alpha : R) : result string :=
  _ <- check_mcl a b c alpha ;;
  Return "MCL".

(** [MCLC._variant_name] (lines 740-775).  When none of the three tests
    on [kgamma] holds the local [variant] is unbound. *)
Definition MCLC_variant_name (self : BravaisLattice) (a b c alpha : R)
  : result string :=
  _ <- check_mcl a b c alpha ;;
  let a2 := a * a in
  let b2 := b * b in
  let cosa := cos (alpha * _degrees) in
  let sina := sin (alpha * _degrees) in
  let sina2 := sina ^ 2 in
  cell <- tocell self 0 ;;
  let lengths_angles := Cell_cellpar (reciprocal cell) in
  let kgamma := item (snd lengths_angles) (-1) in
  eps <- attr (_eps self) ;;
  if Rltb (Rabs (kgamma - 90)) eps then Return "MCLC2"
  else if Rltb 90 kgamma then Return "MCLC1"
  else if Rltb kgamma 90 then
    let num := b * cosa / c + b2 * sina2 / a2 in
    if Rltb (Rabs (num - 1)) eps then Return "MCLC4"
    else if Rltb num 1 then Return "MCLC3"
    else Return "MCLC5"
  else Raise NameError.

(** [TRI._variant_name] (lines 890-912) *)
Definition TRI_variant_name (self : BravaisLattice)
  (a b c alpha beta gamma : R) : result string :=
  let c := Cell_new (FromCellpar (a, b, c) (alpha, beta, gamma)) in
  let icellpar := Cell_cellpar (reciprocal c) in
  let '(kalpha, kbeta, kgamma) := snd icellpar in
  eps <- attr (_eps self) ;;
  if Rltb (Rabs (kgamma - 90)) eps then
    if Rltb 90 kalpha && Rltb 90 kbeta then Return "TRI2a"
    else if Rltb kalpha 90 && Rltb kbeta 90 then Return "TRI2b"
    else Raise AssertionError
  else if Rltb 90 kalpha && Rltb 90 kbeta && Rltb 90 kgamma then Return "TRI1a"
  else if Rltb kalpha 90 && Rltb kbeta 90 && Rltb kgamma 90 then Return "TRI1b"
  else Raise UnconventionalLattice.

(** [self._variant_name( **self._parameters )]: the method the class of
    [self] resolves to.  [ORC] defines none of its own, and neither does
    [Orthorhombic]: it inherits the one of [SimpleBravaisLattice]. *)
Definition _variant_name (self : BravaisLattice) : result string :=
  p <- attr (_parameters self) ;;
  match cls self with
  | CUB | FCC | BCC | TET | ORC | HEX =>
      SimpleBravaisLattice_variant_name (cls self)
  | BCT => a <- kw p "a" ;; c <- kw p "c" ;; BCT_variant_name a c
  | ORCF => a <- kw p "a" ;; b <- kw p "b" ;; c <- kw p "c" ;;
            eps <- attr (_eps self) ;; ORCF_variant_name eps a b c
  | ORCI => a <- kw p "a" ;; b <- kw p "b" ;; c <- kw p "c" ;;
            ORCI_variant_name a b c
  | ORCC => a <- kw p "a" ;; b <- kw p "b" ;; c <- kw p "c" ;;
            ORCC_variant_name a b c
  | RHL => a <- kw p "a" ;; alpha <- kw p "alpha" ;; RHL_variant_name a alpha
  | MCL => a <- kw p "a" ;; b <- kw p "b" ;; c <- kw p "c" ;;
           alpha <- kw p "alpha" ;; MCL_variant_name a b c alpha
  | MCLC => a <- kw p "a" ;; b <- kw p "b" ;; c <- kw p "c" ;;
            alpha <- kw p "alpha" ;; MCLC_variant_name self a b c alpha
  | TRI => a <- kw p "a" ;; b <- kw p "b" ;; c <- kw p "c" ;;
           alpha <- kw p "alpha" ;; beta <- kw p "beta" ;;
           gamma <- kw p "gamma" ;; TRI_variant_name self a b c alpha beta gamma
  end.

(** [BravaisLattice.get_variant] (lines 156-158) *)
Definition get_variant (self : BravaisLattice) : result Variant :=
  name <- _variant_name self ;;
  lookup (variants (cls self)) name.

(** [BravaisLattice.__init__] (lines 105-113).  [float(v)] is the
    identity on the numbers of the model. *)
Definition BravaisLattice__init__ (kwargs : dict R) : method unit :=
  fun self =>
    let eps := match get kwargs "eps" with Some e => e | None => default_eps end in
    let kwargs := remove kwargs "eps" in
    let p := dict_of kwargs in
    if negb (set_eqb (keys p) (parameters (cls self)))
    then (Raise AssertionError, self)
    else
      let self := mkLattice (cls self) (Some p) (_eps self) (_variant self) in
      let self := mkLattice (cls self) (_parameters self) (Some eps) (_variant self) in
      match get_variant self with
      | Return v =>
          (Return tt, mkLattice (cls self) (_parameters self) (_eps self) (Some v))
      | Raise e => (Raise e, self)
      end.

(** [Cubic.__init__] (lines 396-397) *)
Definition Cubic__init__ (a : R) : method unit :=
  BravaisLattice__init__ [("a", a)].

(** [TET.__init__], [BCT.__init__], [HEX.__init__] (lines 420, 432, 614) *)
Definition TET__init__ (a c : R) : method unit :=
  BravaisLattice__init__ [("a", a); ("c", c)].

Definition BCT__init__ (a c : R) : method unit :=
  BravaisLattice__init__ [("a", a); ("c", c)].

Definition HEX__init__ (a c : R) : method unit :=
  BravaisLattice__init__ [("a", a); ("c", c)].

(** [Orthorhombic.__init__] (lines 479-480) *)
Definition Orthorhombic__init__ (a b c : R) : method unit :=
  BravaisLattice__init__ [("a", a); ("b", b); ("c", c)].

(** [RHL.__init__] (lines 627-631) *)
Definition RHL__init__ (a alpha : R) : method unit :=
  fun self =>
    if Rleb 120 alpha then (Raise ValueError, self)
    else BravaisLattice__init__ [("a", a); ("alpha", alpha)] self.

(** [MCL.__init__], [MCLC.__init__] (lines 688, 732) *)
Definition MCL__init__ (a b c alpha : R) : method unit :=
  BravaisLattice__init__ [("a", a); ("b", b); ("c", c); ("alpha", alpha)].

Definition MCLC__init__ (a b c alpha : R) : method unit :=
  BravaisLattice__init__ [("a", a); ("b", b); ("c", c); ("alpha", alpha)].

(** [TRI.__init__] (lines 873-875) *)
Definition TRI__init__ (a b c alpha beta gamma : R) : method unit :=
  BravaisLattice__init__ [("a", a); ("b", b); ("c", c); ("alpha", alpha);
                          ("beta", beta); ("gamma", gamma)].

(** [f( *args )]: the class [f] called with positional arguments. *)
Definition call (f : Family) (args : list R) : result BravaisLattice :=
  match f, args with
  | (CUB | FCC | BCC), [a] => new f (Cubic__init__ a)
  | TET, [a; c] => new f (TET__init__ a c)
  | BCT, [a; c] => new f (BCT__init__ a c)
  | HEX, [a; c] => new f (HEX__init__ a c)
  | (ORC | ORCF | ORCI | ORCC), [a; b; c] => new f (Orthorhombic__init__ a b c)
  | RHL, [a; alpha] => new f (RHL__init__ a alpha)
  | MCL, [a; b; c; alpha] => new f (MCL__init__ a b c alpha)
  | MCLC, [a; b; c; alpha] => new f (MCLC__init__ a b c alpha)
  | TRI, [a; b; c; alpha; beta; gamma] =>
      new f (TRI__init__ a b c alpha beta gamma)
  | _, _ => Raise TypeError
  end.

End Lattices.

(** ** Path strings *)

Definition is_upper (ch : ascii) : bool :=
  (65 <=? nat_of_ascii ch)%nat && (nat_of_ascii ch <=? 90)%nat.

Definition is_digit (ch : ascii) : bool :=
  (48 <=? nat_of_ascii ch)%nat && (nat_of_ascii ch <=? 57)%nat.

(** Modelled from the spec: the tokenisation of [parse_path_string]
    (ase/dft/kpoints.py, not among the sources).  "Each label is one
    uppercase letter optionally followed by a single digit"; a segment
    that does not follow this grammar is an invalid path string. *)
Fixpoint labels_of (s : string) : result (list string) :=
  match s with
  | EmptyString => Return []
  | String ch s' =>
      if is_upper ch then
        match s' with
        | String d s'' =>
            if is_digit d
            then rest <- labels_of s'' ;; Return (String ch (String d EmptyString) :: rest)
            else rest <- labels_of s' ;; Return (String ch EmptyString :: rest)
        | EmptyString => Return [String ch EmptyString]
        end
      else Raise ValueError
  end.

(** [s.split(',')] *)
Fixpoint split_commas (s : string) : list string :=
  match s with
  | EmptyString => [EmptyString]
  | String ch s' =>
      if Ascii.eqb ch ","%char then EmptyString :: split_commas s'
      else
        match split_commas s' with
        | seg :: segs => String ch seg :: segs
        | [] => [String ch EmptyString]
        end
  end.

Fixpoint sequence {A : Type} (l : list (result A)) : result (list A) :=
  match l with
  | [] => Return []
  | r :: l' => x <- r ;; xs <- sequence l' ;; Return (x :: xs)
  end.

(** Modelled from the spec: [parse_path_string]: "split on commas into
    segments; split each segment into individual labels". *)
Definition parse_path_string (s : string) : result (list (list string)) :=
  sequence (List.map labels_of (split_commas s)).

(** [BravaisLattice.kpoint_labels] (lines 160-164) *)
Definition kpoint_labels (self : BravaisLattice) : result (list string) :=
  variant <- attr (_variant self) ;;
  labels <- parse_path_string (special_point_names variant) ;;
  _ <- assert (Nat.eqb (List.length labels) 1) ;;
  match labels with
  | l :: _ => Return l
  | [] => Raise IndexError
  end.

(** ** Special points *)

(** What [_special_points] returns: a nested list, or, for the classes
    whose points the decorator fixed, the dictionary [cls.special_points]. *)
Inductive points_t : Type :=
| PointList (l : list vec)
| PointDict (d : dict vec).

(** [len(points)] *)
Definition len (pts : points_t) : nat :=
  match pts with
  | PointList l => List.length l
  | PointDict d => List.length d
  end.

(** The coordinates, in the order of the list or of the dictionary. *)
Definition coordinates (pts : points_t) : list vec :=
  match pts with
  | PointList l => l
  | PointDict d => values d
  end.

(** The items of a string, one character each. *)
Fixpoint chars (s : string) : list string :=
  match s with
  | EmptyString => []
  | String ch s' => String ch EmptyString :: chars s'
  end.

(** [BCT._special_points] (lines 441-468) *)
Definition BCT_special_points (a c : R) (variant : Variant) : result points_t :=
  let a2 := a * a in
  let c2 := c * c in
  _ <- assert (mem (name variant) (keys (variants BCT))) ;;
  if String.eqb (name variant) "BCT1" then
    q <- truediv c2 a2 ;;
    let eta := 0.25 * (1 + q) in
    Return (PointList
      [(0, 0, 0);
       (- 0.5, 0.5, 0.5);
       (0, 0.5, 0);
       (0.25, 0.25, 0.25);
       (0, 0, 0.5);
       (eta, eta, - eta);
       (- eta, 1 - eta, eta)])
  else
    q <- truediv a2 c2 ;;
    let eta := 0.25 * (1 + q) in
    zeta <- truediv (0.5 * a2) c2 ;;
    Return (PointList
      [(0, 0, 0);
       (0, 0.5, 0);
       (0.25, 0.25, 0.25);
       (- eta, eta, eta);
       (eta, 1 - eta, - eta);
       (0, 0, 0.5);
       (- zeta, zeta, 0.5);
       (0.5, 0.5, - zeta);
       (0.5, 0.5, - 0.5)]).

(** [ORCF._special_points] (lines 499-537) *)
Definition ORCF_special_points (a b c : R) (variant : Variant) : result points_t :=
  let a2 := a * a in
  let b2 := b * b in
  let c2 := c * c in
  qb <- truediv a2 b2 ;;
  qc <- truediv a2 c2 ;;
  let xminus := 0.25 * (1 + qb - qc) in
  qb' <- truediv a2 b2 ;;
  qc' <- truediv a2 c2 ;;
  let xplus := 0.25 * (1 + qb' + qc') in
  if String.eqb (name variant) "ORCF1" || String.eqb (name variant) "ORCF3" then
    let zeta := xminus in
    let eta := xplus in
    Return (PointList
      [(0, 0, 0);
       (0.5, 0.5 + zeta, zeta);
       (0.5, 0.5 - zeta, 1 - zeta);
       (0.5, 0.5, 0.5);
       (1, 0.5, 0.5);
       (0, eta, eta);
       (1, 1 - eta, 1 - eta);
       (0.5, 0, 0.5);
       (0.5, 0.5, 0)])
  else
    _ <- assert (String.eqb (name variant) "ORCF2") ;;
    pb <- truediv c2 b2 ;;
    pa <- truediv c2 a2 ;;
    let phi := 0.25 * (1 + pb - pa) in
    da <- truediv b2 a2 ;;
    dc <- truediv b2 c2 ;;
    let delta := 0.25 * (1 + da - dc) in
    let eta := xminus in
    Return (PointList
      [(0, 0, 0);
       (0.5, 0.5 - eta, 1 - eta);
       (0.5, 0.5 + eta, eta);
       (0.5 - delta, 0.5, 1 - delta);
       (0.5 + delta, 0.5, delta);
       (0.5, 0.5, 0.5);
       (1 - phi, 0.5 - phi, 0.5);
       (phi, 0.5 + phi, 0.5);
       (0, 0.5, 0.5);
       (0.5, 0, 0.5);
       (0.5, 0.5, 0)]).

(** [ORCI._special_points] (lines 557-580) *)
Definition ORCI_special_points (a b c : R) (variant : Variant) : result points_t :=
  let a2 := a ^ 2 in
  let b2 := b ^ 2 in
  let c2 := c ^ 2 in
  qa <- truediv a2 c2 ;;
  let zeta := 0.25 * (1 + qa) in
  qb <- truediv b2 c2 ;;
  let eta := 0.25 * (1 + qb) in
  delta <- truediv (0.25 * (b2 - a2)) c2 ;;
  mu <- truediv (0.25 * (a2 + b2)) c2 ;;
  Return (PointList
    [(0, 0, 0);
     (- mu, mu, 0.5 - delta);
     (mu, - mu, 0.5 + delta);
     (0.5 - delta, 0.5 + delta, - mu);
     (0, 0.5, 0);
     (0.5, 0, 0);
     (0, 0, 0.5);
     (0.25, 0.25, 0.25);
     (- zeta, zeta, zeta);
     (zeta, 1 - zeta, - zeta);
     (eta, - eta, eta);
     (1 - eta, eta, - eta);
     (0.5, 0.5, - 0.5)]).

(** [ORCC._special_points] (lines 590-602) *)
Definition ORCC_special_points (a b c : R) (variant : Variant) : result points_t :=
  q <- truediv (a * a) (b * b) ;;
  let zeta := 0.25 * (1 + q) in
  Return (PointList
    [(0, 0, 0);
     (zeta, zeta, 0.5);
     (- zeta, 1 - zeta, 0.5);
     (0, 0.5, 0.5);
     (0, 0.5, 0);
     (- 0.5, 0.5, 0.5);
     (zeta, zeta, 0);
     (- zeta, 1 - zeta, 0);
     (- 0.5, 0.5, 0);
     (0, 0, 0.5)]).

(** [RHL._special_points] (lines 647-675) *)
Definition RHL_special_points (a alpha : R) (variant : Variant) : result points_t :=
  if String.eqb (name variant) "RHL1" then
    let cosa := cos (alpha * _degrees) in
    let eta := (1 + 4 * cosa) / (2 + 4 * cosa) in
    let nu := 0.75 - 0.5 * eta in
    Return (PointList
      [(0, 0, 0);
       (eta, 0.5, 1 - eta);
       (0.5, 1 - eta, eta - 1);
       (0.5, 0.5, 0);
       (0.5, 0, 0);
       (0, 0, - 0.5);
       (eta, nu, nu);
       (1 - nu, 1 - nu, 1 - eta);
       (nu, nu, eta - 1);
       (1 - nu, nu, 0);
       (nu, 0, - nu);
       (0.5, 0.5, 0.5)])
  else
    let eta := 1 / (2 * tan (alpha * _degrees / 2) ^ 2) in
    let nu := 0.75 - 0.5 * eta in
    Return (PointList
      [(0, 0, 0);
       (0.5, - 0.5, 0);
       (0.5, 0, 0);
       (1 - nu, - nu, 1 - nu);
       (nu, nu - 1, nu - 1);
       (eta, eta, eta);
       (1 - eta, - eta, - eta);
       (0.5, - 0.5, 0.5)]).

(** [MCL._special_points] (lines 696-717) *)
Definition MCL_special_points (a b c alpha : R) (variant : Variant)
  : result points_t :=
  let cosa := cos (alpha * _degrees) in
  let eta := (1 - b * cosa / c) / (2 * sin (alpha * _degrees) ^ 2) in
  let nu := 0.5 - eta * c * cosa / b in
  Return (PointList
    [(0, 0, 0);
     (0.5, 0.5, 0);
     (0, 0.5, 0.5);
     (0.5, 0, 0.5);
     (0.5, 0, - 0.5);
     (0.5, 0.5, 0.5);
     (0, eta, 1 - nu);
     (0, 1 - eta, nu);
     (0, eta, - nu);
     (0.5, eta, 1 - nu);
     (0.5, 1 - eta, nu);
     (0.5, eta, - nu);
     (0, 0.5, 0);
     (0, 0, 0.5);
     (0, 0, - 0.5);
     (0.5, 0, 0)]).

(** [int(variant.name[-1])] *)
Fixpoint last_char (s : string) : option ascii :=
  match s with
  | EmptyString => None
  | String ch EmptyString => Some ch
  | String _ s' => last_char s'
  end.

Definition int_of_last (s : string) : result nat :=
  match last_char s with
  | None => Raise IndexError
  | Some ch => if is_digit ch then Return (nat_of_ascii ch - 48)%nat else Raise ValueError
  end.

(** [MCLC._special_points] (lines 777-864).  A variant number outside
    1..5 leaves the local [points] unbound.  [cosa] and [sina] are
    numpy numbers, and so is every quotient they take part in; the
    quotients of [b2] and [a2] alone are quotients of Python floats. *)
Definition MCLC_special_points (a b c alpha : R) (variant : Variant)
  : result points_t :=
  variant <- int_of_last (name variant) ;;
  let a2 := a * a in
  let b2 := b * b in
  let cosa := cos (alpha * _degrees) in
  let sina := sin (alpha * _degrees) in
  let sina2 := sina ^ 2 in
  if Nat.eqb variant 1 || Nat.eqb variant 2 then
    let zeta := (2 - b * cosa / c) / (4 * sina2) in
    let eta := 0.5 + 2 * zeta * c * cosa / b in
    let psi := 0.75 - a2 / (4 * b2 * sina * sina) in
    let phi := psi + (0.75 - psi) * b * cosa / c in
    Return (PointList
      [(0, 0, 0);
       (0.5, 0, 0);
       (0, - 0.5, 0);
       (1 - zeta, 1 - zeta, 1 - eta);
       (zeta, zeta, eta);
       (- zeta, - zeta, 1 - eta);
       (1 - zeta, - zeta, 1 - eta);
       (phi, 1 - phi, 0.5);
       (1 - phi, phi - 1, 0.5);
       (0.5, 0.5, 0.5);
       (0.5, 0, 0.5);
       (1 - psi, psi - 1, 0);
       (psi, 1 - psi, 0);
       (psi - 1, - psi, 0);
       (0.5, 0.5, 0);
       (- 0.5, - 0.5, 0);
       (0, 0, 0.5)])
  else if Nat.eqb variant 3 || Nat.eqb variant 4 then
    q <- truediv b2 a2 ;;
    let mu := 0.25 * (1 + q) in
    let delta := b * c * cosa / (2 * a2) in
    let zeta := mu - 0.25 + (1 - b * cosa / c) / (4 * sina2) in
    let eta := 0.5 + 2 * zeta * c * cosa / b in
    let phi := 1 + zeta - 2 * mu in
    let psi := eta - 2 * delta in
    Return (PointList
      [(0, 0, 0);
       (1 - phi, 1 - phi, 1 - psi);
       (phi, phi - 1, psi);
       (1 - phi, - phi, 1 - psi);
       (zeta, zeta, eta);
       (1 - zeta, - zeta, 1 - eta);
       (- zeta, - zeta, 1 - eta);
       (0.5, - 0.5, 0.5);
       (0.5, 0, 0.5);
       (0.5, 0, 0);
       (0, - 0.5, 0);
       (0.5, - 0.5, 0);
       (mu, mu, delta);
       (1 - mu, - mu, - delta);
       (- mu, - mu, - delta);
       (mu, mu - 1, delta);
       (0, 0, 0.5)])
  else if Nat.eqb variant 5 then
    q <- truediv b2 a2 ;;
    let zeta := 0.25 * (q + (1 - b * cosa / c) / sina2) in
    let eta := 0.5 + 2 * zeta * c * cosa / b in
    q' <- truediv b2 (4 * a2) ;;
    let mu := 0.5 * eta + q' - b * c * cosa / (2 * a2) in
    let nu := 2 * mu - zeta in
    let omega := (4 * nu - 1 - b2 * sina2 / a2) * c / (2 * b * cosa) in
    let delta := zeta * c * cosa / b + omega / 2 - 0.25 in
    let rho := 1 - zeta * a2 / b2 in
    Return (PointList
      [(0, 0, 0);
       (nu, nu, omega);
       (1 - nu, 1 - nu, 1 - omega);
       (nu, nu - 1, omega);
       (zeta, zeta, eta);
       (1 - zeta, - zeta, 1 - eta);
       (- zeta, - zeta, 1 - eta);
       (rho, 1 - rho, 0.5);
       (1 - rho, rho - 1, 0.5);
       (0.5, 0.5, 0.5);
       (0.5, 0, 0.5);
       (0.5, 0, 0);
       (0, - 0.5, 0);
       (0.5, - 0.5, 0);
       (mu, mu, delta);
       (1 - mu, - mu, - delta);
       (- mu, - mu, - delta);
       (mu, mu - 1, delta);
       (0, 0, 0.5)])
  else Raise NameError.

(** [TRI._special_points] (lines 914-936) *)
Definition TRI_special_points (a b c alpha beta gamma : R) (variant : Variant)
  : result points_t :=
  if String.eqb (name variant) "TRI1a" || String.eqb (name variant) "TRI2a" then
    Return (PointList
      [(0, 0, 0);
       (0.5, 0.5, 0);
       (0, 0.5, 0.5);
       (0.5, 0, 0.5);
       (0.5, 0.5, 0.5);
       (0.5, 0, 0);
       (0, 0.5, 0);
       (0, 0, 0.5)])
  else
    Return (PointList
      [(0, 0, 0);
       (0.5, - 0.5, 0);
       (0, 0, 0.5);
       (- 0.5, - 0.5, 0.5);
       (0, - 0.5, 0.5);
       (0, - 0.5, 0);
       (0.5, 0, 0);
       (- 0.5, 0, 0.5)]).

Section SpecialPoints.

(** The table [ibz_points] of ase/dft/kpoints.py, which is not among the
    sources: the coordinates of a named point of a named lattice.  The
    module can only be imported when every lookup the decorator makes
    finds its key, so the table is taken total. *)
Variable ibz_points : string -> string -> vec.

(** The literal [pointinfo] of the hexagonal lattice (lines 365-370). *)
Definition hex_pointinfo : dict vec :=
  [("Gamma", (0, 0, 0));
   ("M", (0, 1 / 2, 0));
   ("K", (1 / 3, 1 / 3, 0));
   ("A", (0, 0, 1 / 2));
   ("L", (0, 1 / 2, 1 / 2));
   ("H", (1 / 3, 1 / 3, 1 / 2))].

(** [pointinfo] as the decorator chooses it (lines 356-370). *)
Definition pointinfo (f : Family) : option (string -> result vec) :=
  match f with
  | CUB => Some (fun n => Return (ibz_points "cubic" n))
  | FCC => Some (fun n => Return (ibz_points "fcc" n))
  | BCC => Some (fun n => Return (ibz_points "bcc" n))
  | TET => Some (fun n => Return (ibz_points "tetragonal" n))
  | ORC => Some (fun n => Return (ibz_points "orthorhombic" n))
  | HEX => Some (lookup hex_pointinfo)
  | _ => None
  end.

(** [cls.special_points] as the decorator leaves it (lines 347-380):
    [None] unless the class has one variant and a [pointinfo]. *)
Definition class_special_points (f : Family) : result (option (dict vec)) :=
  match variant_list f, pointinfo f with
  | [variant], Some info =>
      let names := chars (special_point_names variant) in
      points <- sequence (List.map
        (fun name => info (if String.eqb name "G" then "Gamma" else name)) names) ;;
      Return (Some (dict_of (List.combine names points)))
  | _, _ => Return None
  end.

(** [SimpleBravaisLattice._special_points] (lines 299-301) *)
Definition SimpleBravaisLattice_special_points (f : Family) : result points_t :=
  sp <- class_special_points f ;;
  match sp with
  | Some d => Return (PointDict d)
  | None => Raise AssertionError
  end.

(** [self._special_points(variant=variant, **self._parameters)] *)
Definition _special_points (self : BravaisLattice) (variant : Variant)
  : result points_t :=
  p <- attr (_parameters self) ;;
  match cls self with
  | CUB | FCC | BCC | TET | ORC | HEX =>
      SimpleBravaisLattice_special_points (cls self)
  | BCT => a <- kw p "a" ;; c <- kw p "c" ;; BCT_special_points a c variant
  | ORCF => a <- kw p "a" ;; b <- kw p "b" ;; c <- kw p "c" ;;
            ORCF_special_points a b c variant
  | ORCI => a <- kw p "a" ;; b <- kw p "b" ;; c <- kw p "c" ;;
            ORCI_special_points a b c variant
  | ORCC => a <- kw p "a" ;; b <- kw p "b" ;; c <- kw p "c" ;;
            ORCC_special_points a b c variant
  | RHL => a <- kw p "a" ;; alpha <- kw p "alpha" ;;
           RHL_special_points a alpha variant
  | MCL => a <- kw p "a" ;; b <- kw p "b" ;; c <- kw p "c" ;;
           alpha <- kw p "alpha" ;; MCL_special_points a b c alpha variant
  | MCLC => a <- kw p "a" ;; b <- kw p "b" ;; c <- kw p "c" ;;
            alpha <- kw p "alpha" ;; MCLC_special_points a b c alpha variant
  | TRI => a <- kw p "a" ;; b <- kw p "b" ;; c <- kw p "c" ;;
           alpha <- kw p "alpha" ;; beta <- kw p "beta" ;;
           gamma <- kw p "gamma" ;;
           TRI_special_points a b c alpha beta gamma variant
  end.

(** [BravaisLattice.get_special_points_array] (lines 140-144) *)
Definition get_special_points_array (self : BravaisLattice) : result points_t :=
  variant <- attr (_variant self) ;;
  points <- _special_points self variant ;;
  labels <- kpoint_labels self ;;
  _ <- assert (Nat.eqb (len points) (List.length labels)) ;;
  Return points.

(** [BravaisLattice.get_special_points] (lines 148-154).  The classes
    that inherit [SimpleBravaisLattice] have the attribute
    [special_points], be it [None]. *)
Definition get_special_points (self : BravaisLattice)
  : result (option (dict vec)) :=
  if is_simple (cls self) then class_special_points (cls self)
  else
    labels <- kpoint_labels self ;;
    points <- get_special_points_array self ;;
    Return (Some (dict_of (List.combine labels (coordinates points)))).

End SpecialPoints.

(** ** Attribute access *)

(** The property [BravaisLattice.variant] (lines 115-117) *)
Definition BravaisLattice_variant (self : BravaisLattice) : result Variant :=
  attr (_variant self).

Section AttributeAccess.

(** [object.__getattribute__], the normal lookup: the attributes of the
    instance, then those of its class and of the classes it inherits.
    Their values are of many types (strings, tuples, dictionaries,
    bound methods); they are kept abstract. *)
Variable object : Type.
Variable __getattribute__ : BravaisLattice -> string -> result object.

(** [BravaisLattice.__getattr__] (lines 119-122): the value of a
    parameter of the lattice; any other name is handed to
    [__getattribute__], whose answer, a value or an exception, is the
    answer.  (Python calls [__getattr__] for a name the normal lookup
    has not found, and then the second lookup raises [AttributeError]
    again; called with the name of an attribute that exists, the
    method returns that attribute.)  On an instance without
    [_parameters] the test [name in self._parameters] calls the method
    again, without end. *)
Definition __getattr__ (self : BravaisLattice) (name : string)
  : result (R + object) :=
  match _parameters self with
  | None => Raise RecursionError
  | Some p =>
      if mem name (keys p) then v <- lookup p name ;; Return (inl v)
      else v <- __getattribute__ self name ;; Return (inr v)
  end.

End AttributeAccess.

(** The property [BravaisLattice.special_path] (lines 136-138) *)
Definition BravaisLattice_special_path (self : BravaisLattice) : result string :=
  variant <- BravaisLattice_variant self ;;
  Return (special_path variant).

(** ** Band paths *)

(** [resolve_kpt_path_string] (lines 16-22): the labels of each subpath
    and, for each label, its coordinates in [special_points]. *)
Definition resolve_kpt_path_string (path : string) (special_points : dict vec)
  : result (list (list string) * list (list vec)) :=
  paths <- parse_path_string path ;;
  coords <- sequence (List.map
    (fun subpath => sequence (List.map (fun sym => lookup special_points sym) subpath))
    paths) ;;
  Return (paths, coords).

(** What [BandPath] keeps as [labelseq]: the empty list by default, the
    path string when [bandpath] builds it. *)
Inductive labelseq_t : Type :=
| LabelList (l : list string)
| PathString (s : string).

Section BandPaths.

Context {ops : CellOps}.

(** The table [ibz_points], as for the special points. *)
Variable ibz_points : string -> string -> vec.

(** The numpy arrays of k-points.  Of an array the code asks
    [a.ndim == 2 and a.shape[1] == 3]; [np.empty((0, 3))] is the
    default; [paths2kpts] of ase/dft/kpoints.py, which is not among the
    sources, makes the k-points of a path. *)
Variable array : Type.
Variable is_nx3 : array -> bool.
Variable empty_0x3 : array.
Variable paths2kpts : list (list vec) -> matrix -> Z -> result array.

Record BandPath : Type := mkBandPath {
  BandPath_cell : matrix;
  icell : matrix;
  scaled_kpts : array;
  BandPath_special_points : dict vec;
  labelseq : labelseq_t
}.

(** [BandPath.__init__] (lines 25-42) *)
Definition BandPath__init__ (cell : matrix) (scaled_kpts : option array)
  (special_points : option (dict vec)) (labelseq : option labelseq_t)
  : result BandPath :=
  let scaled_kpts :=
    match scaled_kpts with Some k => k | None => empty_0x3 end in
  let special_points :=
    match special_points with Some sp => sp | None => [] end in
  let labelseq :=
    match labelseq with Some l => l | None => LabelList [] end in
  _ <- assert (is_nx3 scaled_kpts) ;;
  Return (mkBandPath cell (reciprocal cell) scaled_kpts special_points labelseq).

(** [BravaisLattice.bandpath] (lines 206-224).  [special_points] is
    what the caller passed, or what [get_special_points] returns, which
    may be [None]. *)
Definition bandpath (self : BravaisLattice) (path : option string) (npoints : Z)
  (special_points : option (dict vec)) : result BandPath :=
  special_points <-
    match special_points with
    | None => get_special_points ibz_points self
    | Some sp => Return (Some sp)
    end ;;
  path <-
    match path with
    | None => BravaisLattice_special_path self
    | Some p => Return p
    end ;;
  special_points <-
    match special_points with
    | Some sp => Return sp
    | None => Raise AssertionError
    end ;;
  ' (pathnames, pathcoords) <- resolve_kpt_path_string path special_points ;;
  cell <- tocell self 0 ;;
  let icell := reciprocal cell in
  kpts <- paths2kpts pathcoords cell npoints ;;
  BandPath__init__ cell (Some kpts) (Some special_points) (Some (PathString path)).

End BandPaths.

(** ** The registry *)

(** The classes in the order the module defines and decorates them. *)
Definition classes : list Family :=
  [CUB; FCC; BCC; TET; BCT; ORC; ORCF; ORCI; ORCC; HEX; RHL; MCL; MCLC; TRI].

(** [bravais_names] and [bravais_lattices] as the decorator leaves them
    once the module is loaded (lines 324-325, 383-384). *)
Definition bravais_names : list string := List.map type classes.

Definition bravais_lattices : dict Family :=
  dict_of (List.map (fun f => (type f, f)) classes).

(** ** The classifier: [get_bravais_lattice] (lines 939-1188) *)

(** [categorize_differences] (lines 958-967); [eq_flags] is its local
    list [eq]. *)
Definition eq_flags (eps : R) (numbers : vec) : list bool :=
  let '(a, b, c) := numbers in
  [Rltb (Rabs (b - c)) eps; Rltb (Rabs (c - a)) eps; Rltb (Rabs (a - b)) eps].

Definition categorize_differences (eps : R) (numbers : vec)
  : result (bool * bool * option Z) :=
  let eq := eq_flags eps numbers in
  let neq := count_true eq in
  let all_equal := Nat.eqb neq 3 in
  let all_different := Nat.eqb neq 0 in
  let funny_direction := if Nat.eqb neq 1 then Some (argmax eq) else None in
  _ <- assert (negb (Nat.eqb neq 2)) ;;
  Return (all_equal, all_different, funny_direction).

(** The local [allclose] (lines 1001-1002): [np.allclose(a, b, atol=eps)]. *)
Definition allclose (eps : R) (a b : list R) : bool :=
  np_allclose default_rtol eps a b.

(** A scalar compared with a sequence is broadcast. *)
Definition broadcast (n : nat) (x : R) : list R := List.repeat x n.

(** The local [noduplicates] (lines 1004-1007) *)
Definition noduplicates (eps : R) (a : vec) : bool :=
  let '(s0, s1, s2) := sort a in
  let smallest_deviation := Rmin (Rabs (s1 - s0)) (Rabs (s2 - s1)) in
  Rltb eps smallest_deviation.

(** A statement of a function body either falls through to the next
    statement, returns from the function, or raises. *)
Inductive flow (A : Type) : Type :=
| Next
| Ret (a : A)
| Exc (e : exn).
Arguments Next {A}.
Arguments Ret {A} a.
Arguments Exc {A} e.

Definition seq {A : Type} (s1 s2 : flow A) : flow A :=
  match s1 with
  | Next => s2
  | _ => s1
  end.

Notation "s1 >> s2" := (seq s1 s2) (at level 62, right associativity).

(** A call inside a statement: its exception leaves the function. *)
Definition try {A B : Type} (m : result A) (k : A -> flow B) : flow B :=
  match m with
  | Return a => k a
  | Raise e => Exc e
  end.

Notation "x <~ m ;; k" := (try m (fun x => k))
  (at level 61, m at next level, right associativity).

(** The value of a function whose body ends without [return] is [None];
    the body of the classifier always ends in a [raise]. *)
Definition run {A : Type} (body : flow A) : result A :=
  match body with
  | Ret a => Return a
  | Exc e => Raise e
  | Next => Raise RuntimeError
  end.

Section Classifier.

Context {ops : CellOps}.

(** What the classifier returns: the lattice and an empty dictionary. *)
Definition answer : Type := (BravaisLattice * dict R)%type.

(** The local [check] (lines 975-992), with the [cellpar] of the
    enclosing call.  Only [UnconventionalLattice] is caught. *)
Definition check (cellpar : cellpar_t) (f : Family) (args : list R) (axis : Z)
  : result (option (Family * dict R)) :=
  match (lat <- call f args ;; tocell lat 0) with
  | Raise e =>
      if isinstance e UnconventionalLattice then Return None else Raise e
  | Return cell =>
      let mycellpar := Cell_cellpar cell in
      let permutation :=
        ((-3 + axis) mod 3, (-2 + axis) mod 3, (-1 + axis) mod 3)%Z in
      let mycellpar :=
        (take (fst mycellpar) permutation, take (snd mycellpar) permutation) in
      if np_allclose default_rtol default_atol
           (cellpar_list mycellpar) (cellpar_list cellpar)
      then Return (Some (f, dict_of (List.combine (parameters f) args)))
      else Return None
  end.

(** Lines 1009-1017: the cubic lattices. *)
Definition test_cubic (eps : R) (ABC angles : vec) (all_lengths_equal : bool)
  : flow answer :=
  let A := item ABC 0 in
  if all_lengths_equal then
    (if allclose eps (to_list angles) (broadcast 3 90)
     then lat <~ call CUB [A] ;; Ret (lat, [])
     else Next) >>
    (if allclose eps (to_list angles) (broadcast 3 60)
     then lat <~ call FCC [sqrt 2 * A] ;; Ret (lat, [])
     else Next) >>
    (if allclose eps (to_list angles) (broadcast 3 (acos (- 1 / 3) * 180 / PI))
     then lat <~ call BCC [2.0 * A / sqrt 3] ;; Ret (lat, [])
     else Next)
  else Next.

(** Lines 1019-1029: body-centred tetragonal. *)
Definition test_BCT (cellpar : cellpar_t) (BC_CA_AB : vec)
  (all_lengths_equal : bool) (unequal_angle_dir : option Z) : flow answer :=
  let A := item (fst cellpar) 0 in
  match all_lengths_equal, unequal_angle_dir with
  | true, Some unequal_angle_dir =>
      let y := item BC_CA_AB ((unequal_angle_dir + 1) mod 3) in
      let c := 2.0 * sqrt (- y) in
      let a := sqrt (2.0 * A ^ 2 - 0.5 * c ^ 2) in
      obj <~ check cellpar BCT [a; c] (- unequal_angle_dir + 2) ;;
      match obj with
      | Some _ => bct <~ call BCT [a; c] ;; Ret (bct, [])
      | None => Next
      end
  | _, _ => Next
  end.

(** Lines 1031-1038: hexagonal.  Indexing an array with [None] inserts
    an axis, so that without a distinguished scalar product [a2] holds
    three numbers and [assert a2 > 0] asks for the truth value of an
    array: numpy raises [ValueError]. *)
Definition test_HEX (eps : R) (ABC angles BC_CA_AB : vec)
  (unequal_angle_dir unequal_scalarprod_dir : option Z) : flow answer :=
  match unequal_angle_dir with
  | Some unequal_angle_dir =>
      if Rltb (Rabs (item angles unequal_angle_dir - 120)) eps
         && Rltb (Rabs (item angles (unequal_angle_dir - 1) - 90)) eps
      then
        match unequal_scalarprod_dir with
        | Some unequal_scalarprod_dir =>
            let a2 := - 2 * item BC_CA_AB unequal_scalarprod_dir in
            let c := item ABC unequal_scalarprod_dir in
            _ <~ assert (Rltb 0 a2) ;;
            lat <~ call HEX [sqrt a2; c] ;;
            Ret (lat, [])
        | None => Exc ValueError
        end
      else Next
  | None => Next
  end.

(** Lines 1042-1047: tetragonal. *)
Definition test_TET (eps : R) (cellpar : cellpar_t)
  (unequal_length_dir : option Z) : flow answer :=
  let ABC := fst cellpar in
  let angles := snd cellpar in
  match unequal_length_dir with
  | Some unequal_length_dir =>
      if allclose eps (to_list angles) (broadcast 3 90) then
        let a := item ABC (unequal_length_dir - 1) in
        let c := item ABC unequal_length_dir in
        xx <~ check cellpar TET [a; c] (- unequal_length_dir + 2) ;;
        _ <~ assert (match xx with Some _ => true | None => false end) ;;
        lat <~ call TET [a; c] ;;
        Ret (lat, [])
      else Next
  | None => Next
  end.

(** Lines 1049-1068: base-centred orthorhombic. *)
Definition test_ORCC (eps : R) (ABC BC_CA_AB : vec)
  (unequal_length_dir : option Z) : flow answer :=
  match unequal_length_dir with
  | Some unequal_length_dir =>
      if Rltb eps (Rabs (item BC_CA_AB unequal_length_dir))
         && Nat.eqb (count_true
                       (List.map (fun x => Rltb eps (Rabs x)) (to_list BC_CA_AB))) 1
      then
        let cdir := unequal_length_dir in
        let orcc_c := item ABC cdir in
        let Y := item BC_CA_AB cdir in
        let X := item ABC ((cdir + 1) mod 3) ^ 2 in
        let orcc_a := sqrt (2 * (X + Y)) in
        let orcc_b := sqrt (2 * (X - Y)) in
        let '(orcc_a, orcc_b) :=
          if Rltb orcc_b orcc_a then (orcc_b, orcc_a) else (orcc_a, orcc_b) in
        lat <~ call ORCC [orcc_a; orcc_b; orcc_c] ;;
        Ret (lat, [])
      else Next
  | None => Next
  end.

(** Lines 1075-1078: orthorhombic. *)
Definition test_ORC (eps : R) (ABC angles : vec) (all_lengths_different : bool)
  : flow answer :=
  if allclose eps (to_list angles) (broadcast 3 90) && all_lengths_different then
    let permutation := argsort ABC in
    lat <~ call ORC (to_list (take ABC permutation)) ;;
    Ret (lat, [])
  else Next.

(** Lines 1080-1086: face-centred orthorhombic. *)
Definition test_ORCF (eps : R) (uc : matrix) (BC_CA_AB : vec)
  (all_lengths_different : bool) : flow answer :=
  if all_lengths_different && noduplicates eps BC_CA_AB then
    let permutation := argsort BC_CA_AB in
    lat <~ call ORCF (to_list (map3 (fun x => 2 * sqrt x) (take BC_CA_AB permutation))) ;;
    par1 <~ cellpar lat 0 ;;
    let par2 := Cell_cellpar (Cell_new (FromArray (take uc permutation))) in
    _ <~ assert (allclose eps (cellpar_list par1) (cellpar_list par2)) ;;
    Ret (lat, [])
  else Next.

(** Lines 1095-1107: body-centred orthorhombic. *)
Definition test_ORCI (eps : R) (uc : matrix) (BC_CA_AB : vec)
  (all_lengths_equal : bool) : flow answer :=
  if all_lengths_equal then
    let dims2 := map3 (Rmult (- 2))
      (item BC_CA_AB 1 + item BC_CA_AB 2,
       item BC_CA_AB 2 + item BC_CA_AB 0,
       item BC_CA_AB 0 + item BC_CA_AB 1) in
    if List.forallb (Rltb 0) (to_list dims2) && noduplicates eps dims2 then
      let dims := map3 sqrt dims2 in
      let permutation := argsort dims in
      lat <~ call ORCI (to_list (take dims permutation)) ;;
      cell <~ tocell lat 0 ;;
      _ <~ assert (allclose eps (flatten cell) (flatten (take uc permutation))) ;;
      Ret (lat, [])
    else Next
  else Next.

(** Lines 1113-1117: rhombohedral. *)
Definition test_RHL (ABC BC_CA_AB : vec) (all_lengths_equal : bool)
  : flow answer :=
  let A := item ABC 0 in
  if all_lengths_equal then
    let cosa := item BC_CA_AB 0 / A ^ 2 in
    let rhl_alpha := acos cosa * 180 / PI in
    lat <~ call RHL [A; rhl_alpha] ;;
    Ret (lat, [])
  else Next.

(** Lines 1124-1148: monoclinic. *)
Definition test_MCL (eps : R) (ABC angles : vec)
  (unequal_scalarprod_dir : option Z) : flow answer :=
  match unequal_scalarprod_dir with
  | Some unequal_scalarprod_dir =>
      let mcl_alpha := item angles unequal_scalarprod_dir in
      let other_two_angles :=
        [item angles (unequal_scalarprod_dir - 1);
         item angles (unequal_scalarprod_dir - 2)] in
      if allclose eps other_two_angles (broadcast 2 90) then
        _ <~ assert (Rltb mcl_alpha 90) ;;
        let a_dir := unequal_scalarprod_dir in
        let b_dir := ((a_dir - 1) mod 3)%Z in
        let c_dir := ((b_dir - 1) mod 3)%Z in
        let mcl_a := item ABC a_dir in
        let mcl_b := item ABC b_dir in
        let mcl_c := item ABC c_dir in
        let '(mcl_c, mcl_b) :=
          if Rltb mcl_c mcl_b then (mcl_b, mcl_c) else (mcl_c, mcl_b) in
        _ <~ assert (Rltb mcl_a mcl_c) ;;
        lat <~ call MCL [mcl_a; mcl_b; mcl_c; mcl_alpha] ;;
        Ret (lat, [])
      else Next
  | None => Next
  end.

(** Lines 1165-1176: base-centred monoclinic. *)
Definition test_MCLC (ABC BC_CA_AB : vec) (unequal_length_dir : option Z)
  : flow answer :=
  match unequal_length_dir with
  | Some unequal_length_dir =>
      let cdir := unequal_length_dir in
      let mclc_c := item ABC cdir in
      let L := item ABC (cdir - 1) in
      let mclc_b := sqrt (2 * (L ^ 2 + item BC_CA_AB unequal_length_dir)) in
      let mclc_a := sqrt (4 * L ^ 2 - mclc_b ^ 2) in
      let cosa := 2 * item BC_CA_AB (unequal_length_dir - 1) / (mclc_b * mclc_c) in
      let mclc_alpha := acos cosa * 180 / PI in
      _ <~ assert (Rltb mclc_alpha 90) ;;
      lat <~ call MCLC [mclc_a; mclc_b; mclc_c; mclc_alpha] ;;
      Ret (lat, [])
  | None => Next
  end.

(** Lines 1182-1186: triclinic.  The statement [xxxxxxxxxxx] stands
    before [return obj]: evaluating the undefined name raises
    [NameError]. *)
Definition test_TRI (cellpar : cellpar_t) : flow answer :=
  obj <~ check cellpar TRI (cellpar_list cellpar) 0 ;;
  match obj with
  | Some _ => Exc NameError
  | None => Next
  end.

Definition get_bravais_lattice (uc : matrix) (eps : R) (_niggli_reduce : bool)
  : result answer :=
  let uc := if _niggli_reduce then fst (niggli_reduce uc) else uc in
  let cellpar := Cell_cellpar uc in
  let ABC := fst cellpar in
  let angles := snd cellpar in
  '(all_lengths_equal, all_lengths_different, unequal_length_dir) <-
    categorize_differences eps ABC ;;
  '(all_angles_equal, all_angles_different, unequal_angle_dir) <-
    categorize_differences eps angles ;;
  let BC_CA_AB :=
    (vdot (item uc 1) (item uc 2),
     vdot (item uc 2) (item uc 0),
     vdot (item uc 0) (item uc 1)) in
  '(_, _, unequal_scalarprod_dir) <- categorize_differences eps BC_CA_AB ;;
  run (test_cubic eps ABC angles all_lengths_equal >>
       test_BCT cellpar BC_CA_AB all_lengths_equal unequal_angle_dir >>
       test_HEX eps ABC angles BC_CA_AB unequal_angle_dir unequal_scalarprod_dir >>
       test_TET eps cellpar unequal_length_dir >>
       test_ORCC eps ABC BC_CA_AB unequal_length_dir >>
       test_ORC eps ABC angles all_lengths_different >>
       test_ORCF eps uc BC_CA_AB all_lengths_different >>
       test_ORCI eps uc BC_CA_AB all_lengths_equal >>
       test_RHL ABC BC_CA_AB all_lengths_equal >>
       test_MCL eps ABC angles unequal_scalarprod_dir >>
       test_MCLC ABC BC_CA_AB unequal_length_dir >>
       test_TRI cellpar >>
       Exc RuntimeError).

End Classifier.

(** ** A reference instance of the cell primitives

    The theorems below hold for all instances of [CellOps]; the round
    trip with reduction asks of the reduction that it keeps the
    lengths, angles and scalar products of a cell in normal form.  To
    evaluate the definitions on concrete inputs an instance is needed.
    This one takes the reciprocal cell as the inverse transpose
    ("matrix inverse transpose" in the specification) and builds a
    cell from six parameters by the formula that [TRI._cell] writes
    out, with the angles converted to radians once.  Its reduction is
    specified, not computed: a cell in Niggli's normal form is its own
    reduction, and any other cell is sent to a cell in normal form
    that spans the same lattice, with the transform that leads there,
    where there is one.  Nothing below depends on what the reduction
    of a cell that is not in normal form is. *)

(** Niggli's normal form of the rows [a], [b], [c], on the numbers
    [A = a.a], [B = b.b], [C = c.c], [xi = 2 b.c], [eta = 2 a.c] and
    [zeta = 2 a.b]: the lengths increase; the three products are all
    positive (type I) or none is (type II); none exceeds the squared
    lengths it is compared with; and where one of these comparisons is
    an equality the tie is broken as Niggli's special conditions say. *)
Definition normal_form (m : matrix) : bool :=
  let '(a, b, c) := m in
  let A := vdot a a in
  let B := vdot b b in
  let C := vdot c c in
  let xi := 2 * vdot b c in
  let eta := 2 * vdot a c in
  let zeta := 2 * vdot a b in
  Rleb A B && Rleb B C
  && (negb (Reqb A B) || Rleb (Rabs xi) (Rabs eta))
  && (negb (Reqb B C) || Rleb (Rabs eta) (Rabs zeta))
  && ((Rltb 0 xi && Rltb 0 eta && Rltb 0 zeta
       && Rleb xi B && Rleb eta A && Rleb zeta A
       && (negb (Reqb xi B) || Rleb zeta (2 * eta))
       && (negb (Reqb eta A) || Rleb zeta (2 * xi))
       && (negb (Reqb zeta A) || Rleb eta (2 * xi)))
      || (Rleb xi 0 && Rleb eta 0 && Rleb zeta 0
          && Rleb (- xi) B && Rleb (- eta) A && Rleb (- zeta) A
          && Rleb 0 (xi + eta + zeta + A + B)
          && (negb (Reqb (- xi) B) || Reqb zeta 0)
          && (negb (Reqb (- eta) A) || Reqb zeta 0)
          && (negb (Reqb (- zeta) A) || Reqb eta 0)
          && (negb (Reqb (xi + eta + zeta + A + B) 0)
              || Rleb (2 * (A + eta) + zeta) 0))).

(** A change of basis: the rows of [t m] are the combinations of the
    rows of [m] with the integers of the rows of [t]. *)
Definition integer_matrix : Type := ((Z * Z * Z) * (Z * Z * Z) * (Z * Z * Z))%type.

Definition combination (k : Z * Z * Z) (m : matrix) : vec :=
  let '(k0, k1, k2) := k in
  let '((a0, a1, a2), (b0, b1, b2), (c0, c1, c2)) := m in
  (IZR k0 * a0 + IZR k1 * b0 + IZR k2 * c0,
   IZR k0 * a1 + IZR k1 * b1 + IZR k2 * c1,
   IZR k0 * a2 + IZR k1 * b2 + IZR k2 * c2).

Definition change_basis (t : integer_matrix) (m : matrix) : matrix :=
  let '(t0, t1, t2) := t in
  (combination t0 m, combination t1 m, combination t2 m).

Definition integer_det (t : integer_matrix) : Z :=
  let '((p, q, r), (u, v, w), (x, y, z)) := t in
  (p * (v * z - w * y) - q * (u * z - w * x) + r * (u * y - v * x))%Z.

Definition to_real (t : integer_matrix) : matrix :=
  map3 (map3 IZR) t.

(** [r] is a reduction of [m]: a cell in normal form whose rows span
    the lattice of the rows of [m]. *)
Definition reduction_of (m : matrix) (r : matrix * matrix) : Prop :=
  normal_form (fst r) = true
  /\ exists t : integer_matrix,
       (integer_det t = 1 \/ integer_det t = - 1)%Z
       /\ fst r = change_basis t m /\ snd r = to_real t.

Definition reference_reduce (m : matrix) : matrix * matrix :=
  if normal_form m then (m, eye)
  else epsilon (inhabits (m, eye)) (reduction_of m).

Definition cross (u v : vec) : vec :=
  let '(u0, u1, u2) := u in
  let '(v0, v1, v2) := v in
  (u1 * v2 - u2 * v1, u2 * v0 - u0 * v2, u0 * v1 - u1 * v0).

Definition det (m : matrix) : R :=
  let '(va, vb, vc) := m in vdot va (cross vb vc).

Definition inverse_transpose (m : matrix) : matrix :=
  let '(va, vb, vc) := m in
  let d := det m in
  (map3 (fun x => x / d) (cross vb vc),
   map3 (fun x => x / d) (cross vc va),
   map3 (fun x => x / d) (cross va vb)).

Definition cellpar_to_cell (lengths angles : vec) : matrix :=
  let '(a, b, c) := lengths in
  let '(alpha, beta, gamma) := angles in
  let singamma := sin (gamma * _degrees) in
  let cosgamma := cos (gamma * _degrees) in
  let cosbeta := cos (beta * _degrees) in
  let cosalpha := cos (alpha * _degrees) in
  let a3x := c * cosbeta in
  let a3y := c / singamma * (cosalpha - cosbeta * cosgamma) in
  let a3z := c / singamma * sqrt (singamma ^ 2 - cosalpha ^ 2 - cosbeta ^ 2
                                  + 2 * cosalpha * cosbeta * cosgamma) in
  ((a, 0, 0), (b * cosgamma, b * singamma, 0), (a3x, a3y, a3z)).

Definition reference_ops : CellOps := {|
  niggli_reduce := reference_reduce;
  reciprocal := inverse_transpose;
  Cell_new := fun spec =>
    match spec with
    | FromCellpar lengths angles => cellpar_to_cell lengths angles
    | FromArray m => m
    end
|}.

(** ** What construction establishes, and what a call returned *)

Definition Variant_eqb (v w : Variant) : bool :=
  String.eqb (name v) (name w)
  && String.eqb (special_point_names v) (special_point_names w)
  && String.eqb (special_path v) (special_path w).

(** The state [BravaisLattice.__init__] leaves behind when it returns:
    the parameter names are those of the class, and the variant is one
    the class registered. *)
Definition initialised (self : BravaisLattice) : bool :=
  match _parameters self, _eps self, _variant self with
  | Some p, Some _, Some v =>
      set_eqb (keys p) (parameters (cls self))
      && List.existsb (Variant_eqb v) (variant_list (cls self))
  | _, _, _ => false
  end.

(** The classifier returned a lattice of the class [f]. *)
Definition returns_family (f : Family) (r : result (BravaisLattice * dict R)) : bool :=
  match r with
  | Return (lat, _) => Family_eqb (cls lat) f
  | Raise _ => false
  end.

(** A statement that, if it returns, returns a lattice of one of the
    classes [fs]. *)
Definition returns_in (fs : list Family) (s : flow answer) : Prop :=
  match s with
  | Ret (lat, _) => List.existsb (Family_eqb (cls lat)) fs = true
  | _ => True
  end.

(** A statement that, if it returns, returns an answer of which [P]
    holds. *)
Definition returns_only (P : BravaisLattice -> dict R -> Prop) (s : flow answer)
  : Prop :=
  match s with
  | Ret (lat, d) => P lat d
  | _ => True
  end.

(** The families the classifier can return. *)
Definition classified : list Family :=
  [CUB; FCC; BCC; BCT; HEX; TET; ORCC; ORC; ORCF; ORCI; RHL; MCL; MCLC].

(** What holds of an answer of the classifier: the dictionary is empty,
    the lattice is initialised, carries the default tolerance, and
    belongs to one of the classes the classifier returns. *)
Definition well_formed (lat : BravaisLattice) (d : dict R) : Prop :=
  d = [] /\ initialised lat = true /\ _eps lat = Some default_eps
  /\ List.existsb (Family_eqb (cls lat)) classified = true.

(** ** Labels and points *)

(** Labels and points are paired by position: the dictionary
    [dict(zip(labels, points))] maps the label at each position to the
    point at that position. *)
Definition paired (labels : list string) (points : list vec) : Prop :=
  forall i label, nth_error labels i = Some label ->
    exists point,
      nth_error points i = Some point
      /\ get (dict_of (List.combine labels points)) label = Some point.

(** Every point of the dictionary [d] is the point that the table
    [info] has under the name of its label, [G] standing for [Gamma]. *)
Definition from_table (info : string -> result vec) (d : dict vec) : Prop :=
  forall label point, In (label, point) d ->
    info (if String.eqb label "G" then "Gamma" else label) = Return point.

(** What each label of a variant names, for the classes whose points
    are the list of a formula: the rows of the lists of
    [_special_points] read under the labels of the variant's
    [special_point_names], label by label.  The quantities that the
    formulas compute from the parameters ([eta], [zeta], ...) are
    left open; a label names the same row in the variants that share
    a list. *)
Definition labelled (f : Family) (variant : string) (d : dict vec) : Prop :=
  match f with
  | BCT =>
      if String.eqb variant "BCT1" then
        exists eta,
          d =
          [("G", (0, 0, 0));
           ("M", (- 0.5, 0.5, 0.5));
           ("N", (0, 0.5, 0));
           ("P", (0.25, 0.25, 0.25));
           ("X", (0, 0, 0.5));
           ("Z", (eta, eta, - eta));
           ("Z1", (- eta, 1 - eta, eta))]
      else if String.eqb variant "BCT2" then
        exists eta zeta,
          d =
          [("G", (0, 0, 0));
           ("N", (0, 0.5, 0));
           ("P", (0.25, 0.25, 0.25));
           ("S", (- eta, eta, eta));
           ("S1", (eta, 1 - eta, - eta));
           ("X", (0, 0, 0.5));
           ("Y", (- zeta, zeta, 0.5));
           ("Y1", (0.5, 0.5, - zeta));
           ("Z", (0.5, 0.5, - 0.5))]
      else False
  | ORCF =>
      if String.eqb variant "ORCF1" || String.eqb variant "ORCF3" then
        exists zeta eta,
          d =
          [("G", (0, 0, 0));
           ("A", (0.5, 0.5 + zeta, zeta));
           ("A1", (0.5, 0.5 - zeta, 1 - zeta));
           ("L", (0.5, 0.5, 0.5));
           ("T", (1, 0.5, 0.5));
           ("X", (0, eta, eta));
           ("X1", (1, 1 - eta, 1 - eta));
           ("Y", (0.5, 0, 0.5));
           ("Z", (0.5, 0.5, 0))]
      else if String.eqb variant "ORCF2" then
        exists eta delta phi,
          d =
          [("G", (0, 0, 0));
           ("C", (0.5, 0.5 - eta, 1 - eta));
           ("C1", (0.5, 0.5 + eta, eta));
           ("D", (0.5 - delta, 0.5, 1 - delta));
           ("D1", (0.5 + delta, 0.5, delta));
           ("L", (0.5, 0.5, 0.5));
           ("H", (1 - phi, 0.5 - phi, 0.5));
           ("H1", (phi, 0.5 + phi, 0.5));
           ("X", (0, 0.5, 0.5));
           ("Y", (0.5, 0, 0.5));
           ("Z", (0.5, 0.5, 0))]
      else False
  | ORCI =>
      if String.eqb variant "ORCI" then
        exists mu delta zeta eta,
          d =
          [("G", (0, 0, 0));
           ("L", (- mu, mu, 0.5 - delta));
           ("L1", (mu, - mu, 0.5 + delta));
           ("L2", (0.5 - delta, 0.5 + delta, - mu));
           ("R", (0, 0.5, 0));
           ("S", (0.5, 0, 0));
           ("T", (0, 0, 0.5));
           ("W", (0.25, 0.25, 0.25));
           ("X", (- zeta, zeta, zeta));
           ("X1", (zeta, 1 - zeta, - zeta));
           ("Y", (eta, - eta, eta));
           ("Y1", (1 - eta, eta, - eta));
           ("Z", (0.5, 0.5, - 0.5))]
      else False
  | ORCC =>
      if String.eqb variant "ORCC" then
        exists zeta,
          d =
          [("G", (0, 0, 0));
           ("A", (zeta, zeta, 0.5));
           ("A1", (- zeta, 1 - zeta, 0.5));
           ("R", (0, 0.5, 0.5));
           ("S", (0, 0.5, 0));
           ("T", (- 0.5, 0.5, 0.5));
           ("X", (zeta, zeta, 0));
           ("X1", (- zeta, 1 - zeta, 0));
           ("Y", (- 0.5, 0.5, 0));
           ("Z", (0, 0, 0.5))]
      else False
  | RHL =>
      if String.eqb variant "RHL1" then
        exists eta nu,
          d =
          [("G", (0, 0, 0));
           ("B", (eta, 0.5, 1 - eta));
           ("B1", (0.5, 1 - eta, eta - 1));
           ("F", (0.5, 0.5, 0));
           ("L", (0.5, 0, 0));
           ("L1", (0, 0, - 0.5));
           ("P", (eta, nu, nu));
           ("P1", (1 - nu, 1 - nu, 1 - eta));
           ("P2", (nu, nu, eta - 1));
           ("Q", (1 - nu, nu, 0));
           ("X", (nu, 0, - nu));
           ("Z", (0.5, 0.5, 0.5))]
      else if String.eqb variant "RHL2" then
        exists nu eta,
          d =
          [("G", (0, 0, 0));
           ("F", (0.5, - 0.5, 0));
           ("L", (0.5, 0, 0));
           ("P", (1 - nu, - nu, 1 - nu));
           ("P1", (nu, nu - 1, nu - 1));
           ("Q", (eta, eta, eta));
           ("Q1", (1 - eta, - eta, - eta));
           ("Z", (0.5, - 0.5, 0.5))]
      else False
  | MCL =>
      if String.eqb variant "MCL" then
        exists eta nu,
          d =
          [("G", (0, 0, 0));
           ("A", (0.5, 0.5, 0));
           ("C", (0, 0.5, 0.5));
           ("D", (0.5, 0, 0.5));
           ("D1", (0.5, 0, - 0.5));
           ("E", (0.5, 0.5, 0.5));
           ("H", (0, eta, 1 - nu));
           ("H1", (0, 1 - eta, nu));
           ("H2", (0, eta, - nu));
           ("M", (0.5, eta, 1 - nu));
           ("M1", (0.5, 1 - eta, nu));
           ("M2", (0.5, eta, - nu));
           ("X", (0, 0.5, 0));
           ("Y", (0, 0, 0.5));
           ("Y1", (0, 0, - 0.5));
           ("Z", (0.5, 0, 0))]
      else False
  | MCLC =>
      if String.eqb variant "MCLC1" || String.eqb variant "MCLC2" then
        exists zeta eta phi psi,
          d =
          [("G", (0, 0, 0));
           ("N", (0.5, 0, 0));
           ("N1", (0, - 0.5, 0));
           ("F", (1 - zeta, 1 - zeta, 1 - eta));
           ("F1", (zeta, zeta, eta));
           ("F2", (- zeta, - zeta, 1 - eta));
           ("F3", (1 - zeta, - zeta, 1 - eta));
           ("I", (phi, 1 - phi, 0.5));
           ("I1", (1 - phi, phi - 1, 0.5));
           ("L", (0.5, 0.5, 0.5));
           ("M", (0.5, 0, 0.5));
           ("X", (1 - psi, psi - 1, 0));
           ("X1", (psi, 1 - psi, 0));
           ("X2", (psi - 1, - psi, 0));
           ("Y", (0.5, 0.5, 0));
           ("Y1", (- 0.5, - 0.5, 0));
           ("Z", (0, 0, 0.5))]
      else if String.eqb variant "MCLC3" || String.eqb variant "MCLC4" then
        exists phi psi zeta eta mu delta,
          d =
          [("G", (0, 0, 0));
           ("F", (1 - phi, 1 - phi, 1 - psi));
           ("F1", (phi, phi - 1, psi));
           ("F2", (1 - phi, - phi, 1 - psi));
           ("H", (zeta, zeta, eta));
           ("H1", (1 - zeta, - zeta, 1 - eta));
           ("H2", (- zeta, - zeta, 1 - eta));
           ("I", (0.5, - 0.5, 0.5));
           ("M", (0.5, 0, 0.5));
           ("N", (0.5, 0, 0));
           ("N1", (0, - 0.5, 0));
           ("X", (0.5, - 0.5, 0));
           ("Y", (mu, mu, delta));
           ("Y1", (1 - mu, - mu, - delta));
           ("Y2", (- mu, - mu, - delta));
           ("Y3", (mu, mu - 1, delta));
           ("Z", (0, 0, 0.5))]
      else if String.eqb variant "MCLC5" then
        exists nu omega zeta eta rho mu delta,
          d =
          [("G", (0, 0, 0));
           ("F", (nu, nu, omega));
           ("F1", (1 - nu, 1 - nu, 1 - omega));
           ("F2", (nu, nu - 1, omega));
           ("H", (zeta, zeta, eta));
           ("H1", (1 - zeta, - zeta, 1 - eta));
           ("H2", (- zeta, - zeta, 1 - eta));
           ("I", (rho, 1 - rho, 0.5));
           ("I1", (1 - rho, rho - 1, 0.5));
           ("L", (0.5, 0.5, 0.5));
           ("M", (0.5, 0, 0.5));
           ("N", (0.5, 0, 0));
           ("N1", (0, - 0.5, 0));
           ("X", (0.5, - 0.5, 0));
           ("Y", (mu, mu, delta));
           ("Y1", (1 - mu, - mu, - delta));
           ("Y2", (- mu, - mu, - delta));
           ("Y3", (mu, mu - 1, delta));
           ("Z", (0, 0, 0.5))]
      else False
  | TRI =>
      if String.eqb variant "TRI1a" || String.eqb variant "TRI2a" then
        d =
          [("G", (0, 0, 0));
           ("L", (0.5, 0.5, 0));
           ("M", (0, 0.5, 0.5));
           ("N", (0.5, 0, 0.5));
           ("R", (0.5, 0.5, 0.5));
           ("X", (0.5, 0, 0));
           ("Y", (0, 0.5, 0));
           ("Z", (0, 0, 0.5))]
      else if String.eqb variant "TRI1b" || String.eqb variant "TRI2b" then
        d =
          [("G", (0, 0, 0));
           ("L", (0.5, - 0.5, 0));
           ("M", (0, 0, 0.5));
           ("N", (- 0.5, - 0.5, 0.5));
           ("R", (0, - 0.5, 0.5));
           ("X", (0, - 0.5, 0));
           ("Y", (0.5, 0, 0));
           ("Z", (- 0.5, 0, 0.5))]
      else False
  | CUB | FCC | BCC | TET | ORC | HEX => False
  end.

(** ** Round trips *)

Section RoundTripStatements.

Context {ops : CellOps}.

(** The class [f] called with [args] returns a lattice, and the lattice
    has a cell. *)
Definition has_cell (f : Family) (args : list R) : Prop :=
  exists lat cell, call f args = Return lat /\ tocell lat 0 = Return cell.

(** Classifying the cell of the lattice [f(args)] returns the lattice
    [g(args')]: after reduction when [reduce] is set, as the cell is
    with [_niggli_reduce=False]. *)
Definition classified_as (reduce : bool) (f : Family) (args : list R) (eps : R)
  (g : Family) (args' : list R) : Prop :=
  forall lat cell,
    call f args = Return lat -> tocell lat 0 = Return cell ->
    exists lat',
      call g args' = Return lat'
      /\ get_bravais_lattice cell eps reduce = Return (lat', []).

(** The round trip: the classifier returns the very lattice the cell
    came from. *)
Definition round_trip (reduce : bool) (f : Family) (args : list R) (eps : R)
  : Prop :=
  has_cell f args /\ classified_as reduce f args eps f args.

(** What the classifier reads of a cell before the tests of [ORCF] and
    [ORCI], which read its rows: the lengths and angles, and the scalar
    products of the rows. *)
Definition metric (uc : matrix) : cellpar_t * vec :=
  (Cell_cellpar uc,
   (vdot (item uc 1) (item uc 2),
    vdot (item uc 2) (item uc 0),
    vdot (item uc 0) (item uc 1))).

End RoundTripStatements.

(** ** Cells used as examples *)

(** Three vectors of length 10 (to six digits), at right angles to
    within 1.8e-4 degrees: their scalar products are 0.00000000045,
    0.00015 and 0.0003. *)
Definition skewed_cube : matrix :=
  ((- 10, 0, 0), (- 3e-5, 10, 0), (- 1.5e-5, 0, - 10.000001)).

(** Three vectors of different lengths with equal scalar products. *)
Definition triclinic_cell : matrix :=
  ((2, 0, 0), (0.5, 3, 0), (0.5, 0.25, 5)).

(** * Part II: properties *)

(** ** Comparisons *)

Lemma Rltb_true (x y : R) : Rltb x y = true <-> x < y.
Proof. unfold Rltb. destruct (Rlt_dec x y); split; intros; try discriminate; tauto. Qed.

Lemma Rltb_false (x y : R) : Rltb x y = false <-> y <= x.
Proof.
  unfold Rltb. destruct (Rlt_dec x y); split; intros; try discriminate; try lra; auto.
Qed.

Lemma Rleb_true (x y : R) : Rleb x y = true <-> x <= y.
Proof. unfold Rleb. destruct (Rle_dec x y); split; intros; try discriminate; tauto. Qed.

Lemma Rleb_false (x y : R) : Rleb x y = false <-> y < x.
Proof.
  unfold Rleb. destruct (Rle_dec x y); split; intros; try discriminate; try lra; auto.
Qed.

Lemma Rltb_lt (x y : R) : x < y -> Rltb x y = true.
Proof. apply Rltb_true. Qed.

Lemma Rltb_ge (x y : R) : y <= x -> Rltb x y = false.
Proof. apply Rltb_false. Qed.

Lemma Rleb_le (x y : R) : x <= y -> Rleb x y = true.
Proof. apply Rleb_true. Qed.

Lemma Rleb_gt (x y : R) : y < x -> Rleb x y = false.
Proof. apply Rleb_false. Qed.

Lemma Reqb_eq (x y : R) : x = y -> Reqb x y = true.
Proof.
  intros H. unfold Reqb. destruct (Req_dec_T x y); [reflexivity | contradiction].
Qed.

Lemma Reqb_neq (x y : R) : x <> y -> Reqb x y = false.
Proof.
  intros H. unfold Reqb. destruct (Req_dec_T x y); [contradiction | reflexivity].
Qed.

Lemma Rabs_lt_iff (x e : R) : Rabs x < e <-> - e < x < e.
Proof.
  unfold Rabs. destruct (Rcase_abs x); split; intros; lra.
Qed.

Lemma Rabs_ge_iff (x e : R) : e <= Rabs x <-> (x <= - e \/ e <= x).
Proof.
  unfold Rabs. destruct (Rcase_abs x); split; intros; lra.
Qed.

(** ** The equality pattern *)




(** [categorize_differences] raises nothing but [AssertionError]. *)
Lemma categorize_differences_cases (eps : R) (numbers : vec) :
  categorize_differences eps numbers = Raise AssertionError
  \/ exists r, categorize_differences eps numbers = Return r.
Proof.
  unfold categorize_differences, assert.
  destruct (negb _); simpl; eauto.
Qed.

(** When it returns, the pattern is all-equal, all-different, or one
    distinguished direction in [0 .. 2]. *)
Lemma categorize_differences_returns (eps : R) (numbers : vec) ae ad dir :
  categorize_differences eps numbers = Return (ae, ad, dir) ->
  (ae = true /\ ad = false /\ dir = None
   /\ eq_flags eps numbers = [true; true; true])
  \/ (ae = false /\ ad = true /\ dir = None
      /\ eq_flags eps numbers = [false; false; false])
  \/ (ae = false /\ ad = false
      /\ ((dir = Some 0%Z /\ eq_flags eps numbers = [true; false; false])
          \/ (dir = Some 1%Z /\ eq_flags eps numbers = [false; true; false])
          \/ (dir = Some 2%Z /\ eq_flags eps numbers = [false; false; true]))).
Proof.
  unfold categorize_differences.
  destruct numbers as [[a b] c]. unfold eq_flags.
  destruct (Rltb (Rabs (b - c)) eps), (Rltb (Rabs (c - a)) eps),
    (Rltb (Rabs (a - b)) eps); cbn; intros H; inversion H; subst; clear H;
    try discriminate; tauto.
Qed.

(** ** Construction *)

Section Construction.

Context {ops : CellOps}.

(** C6: for every [k > 0], [BCT(a=2*k, c=k)] resolves the variant named
    "BCT1" and [BCT(a=k, c=2*k)] the variant named "BCT2". *)
Theorem BCT_variant_boundary (k : R) : 0 < k ->
  (new BCT (BCT__init__ (2 * k) k) =
     Return (mkLattice BCT (Some [("a", 2 * k); ("c", k)]) (Some default_eps)
               (Some (mkVariant "BCT1" "GMNPXZZ1" "GXMGZPNZ1M,XP"))))
  /\ (new BCT (BCT__init__ k (2 * k)) =
        Return (mkLattice BCT (Some [("a", k); ("c", 2 * k)]) (Some default_eps)
                  (Some (mkVariant "BCT2" "GNPSS1XYY1Z" "GXYSGZS1NPY1Z,XP")))).
Proof.
  intros Hk. split.
  - unfold new, BCT__init__, BravaisLattice__init__. cbn.
    unfold BCT_variant_name. rewrite Rltb_lt by lra. reflexivity.
  - unfold new, BCT__init__, BravaisLattice__init__. cbn.
    unfold BCT_variant_name. rewrite Rltb_ge by lra. reflexivity.
Qed.

(** C9: for every [a > 0], [BCT(a=a, c=a)] is constructed and resolves
    the variant named "BCT2": the test [c < a] is strict and takes no
    tolerance. *)
Theorem BCT_equal_axes (a : R) : 0 < a ->
  BCT_variant_name a a = Return "BCT2"
  /\ new BCT (BCT__init__ a a) =
       Return (mkLattice BCT (Some [("a", a); ("c", a)]) (Some default_eps)
                 (Some (mkVariant "BCT2" "GNPSS1XYY1Z" "GXYSGZS1NPY1Z,XP"))).
Proof.
  intros Ha.
  assert (E : BCT_variant_name a a = Return "BCT2").
  { unfold BCT_variant_name. rewrite Rltb_ge by lra. reflexivity. }
  split; [exact E|].
  unfold new, BCT__init__, BravaisLattice__init__. cbn.
  unfold BCT_variant_name. rewrite Rltb_ge by lra. reflexivity.
Qed.

(** C10: [RHL(a, alpha)] with [alpha >= 120] raises before anything is
    stored on the instance, and what it raises is [ValueError] itself,
    which an [except UnconventionalLattice] does not catch; with
    [alpha < 120] the call goes on to [BravaisLattice.__init__], which
    stores the parameters and resolves the variant. *)
Theorem RHL_alpha_range (a alpha : R) :
  (120 <= alpha ->
     RHL__init__ a alpha (blank RHL) = (Raise ValueError, blank RHL)
     /\ new RHL (RHL__init__ a alpha) = Raise ValueError
     /\ isinstance ValueError UnconventionalLattice = false)
  /\ (alpha < 120 ->
        RHL__init__ a alpha (blank RHL) =
          BravaisLattice__init__ [("a", a); ("alpha", alpha)] (blank RHL)
        /\ new RHL (RHL__init__ a alpha) =
             Return (mkLattice RHL (Some [("a", a); ("alpha", alpha)])
                       (Some default_eps)
                       (get (variants RHL)
                            (if Rltb alpha 90 then "RHL1" else "RHL2")))).
Proof.
  split.
  - intros H. unfold new, RHL__init__. rewrite Rleb_le by exact H.
    repeat split; reflexivity.
  - intros H. unfold new, RHL__init__. rewrite Rleb_gt by exact H.
    split; [reflexivity|].
    unfold BravaisLattice__init__. cbn. unfold RHL_variant_name.
    destruct (Rltb alpha 90); reflexivity.
Qed.

(** C2 does not hold on the code: [ORC] inherits [_variant_name] from
    [SimpleBravaisLattice], which checks nothing, so [ORC(a=3, b=2, c=1)]
    is constructed; [check_orc] is only called by [ORC._cell], and the
    error is raised when the cell of the lattice is asked for. *)
Theorem ORC_out_of_order_constructs :
  new ORC (Orthorhombic__init__ 3 2 1) =
    Return (mkLattice ORC (Some [("a", 3); ("b", 2); ("c", 1)]) (Some default_eps)
              (Some (mkVariant "ORC" "GRSTUXYZ" "GXSYGZURTZ,YT,UX,SR")))
  /\ tocell (mkLattice ORC (Some [("a", 3); ("b", 2); ("c", 1)]) (Some default_eps)
               (Some (mkVariant "ORC" "GRSTUXYZ" "GXSYGZURTZ,YT,UX,SR"))) 0
     = Raise UnconventionalLattice
  /\ new ORCF (Orthorhombic__init__ 3 2 1) = Raise UnconventionalLattice
  /\ new ORCI (Orthorhombic__init__ 3 2 1) = Raise UnconventionalLattice
  /\ new ORCC (Orthorhombic__init__ 3 2 1) = Raise UnconventionalLattice.
Proof.
  assert (F : Rltb 3 2 = false) by (apply Rltb_ge; lra).
  split; [|split; [|split; [|split]]].
  - reflexivity.
  - unfold tocell. cbn. unfold ORC_cell, check_orc. rewrite F. reflexivity.
  - unfold new, Orthorhombic__init__, BravaisLattice__init__, get_variant,
      _variant_name. cbn.
    unfold ORCF_variant_name, check_orc. rewrite F. reflexivity.
  - unfold new, Orthorhombic__init__, BravaisLattice__init__, get_variant,
      _variant_name. cbn.
    unfold ORCI_variant_name, check_orc. rewrite F. reflexivity.
  - unfold new, Orthorhombic__init__, BravaisLattice__init__, get_variant,
      _variant_name. cbn.
    unfold ORCC_variant_name. rewrite F. reflexivity.
Qed.

End Construction.

Lemma BCT_variant_boundary_witness :
  (new BCT (BCT__init__ (ops := reference_ops) (2 * 1) 1) =
     Return (mkLattice BCT (Some [("a", 2 * 1); ("c", 1)]) (Some default_eps)
               (Some (mkVariant "BCT1" "GMNPXZZ1" "GXMGZPNZ1M,XP"))))
  /\ (new BCT (BCT__init__ (ops := reference_ops) 1 (2 * 1)) =
        Return (mkLattice BCT (Some [("a", 1); ("c", 2 * 1)]) (Some default_eps)
                  (Some (mkVariant "BCT2" "GNPSS1XYY1Z" "GXYSGZS1NPY1Z,XP")))).
Proof.
  apply (BCT_variant_boundary (ops := reference_ops) 1). lra.
Defined.

Lemma BCT_equal_axes_witness :
  BCT_variant_name 5 5 = Return "BCT2"
  /\ new BCT (BCT__init__ (ops := reference_ops) 5 5) =
       Return (mkLattice BCT (Some [("a", 5); ("c", 5)]) (Some default_eps)
                 (Some (mkVariant "BCT2" "GNPSS1XYY1Z" "GXYSGZS1NPY1Z,XP"))).
Proof.
  apply (BCT_equal_axes (ops := reference_ops) 5). lra.
Defined.

Lemma RHL_alpha_range_witness :
  new RHL (RHL__init__ (ops := reference_ops) 3 120) = Raise ValueError
  /\ new RHL (RHL__init__ (ops := reference_ops) 3 55) =
       Return (mkLattice RHL (Some [("a", 3); ("alpha", 55)]) (Some default_eps)
                 (get (variants RHL) (if Rltb 55 90 then "RHL1" else "RHL2"))).
Proof.
  split.
  - apply (proj1 (RHL_alpha_range (ops := reference_ops) 3 120)). lra.
  - apply (proj2 (RHL_alpha_range (ops := reference_ops) 3 55)). lra.
Defined.

(** ** Special points and labels *)

Lemma Variant_eqb_eq (v w : Variant) : Variant_eqb v w = true -> v = w.
Proof.
  destruct v as [n1 s1 p1], w as [n2 s2 p2]. unfold Variant_eqb. cbn.
  intros H. apply andb_prop in H as [H H3]. apply andb_prop in H as [H1 H2].
  apply String.eqb_eq in H1, H2, H3. now subst.
Qed.

Lemma mem_keys_get {V : Type} (d : dict V) (k : string) :
  mem k (keys d) = true -> exists v, get d k = Some v.
Proof.
  induction d as [|[k' v'] d IH]; cbn; [discriminate|].
  destruct (String.eqb k k'); [eauto|]. cbn. exact IH.
Qed.

Lemma kw_present (p : dict R) (l : list string) (k : string) :
  set_eqb (keys p) l = true -> mem k l = true -> exists v, kw p k = Return v.
Proof.
  unfold set_eqb. intros H Hk. apply andb_prop in H as [_ H].
  rewrite forallb_forall in H.
  unfold mem in Hk. apply existsb_exists in Hk as [k' [Hin E]].
  apply String.eqb_eq in E. subst k'.
  destruct (mem_keys_get p k (H k Hin)) as [v Hv].
  exists v. unfold kw. now rewrite Hv.
Qed.

Lemma combine_fst {A B : Type} (l : list A) (l' : list B) :
  List.length l = List.length l' -> List.map fst (List.combine l l') = l.
Proof.
  revert l'. induction l as [|x l IH]; intros [|y l'] H; cbn in *;
    try discriminate; [reflexivity|]. f_equal. apply IH. now inversion H.
Qed.

Lemma combine_snd {A B : Type} (l : list A) (l' : list B) :
  List.length l = List.length l' -> List.map snd (List.combine l l') = l'.
Proof.
  revert l'. induction l as [|x l IH]; intros [|y l'] H; cbn in *;
    try discriminate; [reflexivity|]. f_equal. apply IH. now inversion H.
Qed.

(** A division of Python floats raises exactly when the divisor is zero. *)
Lemma truediv_cases (x y : R) :
  (y = 0 /\ truediv x y = Raise ZeroDivisionError)
  \/ (y <> 0 /\ truediv x y = Return (x / y)).
Proof.
  unfold truediv, Reqb. destruct (Req_dec_T y 0); [left | right]; split; auto.
Qed.

Lemma truediv_nonzero (x y : R) : y <> 0 -> truediv x y = Return (x / y).
Proof.
  intros H. destruct (truediv_cases x y) as [[E _]|[_ E]]; [contradiction | exact E].
Qed.

(** Setting a key that is not yet there appends it. *)
Lemma set_item_fresh {V : Type} (d : dict V) (k : string) (v : V) :
  ~ In k (keys d) -> set_item d k v = (d ++ [(k, v)])%list.
Proof.
  induction d as [|[k' v'] d IH]; cbn; intros H; [reflexivity|].
  destruct (String.eqb k k') eqn:E.
  - apply String.eqb_eq in E. subst. exfalso. apply H. now left.
  - f_equal. apply IH. intros Hin. apply H. now right.
Qed.

Lemma fold_set_item_distinct {V : Type} (pairs acc : dict V) :
  NoDup (keys acc ++ keys pairs)%list ->
  List.fold_left (fun d kv => set_item d (fst kv) (snd kv)) pairs acc = (acc ++ pairs)%list.
Proof.
  revert acc. induction pairs as [|[k v] pairs IH]; intros acc H; cbn.
  - now rewrite app_nil_r.
  - rewrite set_item_fresh.
    + rewrite IH.
      * now rewrite <- app_assoc.
      * unfold keys in *. rewrite map_app. cbn. rewrite <- app_assoc. exact H.
    + cbn in H. apply NoDup_remove_2 in H. intros Hin. apply H.
      apply in_or_app. now left.
Qed.

(** With distinct keys [dict(pairs)] keeps every pair, in its place. *)
Lemma dict_of_distinct {V : Type} (pairs : dict V) :
  NoDup (keys pairs) -> dict_of pairs = pairs.
Proof.
  intros H. unfold dict_of. now rewrite fold_set_item_distinct.
Qed.

Lemma get_combine {V : Type} (labels : list string) (points : list V) (i : nat)
  (label : string) :
  NoDup labels -> List.length labels = List.length points ->
  nth_error labels i = Some label ->
  exists point,
    nth_error points i = Some point
    /\ get (List.combine labels points) label = Some point.
Proof.
  revert points i. induction labels as [|l labels IH]; intros [|pt points] i Hnd Hlen Hi;
    try discriminate; [destruct i; discriminate|].
  inversion Hnd as [|? ? Hnotin Hnd']; subst.
  destruct i as [|i]; cbn in Hi |- *.
  - inversion Hi; subst. rewrite String.eqb_refl. eauto.
  - destruct (IH points i Hnd' ltac:(cbn in Hlen; lia) Hi) as [point [H1 H2]].
    exists point. split; [exact H1|].
    destruct (String.eqb label l) eqn:E; [|exact H2].
    apply String.eqb_eq in E. subst. exfalso. apply Hnotin.
    eapply nth_error_In. exact Hi.
Qed.

(** The dictionary that [zip] and [dict] make of distinct labels and as
    many points maps the label at each position to the point at that
    position. *)
Lemma paired_by_position (labels : list string) (points : list vec) :
  NoDup labels -> List.length labels = List.length points ->
  paired labels points.
Proof.
  intros Hnd Hlen i label Hi.
  rewrite dict_of_distinct.
  - now apply get_combine.
  - unfold keys. rewrite combine_fst by exact Hlen. exact Hnd.
Qed.

Lemma distinct_labels (l : list string) : nodup string_dec l = l -> NoDup l.
Proof. intros H. rewrite <- H. apply NoDup_nodup. Qed.

Lemma square_zero (x : R) : x * x = 0 -> x = 0.
Proof. intros H. nra. Qed.

Lemma pow2_zero (x : R) : x ^ 2 = 0 -> x = 0.
Proof. intros H. nra. Qed.

Lemma four_squares_zero (x : R) : 4 * (x * x) = 0 -> x = 0.
Proof. intros H. nra. Qed.

Lemma kw_get (p : dict R) (k : string) (x : R) : kw p k = Return x -> get p k = Some x.
Proof. unfold kw. destruct (get p k); intros H; inversion H; reflexivity. Qed.

(** The keyword arguments of the class are bound: one equation for each
    parameter name, from the hypothesis on the keys of the dictionary. *)
Ltac bound_kw p H :=
  try (let x := fresh "a" in
       destruct (kw_present p _ "a" H eq_refl) as [x ?]);
  try (let x := fresh "b" in
       destruct (kw_present p _ "b" H eq_refl) as [x ?]);
  try (let x := fresh "c" in
       destruct (kw_present p _ "c" H eq_refl) as [x ?]);
  try (let x := fresh "alpha" in
       destruct (kw_present p _ "alpha" H eq_refl) as [x ?]);
  try (let x := fresh "beta" in
       destruct (kw_present p _ "beta" H eq_refl) as [x ?]);
  try (let x := fresh "gamma" in
       destruct (kw_present p _ "gamma" H eq_refl) as [x ?]).

Ltac rewrite_kw :=
  repeat match goal with
  | E : kw _ _ = Return _ |- _ => rewrite E
  end.

(** One division of the formula: it raises, or it has its value. *)
Ltac divide :=
  match goal with
  | |- context [truediv ?x ?y] =>
      let E := fresh "E" in
      let H := fresh "H" in
      destruct (truediv_cases x y) as [[E H]|[E H]]; rewrite H; cbn [bind]
  end.

(** The parts of a goal that are closed terms of strings and numbers. *)
Ltac closed_parts :=
  repeat match goal with
  | |- context [kpoint_labels ?s] =>
      let r := eval vm_compute in (kpoint_labels s) in
      change (kpoint_labels s) with r
  | |- context [int_of_last ?s] =>
      let r := eval vm_compute in (int_of_last s) in
      change (int_of_last s) with r
  | |- context [mem ?k ?l] =>
      let r := eval vm_compute in (mem k l) in
      change (mem k l) with r
  end.

(** The parameter that is zero when a divisor is. *)
Ltac zero_parameter :=
  match goal with
  | E : ?x * ?x = 0 |- _ => apply square_zero in E
  | E : ?x ^ 2 = 0 |- _ => apply pow2_zero in E
  | E : 4 * (?x * ?x) = 0 |- _ => apply four_squares_zero in E
  end; subst;
  first [ exists "a"; assumption | exists "b"; assumption | exists "c"; assumption ].

Section SpecialPointFacts.

Variable ibz_points : string -> string -> vec.

Lemma by_result {A : Type} (X r : result A) (P : A -> Prop) (Q : exn -> Prop) :
  X = r ->
  match r with Return x => P x | Raise e => Q e end ->
  match X with Return x => P x | Raise e => Q e end.
Proof. intros E H. rewrite E. exact H. Qed.

(** C7: for a lattice of any family with any of the family's variants
    the labels are distinct and, whenever the special-points formula
    returns, it returns as many points as the variant has labels: the
    assertion of [get_special_points_array] holds.  Labels and points
    are paired by position, the label at each position with the point
    at that position, and no label is lost.  Where the points are the
    dictionary that the decorator fixed, its keys are the labels in
    their order and each point is the one the table has under the name
    of its label; where they are the list of a formula, every label
    is paired with the row that [labelled] has under that label, so
    the rows come in the order of the labels.  The formula returns
    when no parameter is zero; it raises nothing but
    [ZeroDivisionError], and that only when a parameter is zero. *)
Theorem special_points_match_labels (self : BravaisLattice) :
  initialised self = true ->
  exists labels parameters variant,
    kpoint_labels self = Return labels
    /\ _parameters self = Some parameters
    /\ _variant self = Some variant
    /\ NoDup labels
    /\ match get_special_points_array ibz_points self with
       | Return points =>
           len points = List.length labels
           /\ paired labels (coordinates points)
           /\ match points with
              | PointDict d =>
                  keys d = labels
                  /\ exists info,
                       pointinfo ibz_points (cls self) = Some info
                       /\ from_table info d
              | PointList l =>
                  labelled (cls self) (name variant) (List.combine labels l)
              end
       | Raise e =>
           e = ZeroDivisionError /\ exists k, kw parameters k = Return 0
       end
    /\ ((forall k x, kw parameters k = Return x -> x <> 0) ->
        exists points, get_special_points_array ibz_points self = Return points).
Proof.
  destruct self as [f [p|] [e|] [v|]]; cbn [initialised _parameters _eps _variant cls];
    try discriminate.
  intros H. apply andb_prop in H as [Hk Hv].
  apply existsb_exists in Hv as [w [Hin Hw]].
  apply Variant_eqb_eq in Hw. subst w.
  destruct f; cbn in Hin;
    repeat (destruct Hin as [Hin|Hin]; [subst v|]); try contradiction;
    bound_kw p Hk;
    (eexists; exists p; eexists;
     split; [reflexivity|]; split; [reflexivity|]; split; [reflexivity|]).
  all: match goal with
       | |- NoDup ?l /\ _ =>
           assert (Hnd : NoDup l) by (apply distinct_labels; vm_compute; reflexivity);
           split; [exact Hnd|]
       end.
  all: match goal with
       | |- ?M /\ _ =>
           cut M;
           [ intros HM; split; [exact HM|];
             intros Hnz;
             destruct (get_special_points_array ibz_points _) as [pts|e0];
             [ exists pts; reflexivity
             | destruct HM as [_ [k Hk0]]; exfalso; exact (Hnz k 0 Hk0 eq_refl) ]
           | ]
       end.
  all: unfold get_special_points_array, _special_points;
       cbn [cls _parameters _variant attr bind]; rewrite_kw; cbn [bind].
  all: unfold BCT_special_points, ORCF_special_points, ORCI_special_points,
         ORCC_special_points, RHL_special_points, MCL_special_points,
         MCLC_special_points, TRI_special_points,
         SimpleBravaisLattice_special_points, class_special_points.
  all: closed_parts.
  all: cbn [name String.eqb Ascii.eqb Bool.eqb orb bind assert Nat.eqb
              variant_list pointinfo special_point_names chars List.map
              sequence lookup get hex_pointinfo combine].
  all: repeat divide.
  all: try (split; [reflexivity | zero_parameter]).
  all: cbn [len List.length Nat.eqb assert bind dict_of fold_left set_item fst snd
                 String.eqb Ascii.eqb Bool.eqb].
  all: (split; [reflexivity|]).
  all: (split; [apply paired_by_position; [exact Hnd | reflexivity]|]).
  all: try (unfold labelled;
            cbn [name String.eqb Ascii.eqb Bool.eqb orb List.combine];
            repeat match goal with |- exists _, _ => eexists end;
            reflexivity).
  all: (split; [reflexivity|]; eexists; split; [reflexivity|];
             intros label point Hin; cbn [In] in Hin;
             repeat (destruct Hin as [Hin|Hin]; [inversion Hin; subst; reflexivity|]);
             contradiction).
Qed.
End SpecialPointFacts.

Lemma special_points_match_labels_witness :
  exists labels parameters variant,
    kpoint_labels
      (mkLattice BCT (Some [("a", 2); ("c", 1)]) (Some default_eps)
         (Some (mkVariant "BCT1" "GMNPXZZ1" "GXMGZPNZ1M,XP"))) = Return labels
    /\ Some [("a", 2); ("c", 1)] = Some parameters
    /\ Some (mkVariant "BCT1" "GMNPXZZ1" "GXMGZPNZ1M,XP") = Some variant
    /\ NoDup labels
    /\ match get_special_points_array (fun _ _ => (0, 0, 0))
               (mkLattice BCT (Some [("a", 2); ("c", 1)]) (Some default_eps)
                  (Some (mkVariant "BCT1" "GMNPXZZ1" "GXMGZPNZ1M,XP")))
       with
       | Return points =>
           len points = List.length labels
           /\ paired labels (coordinates points)
           /\ match points with
              | PointDict d =>
                  keys d = labels
                  /\ exists info,
                       pointinfo (fun _ _ => (0, 0, 0)) BCT = Some info
                       /\ from_table info d
              | PointList l =>
                  labelled BCT (name variant) (List.combine labels l)
              end
       | Raise e =>
           e = ZeroDivisionError /\ exists k, kw parameters k = Return 0
       end
    /\ ((forall k x, kw parameters k = Return x -> x <> 0) ->
        exists points,
          get_special_points_array (fun _ _ => (0, 0, 0))
            (mkLattice BCT (Some [("a", 2); ("c", 1)]) (Some default_eps)
               (Some (mkVariant "BCT1" "GMNPXZZ1" "GXMGZPNZ1M,XP")))
          = Return points).
Proof.
  exact (special_points_match_labels (fun _ _ => (0, 0, 0))
           (mkLattice BCT (Some [("a", 2); ("c", 1)]) (Some default_eps)
              (Some (mkVariant "BCT1" "GMNPXZZ1" "GXMGZPNZ1M,XP")))
           eq_refl).
Defined.

(** ** What a constructor returns *)

Section ConstructorFacts.

Context {ops : CellOps}.

Lemma lookup_variants (f : Family) (n : string) (v : Variant) :
  lookup (variants f) n = Return v ->
  List.existsb (Variant_eqb v) (variant_list f) = true.
Proof.
  unfold lookup.
  destruct f; cbn;
    repeat match goal with
    | |- context [String.eqb n ?s] => destruct (String.eqb n s)
    end;
    intros H; inversion H; reflexivity.
Qed.

(** [BravaisLattice.__init__] keeps the class of its instance and, when
    it returns, leaves it initialised. *)
Lemma BravaisLattice__init___spec (kwargs : dict R) (self self' : BravaisLattice)
  (r : result unit) :
  BravaisLattice__init__ kwargs self = (r, self') ->
  cls self' = cls self
  /\ (forall u, r = Return u -> initialised self' = true).
Proof.
  unfold BravaisLattice__init__.
  destruct (set_eqb _ _) eqn:Hk; cbn [negb].
  - destruct (get_variant _) as [v|e] eqn:Hv; intros H; inversion H; subst; clear H.
    + split; [reflexivity|]. intros _ _. unfold initialised. cbn.
      rewrite Hk. cbn.
      unfold get_variant in Hv.
      destruct (_variant_name _) as [n|]; cbn in Hv; [|discriminate].
      exact (lookup_variants _ _ _ Hv).
    + split; [reflexivity|]. intros u Hu. discriminate.
  - intros H; inversion H; subst. split; [reflexivity|]. intros u Hu. discriminate.
Qed.

Lemma new_spec (f : Family) (init : method unit) (lat : BravaisLattice) :
  (forall self self' r, init self = (r, self') ->
     cls self' = cls self /\ (forall u, r = Return u -> initialised self' = true)) ->
  new f init = Return lat ->
  cls lat = f /\ initialised lat = true.
Proof.
  intros Hinit. unfold new.
  destruct (init (blank f)) as [[u|e] self'] eqn:E; intros H; inversion H; subst.
  destruct (Hinit _ _ _ E) as [Hc Hi]. split; [exact Hc | exact (Hi u eq_refl)].
Qed.

Lemma RHL__init___spec (a alpha : R) (self self' : BravaisLattice) (r : result unit) :
  RHL__init__ a alpha self = (r, self') ->
  cls self' = cls self
  /\ (forall u, r = Return u -> initialised self' = true).
Proof.
  unfold RHL__init__. destruct (Rleb 120 alpha).
  - intros H; inversion H; subst. split; [reflexivity|]. intros u Hu. discriminate.
  - apply BravaisLattice__init___spec.
Qed.

(** A class called with positional arguments returns an initialised
    instance of that class. *)
Lemma call_spec (f : Family) (args : list R) (lat : BravaisLattice) :
  call f args = Return lat -> cls lat = f /\ initialised lat = true.
Proof.
  unfold call.
  destruct f; destruct args as [|x1 [|x2 [|x3 [|x4 [|x5 [|x6 [|x7 args]]]]]]];
    try discriminate;
    apply new_spec; intros self self' r;
    first [apply BravaisLattice__init___spec | apply RHL__init___spec].
Qed.

End ConstructorFacts.

(** ** The classifier never returns a triclinic lattice *)

Section NeverTriclinic.

Context {ops : CellOps}.

Lemma returns_in_seq (fs : list Family) (s1 s2 : flow answer) :
  returns_in fs s1 -> returns_in fs s2 -> returns_in fs (s1 >> s2).
Proof. destruct s1; cbn; auto. Qed.

Lemma returns_in_weaken (fs gs : list Family) (s : flow answer) :
  (forall f, List.existsb (Family_eqb f) fs = true ->
             List.existsb (Family_eqb f) gs = true) ->
  returns_in fs s -> returns_in gs s.
Proof. destruct s as [|[lat m]|]; cbn; auto. Qed.

Lemma returns_in_call (f : Family) (args : list R) :
  returns_in [f] (lat <~ call f args ;; Ret (lat, [])).
Proof.
  unfold try. destruct (call f args) as [lat|e] eqn:E; cbn; [|exact I].
  apply call_spec in E as [E _]. rewrite E. destruct f; reflexivity.
Qed.

Lemma returns_in_try {A : Type} (fs : list Family) (m : result A)
  (k : A -> flow answer) :
  (forall a, returns_in fs (k a)) -> returns_in fs (a <~ m ;; k a).
Proof. intros H. unfold try. destruct m; cbn; auto. Qed.

Ltac stage :=
  repeat first
    [ exact I
    | apply returns_in_call
    | apply returns_in_seq
    | apply returns_in_try; intros
    | match goal with
      | |- returns_in _ (if ?b then _ else _) => destruct b
      | |- returns_in _ (match ?o with Some _ => _ | None => _ end) => destruct o
      | |- returns_in _ (let '(_, _) := ?x in _) => destruct x
      end ].

Lemma test_cubic_returns eps ABC angles ale :
  returns_in [CUB; FCC; BCC] (test_cubic eps ABC angles ale).
Proof.
  unfold test_cubic. destruct ale; [|exact I].
  repeat apply returns_in_seq;
    match goal with |- returns_in _ (if ?b then _ else _) => destruct b end;
    try exact I;
    (eapply returns_in_weaken; [|apply returns_in_call]);
    intros f; destruct f; cbn; auto.
Qed.

Lemma test_BCT_returns cellpar BC ale uad :
  returns_in [BCT] (test_BCT cellpar BC ale uad).
Proof. unfold test_BCT. destruct ale, uad; stage. Qed.

Lemma test_HEX_returns eps ABC angles BC uad usd :
  returns_in [HEX] (test_HEX eps ABC angles BC uad usd).
Proof. unfold test_HEX. stage. Qed.

Lemma test_TET_returns eps cellpar uld :
  returns_in [TET] (test_TET eps cellpar uld).
Proof. unfold test_TET. stage. Qed.

Lemma test_ORCC_returns eps ABC BC uld :
  returns_in [ORCC] (test_ORCC eps ABC BC uld).
Proof.
  unfold test_ORCC. destruct uld; [|exact I].
  destruct (_ && _); [|exact I].
  destruct (Rltb _ _); apply returns_in_call.
Qed.

Lemma test_ORC_returns eps ABC angles ald :
  returns_in [ORC] (test_ORC eps ABC angles ald).
Proof. unfold test_ORC. stage. Qed.

Lemma test_ORCF_returns eps uc BC ald :
  returns_in [ORCF] (test_ORCF eps uc BC ald).
Proof.
  unfold test_ORCF. destruct (_ && _); [|exact I].
  unfold try at 1. destruct (call ORCF _) as [lat|e] eqn:E; [|exact I].
  apply call_spec in E as [E _].
  stage. cbn. now rewrite E.
Qed.

Lemma test_ORCI_returns eps uc BC ale :
  returns_in [ORCI] (test_ORCI eps uc BC ale).
Proof.
  unfold test_ORCI. destruct ale; [|exact I].
  destruct (_ && _); [|exact I].
  unfold try at 1. destruct (call ORCI _) as [lat|e] eqn:E; [|exact I].
  apply call_spec in E as [E _].
  stage. cbn. now rewrite E.
Qed.

Lemma test_RHL_returns ABC BC ale :
  returns_in [RHL] (test_RHL ABC BC ale).
Proof. unfold test_RHL. stage. Qed.

Lemma test_MCL_returns eps ABC angles usd :
  returns_in [MCL] (test_MCL eps ABC angles usd).
Proof.
  unfold test_MCL. destruct usd; [|exact I].
  destruct (allclose _ _ _); [|exact I].
  apply returns_in_try; intros _.
  destruct (Rltb _ _); stage.
Qed.

Lemma test_MCLC_returns ABC BC uld :
  returns_in [MCLC] (test_MCLC ABC BC uld).
Proof. unfold test_MCLC. stage. Qed.

(** The triclinic test returns nothing: it raises or falls through. *)
Lemma test_TRI_returns cellpar :
  test_TRI cellpar = Next \/ exists e, test_TRI cellpar = Exc e.
Proof.
  unfold test_TRI, try. destruct (check _ _ _ _) as [[obj|]|e]; eauto.
Qed.

Lemma get_bravais_lattice_returns (uc : matrix) (eps : R) (reduce : bool) :
  match get_bravais_lattice uc eps reduce with
  | Return (lat, _) => List.existsb (Family_eqb (cls lat)) classified = true
  | Raise _ => True
  end.
Proof.
  unfold get_bravais_lattice.
  destruct (categorize_differences eps (fst _)) as [[[ale ald] uld]|]; cbn [bind];
    [|exact I].
  destruct (categorize_differences eps (snd _)) as [[[aae aad] uad]|]; cbn [bind];
    [|exact I].
  destruct (categorize_differences eps (_, _, _)) as [[[x y] usd]|]; cbn [bind];
    [|exact I].
  match goal with |- match run ?s with _ => _ end =>
    assert (H : returns_in classified s);
    [|destruct s as [|[lat meta]|]; cbn in *; tauto]
  end.
  repeat (apply returns_in_seq;
          [eapply returns_in_weaken;
           [|first [apply test_cubic_returns | apply test_BCT_returns
                   | apply test_HEX_returns | apply test_TET_returns
                   | apply test_ORCC_returns | apply test_ORC_returns
                   | apply test_ORCF_returns | apply test_ORCI_returns
                   | apply test_RHL_returns | apply test_MCL_returns
                   | apply test_MCLC_returns]];
           intros f; destruct f; cbn; auto|]).
  apply returns_in_seq; [|exact I].
  destruct (test_TRI_returns (Cell_cellpar (if reduce then fst (niggli_reduce uc) else uc)))
    as [E|[e E]]; rewrite E; exact I.
Qed.

(** Whatever the cell, the tolerance and the reduction flag, the
    classifier does not return a [TRI] lattice: when the triclinic test
    matches, the statement before [return obj] raises [NameError]; when
    it does not match, the generic error is raised; an exception of the
    test other than [UnconventionalLattice] goes through. *)
Lemma TRI_not_returned (uc : matrix) (eps : R) (reduce : bool) :
  returns_family TRI (get_bravais_lattice uc eps reduce) = false
  /\ run (test_TRI (Cell_cellpar uc) >> Exc RuntimeError) =
       match check (Cell_cellpar uc) TRI (cellpar_list (Cell_cellpar uc)) 0 with
       | Return (Some _) => Raise NameError
       | Return None => Raise RuntimeError
       | Raise e => Raise e
       end.
Proof.
  split.
  - pose proof (get_bravais_lattice_returns uc eps reduce) as H.
    unfold returns_family.
    destruct (get_bravais_lattice uc eps reduce) as [[lat meta]|]; [|reflexivity].
    destruct (cls lat); cbn in *; congruence.
  - unfold test_TRI, try.
    destruct (check _ _ _ _) as [[obj|]|e]; reflexivity.
Qed.

End NeverTriclinic.

(** ** The cubic test and the assertions before it *)

Lemma categorize_two_pairs (eps a b c : R) :
  Rabs (b - c) < eps -> eps <= Rabs (c - a) -> Rabs (a - b) < eps ->
  categorize_differences eps (a, b, c) = Raise AssertionError.
Proof.
  intros H1 H2 H3. unfold categorize_differences, eq_flags.
  rewrite (Rltb_lt _ _ H1), (Rltb_ge _ _ H2), (Rltb_lt _ _ H3). reflexivity.
Qed.

Lemma categorize_all_equal (eps a b c : R) :
  Rabs (b - c) < eps -> Rabs (c - a) < eps -> Rabs (a - b) < eps ->
  categorize_differences eps (a, b, c) = Return (true, false, None).
Proof.
  intros H1 H2 H3. unfold categorize_differences, eq_flags.
  rewrite (Rltb_lt _ _ H1), (Rltb_lt _ _ H2), (Rltb_lt _ _ H3). reflexivity.
Qed.

Lemma categorize_all_different (eps a b c : R) :
  eps <= Rabs (b - c) -> eps <= Rabs (c - a) -> eps <= Rabs (a - b) ->
  categorize_differences eps (a, b, c) = Return (false, true, None).
Proof.
  intros H1 H2 H3. unfold categorize_differences, eq_flags.
  rewrite (Rltb_ge _ _ H1), (Rltb_ge _ _ H2), (Rltb_ge _ _ H3). reflexivity.
Qed.

Lemma categorize_third (eps a b c : R) :
  eps <= Rabs (b - c) -> eps <= Rabs (c - a) -> Rabs (a - b) < eps ->
  categorize_differences eps (a, b, c) = Return (false, false, Some 2%Z).
Proof.
  intros H1 H2 H3. unfold categorize_differences, eq_flags.
  rewrite (Rltb_ge _ _ H1), (Rltb_ge _ _ H2), (Rltb_lt _ _ H3). reflexivity.
Qed.

Lemma categorize_second (eps a b c : R) :
  eps <= Rabs (b - c) -> Rabs (c - a) < eps -> eps <= Rabs (a - b) ->
  categorize_differences eps (a, b, c) = Return (false, false, Some 1%Z).
Proof.
  intros H1 H2 H3. unfold categorize_differences, eq_flags.
  rewrite (Rltb_ge _ _ H1), (Rltb_lt _ _ H2), (Rltb_ge _ _ H3). reflexivity.
Qed.

Lemma categorize_first (eps a b c : R) :
  Rabs (b - c) < eps -> eps <= Rabs (c - a) -> eps <= Rabs (a - b) ->
  categorize_differences eps (a, b, c) = Return (false, false, Some 0%Z).
Proof.
  intros H1 H2 H3. unfold categorize_differences, eq_flags.
  rewrite (Rltb_lt _ _ H1), (Rltb_ge _ _ H2), (Rltb_ge _ _ H3). reflexivity.
Qed.

Lemma CUB_constructs {ops : CellOps} (a : R) :
  call CUB [a] =
    Return (mkLattice CUB (Some [("a", a)]) (Some default_eps)
              (Some (mkVariant "CUB" "GXRM" "GXMGRX,MR"))).
Proof. reflexivity. Qed.

Section CubicPriority.

Context {ops : CellOps}.

(** The cubic test is the first of the cascade: when the three patterns
    have been computed, the lengths are all equal and the angles are all
    close to 90 degrees, the classifier returns [CUB(A)]. *)
Lemma cubic_first (uc : matrix) (eps : R) (reduce : bool) ald uld r2 r3 :
  let uc' := if reduce then fst (niggli_reduce uc) else uc in
  let ABC := fst (Cell_cellpar uc') in
  let angles := snd (Cell_cellpar uc') in
  categorize_differences eps ABC = Return (true, ald, uld) ->
  categorize_differences eps angles = Return r2 ->
  categorize_differences eps
    (vdot (item uc' 1) (item uc' 2), vdot (item uc' 2) (item uc' 0),
     vdot (item uc' 0) (item uc' 1)) = Return r3 ->
  allclose eps (to_list angles) (broadcast 3 90) = true ->
  get_bravais_lattice uc eps reduce =
    Return (mkLattice CUB (Some [("a", item ABC 0)]) (Some default_eps)
              (Some (mkVariant "CUB" "GXRM" "GXMGRX,MR")), []).
Proof.
  intros uc' ABC angles H1 H2 H3 H4.
  unfold get_bravais_lattice. fold uc'. fold ABC. fold angles.
  rewrite H1. cbn [bind]. rewrite H2. destruct r2 as [[aae aad] uad]. cbn [bind].
  rewrite H3. destruct r3 as [[x y] usd]. cbn [bind].
  unfold test_cubic. rewrite H4. rewrite CUB_constructs. reflexivity.
Qed.

End CubicPriority.

(** ** Cell parameters of orthogonal cells *)

Lemma PI_neq0' : PI <> 0.
Proof. pose proof PI_RGT_0. lra. Qed.

Lemma angle_orthogonal (u v : vec) : vdot u v = 0 -> angle u v = 90.
Proof.
  intros H. unfold angle. rewrite H.
  replace (0 / (norm u * norm v)) with 0 by (unfold Rdiv; ring).
  rewrite acos_0. field. exact PI_neq0'.
Qed.

Lemma sqrt_sq (x : R) : 0 <= x -> sqrt (x * x) = x.
Proof. apply sqrt_square. Qed.

Lemma norm_x (a : R) : 0 <= a -> norm (a, 0, 0) = a.
Proof.
  intros H. unfold norm, vdot.
  replace (a * a + 0 * 0 + 0 * 0) with (a * a) by ring. now apply sqrt_sq.
Qed.

Lemma norm_y (a : R) : 0 <= a -> norm (0, a, 0) = a.
Proof.
  intros H. unfold norm, vdot.
  replace (0 * 0 + a * a + 0 * 0) with (a * a) by ring. now apply sqrt_sq.
Qed.

Lemma norm_z (a : R) : 0 <= a -> norm (0, 0, a) = a.
Proof.
  intros H. unfold norm, vdot.
  replace (0 * 0 + 0 * 0 + a * a) with (a * a) by ring. now apply sqrt_sq.
Qed.

Lemma cellpar_diag (a b c : R) : 0 <= a -> 0 <= b -> 0 <= c ->
  Cell_cellpar (diag (a, b, c)) = ((a, b, c), (90, 90, 90)).
Proof.
  intros Ha Hb Hc. unfold Cell_cellpar, diag.
  rewrite norm_x, norm_y, norm_z by assumption.
  rewrite !angle_orthogonal by (unfold vdot; ring). reflexivity.
Qed.

Lemma scale_eye (a : R) : scale a eye = diag (a, a, a).
Proof.
  unfold scale, eye, diag, map3.
  repeat f_equal; ring.
Qed.

Lemma products_diag (a b c : R) :
  (vdot (item (diag (a, b, c)) 1) (item (diag (a, b, c)) 2),
   vdot (item (diag (a, b, c)) 2) (item (diag (a, b, c)) 0),
   vdot (item (diag (a, b, c)) 0) (item (diag (a, b, c)) 1)) = (0, 0, 0).
Proof.
  cbn [diag item vdot Z.modulo Z.div_eucl Z.pos_div_eucl Z.leb Z.ltb
       Z.compare Pos.compare Pos.compare_cont Z.sub Z.add Z.opp Z.mul
       Z.pos_sub Pos.mul Pos.add Z.succ_double Z.pred_double Z.double
       Pos.succ Pos.pred_double fst snd].
  repeat f_equal; ring.
Qed.

Lemma isclose_refl (rtol atol x : R) : 0 <= rtol -> 0 <= atol ->
  isclose rtol atol x x = true.
Proof.
  intros H1 H2. unfold isclose. apply Rleb_le.
  replace (x - x) with 0 by ring. rewrite Rabs_R0.
  pose proof (Rabs_pos x). nra.
Qed.

Lemma np_allclose_refl (rtol atol : R) (l : list R) : 0 <= rtol -> 0 <= atol ->
  np_allclose rtol atol l l = true.
Proof.
  intros H1 H2. unfold np_allclose.
  induction l as [|x l IH]; [reflexivity|]. cbn.
  rewrite isclose_refl by assumption. exact IH.
Qed.

Lemma default_rtol_pos : 0 <= default_rtol.
Proof. unfold default_rtol. lra. Qed.

Lemma default_atol_pos : 0 <= default_atol.
Proof. unfold default_atol. lra. Qed.

Lemma allclose_right_angles (eps : R) : 0 <= eps ->
  allclose eps [90; 90; 90] (broadcast 3 90) = true.
Proof.
  intros H. apply np_allclose_refl; [apply default_rtol_pos | exact H].
Qed.

Lemma Rabs_0_lt (eps x : R) : 0 < eps -> Rabs (x - x) < eps.
Proof. intros H. replace (x - x) with 0 by ring. now rewrite Rabs_R0. Qed.

Lemma argsort_sorted (a b c : R) : a < b -> b < c ->
  argsort (a, b, c) = (0%Z, 1%Z, 2%Z).
Proof.
  intros H1 H2. unfold argsort, sort_keys. cbn [fold_left insert_key fst].
  rewrite (Rltb_ge b a) by lra. cbn [insert_key fst].
  rewrite (Rltb_ge c a) by lra. rewrite (Rltb_ge c b) by lra. reflexivity.
Qed.

(** ** Round trips through the classifier *)

Ltac zcompute :=
  cbn [item take Z.modulo Z.div_eucl Z.pos_div_eucl Z.leb Z.ltb
       Z.compare Pos.compare Pos.compare_cont Z.sub Z.add Z.opp Z.mul
       Z.pos_sub Pos.mul Pos.add Z.succ_double Z.pred_double Z.double
       Pos.succ Pos.pred_double fst snd].

Ltac close_or_apart :=
  first [ assumption
        | rewrite Rabs_minus_sym; assumption
        | apply Rabs_0_lt; assumption ].

(** The classifier reads the lengths, the angles and the scalar
    products of the cell it is given, or of its reduction. *)
Ltac by_metric H :=
  unfold metric in H;
  match type of H with
  | (Cell_cellpar ?cell, _) = _ =>
      let Hpar := fresh "Hpar" in
      let Hprod := fresh "Hprod" in
      let uc := fresh "uc" in
      set (uc := cell) in *;
      pose proof (f_equal fst H) as Hpar;
      pose proof (f_equal snd H) as Hprod;
      cbn [fst snd] in Hpar, Hprod;
      clearbody uc; cbv zeta; rewrite Hpar, Hprod; clear H Hpar Hprod
  end.

Section RoundTrip.

Context {ops : CellOps}.

Lemma TET_constructs (a c : R) :
  call TET [a; c] =
    Return (mkLattice TET (Some [("a", a); ("c", c)]) (Some default_eps)
              (Some (mkVariant "TET" "GAMRXZ" "GXMGZRAZ,XR,MA"))).
Proof. reflexivity. Qed.

Lemma TET_tocell (a c : R) e v :
  tocell (mkLattice TET (Some [("a", a); ("c", c)]) e v) 0 = Return (diag (a, a, c)).
Proof. reflexivity. Qed.

Lemma ORC_constructs (a b c : R) :
  call ORC [a; b; c] =
    Return (mkLattice ORC (Some [("a", a); ("b", b); ("c", c)]) (Some default_eps)
              (Some (mkVariant "ORC" "GRSTUXYZ" "GXSYGZURTZ,YT,UX,SR"))).
Proof. reflexivity. Qed.

Lemma ORC_tocell (a b c : R) e v : a < b -> b < c ->
  tocell (mkLattice ORC (Some [("a", a); ("b", b); ("c", c)]) e v) 0
  = Return (diag (a, b, c)).
Proof.
  intros H1 H2. unfold tocell. cbn [attr _parameters bind cls _cell kw get String.eqb
    Ascii.eqb Bool.eqb].
  unfold ORC_cell, check_orc. rewrite !Rltb_lt by assumption. reflexivity.
Qed.

Lemma CUB_tocell (a : R) e v :
  tocell (mkLattice CUB (Some [("a", a)]) e v) 0 = Return (diag (a, a, a)).
Proof.
  unfold tocell. cbn [attr _parameters bind cls _cell kw get String.eqb
    Ascii.eqb Bool.eqb]. unfold CUB_cell. rewrite scale_eye. reflexivity.
Qed.

Lemma check_TET_diag (a c : R) : 0 <= a -> 0 <= c ->
  check (a, a, c, (90, 90, 90)) TET [a; c] 0 =
    Return (Some (TET, dict_of (List.combine (parameters TET) [a; c]))).
Proof.
  intros Ha Hc. unfold check. rewrite TET_constructs. cbn [bind].
  rewrite TET_tocell. rewrite cellpar_diag by assumption.
  zcompute.
  rewrite np_allclose_refl by (apply default_rtol_pos || apply default_atol_pos).
  reflexivity.
Qed.

(** A diagonal cell whose three lengths agree within [eps] is cubic. *)
Lemma classify_CUB_diag (eps a b c : R) :
  0 < eps -> 0 < a -> 0 < b -> 0 < c ->
  Rabs (b - c) < eps -> Rabs (c - a) < eps -> Rabs (a - b) < eps ->
  forall reduce : bool,
  metric (if reduce then fst (niggli_reduce (diag (a, b, c))) else diag (a, b, c))
  = metric (diag (a, b, c)) ->
  get_bravais_lattice (diag (a, b, c)) eps reduce =
    Return (mkLattice CUB (Some [("a", a)]) (Some default_eps)
              (Some (mkVariant "CUB" "GXRM" "GXMGRX,MR")), []).
Proof.
  intros He Ha Hb Hc H1 H2 H3 reduce Hred.
  unfold get_bravais_lattice. by_metric Hred.
  rewrite products_diag.
  rewrite cellpar_diag by lra. cbn [fst snd].
  rewrite (categorize_all_equal eps a b c) by assumption. cbn [bind].
  rewrite (categorize_all_equal eps 90 90 90) by auto using Rabs_0_lt.
  cbn [bind].
  rewrite (categorize_all_equal eps 0 0 0) by auto using Rabs_0_lt.
  cbn [bind].
  unfold test_cubic. cbn [to_list].
  rewrite allclose_right_angles by lra.
  zcompute. rewrite CUB_constructs. reflexivity.
Qed.

(** A diagonal cell with two equal lengths and a third one at least
    [eps] away is tetragonal. *)
Lemma classify_TET_diag (eps a c : R) :
  0 < eps -> 0 < a -> 0 < c -> eps <= Rabs (a - c) ->
  forall reduce : bool,
  metric (if reduce then fst (niggli_reduce (diag (a, a, c))) else diag (a, a, c))
  = metric (diag (a, a, c)) ->
  get_bravais_lattice (diag (a, a, c)) eps reduce =
    Return (mkLattice TET (Some [("a", a); ("c", c)]) (Some default_eps)
              (Some (mkVariant "TET" "GAMRXZ" "GXMGZRAZ,XR,MA")), []).
Proof.
  intros He Ha Hc Hac reduce Hred.
  unfold get_bravais_lattice. by_metric Hred.
  rewrite products_diag.
  rewrite cellpar_diag by lra. cbn [fst snd].
  rewrite (categorize_third eps a a c) by close_or_apart.
  cbn [bind].
  rewrite (categorize_all_equal eps 90 90 90) by auto using Rabs_0_lt.
  cbn [bind].
  rewrite (categorize_all_equal eps 0 0 0) by auto using Rabs_0_lt.
  cbn [bind].
  unfold test_cubic, test_BCT, test_HEX. cbn [seq].
  unfold test_TET. cbn [fst snd to_list].
  rewrite allclose_right_angles by lra.
  zcompute.
  rewrite check_TET_diag by lra. cbn [try assert].
  rewrite TET_constructs. reflexivity.
Qed.

(** A diagonal cell with increasing lengths at least [eps] apart is
    orthorhombic. *)
Lemma classify_ORC_diag (eps a b c : R) :
  0 < eps -> 0 < a -> a + eps <= b -> b + eps <= c ->
  forall reduce : bool,
  metric (if reduce then fst (niggli_reduce (diag (a, b, c))) else diag (a, b, c))
  = metric (diag (a, b, c)) ->
  get_bravais_lattice (diag (a, b, c)) eps reduce =
    Return (mkLattice ORC (Some [("a", a); ("b", b); ("c", c)]) (Some default_eps)
              (Some (mkVariant "ORC" "GRSTUXYZ" "GXSYGZURTZ,YT,UX,SR")), []).
Proof.
  intros He Ha Hab Hbc reduce Hred.
  unfold get_bravais_lattice. by_metric Hred.
  rewrite products_diag.
  rewrite cellpar_diag by lra. cbn [fst snd].
  rewrite (categorize_all_different eps a b c)
    by (apply Rabs_ge_iff; lra).
  cbn [bind].
  rewrite (categorize_all_equal eps 90 90 90) by auto using Rabs_0_lt.
  cbn [bind].
  rewrite (categorize_all_equal eps 0 0 0) by auto using Rabs_0_lt.
  cbn [bind].
  unfold test_cubic, test_BCT, test_HEX, test_TET, test_ORCC. cbn [seq].
  unfold test_ORC. cbn [to_list].
  rewrite allclose_right_angles by lra. cbn [andb].
  rewrite argsort_sorted by lra.
  zcompute. cbn [to_list]. rewrite ORC_constructs. reflexivity.
Qed.

End RoundTrip.

(** ** Angles *)

Lemma acos_half : acos (1 / 2) = PI / 3.
Proof.
  rewrite <- cos_PI3. apply acos_cos. pose proof PI_RGT_0. lra.
Qed.

Lemma acos_neg_half : acos (- (1 / 2)) = 2 * PI / 3.
Proof. rewrite acos_opp, acos_half. field. Qed.

(** [acos x <= PI/2 - x] on [0, 1]. *)
Lemma acos_le_shift (x : R) : 0 <= x <= 1 -> acos x <= PI / 2 - x.
Proof.
  intros [H0 H1]. pose proof PI2_1 as HP.
  assert (Hs : sin x <= x).
  { destruct (Req_dec x 0) as [->|Hx]; [rewrite sin_0; lra|].
    left. apply sin_lt_x. lra. }
  apply (cos_decr_0 (PI / 2 - x) (acos x)).
  - lra.
  - lra.
  - apply acos_bound.
  - apply acos_bound.
  - rewrite cos_shift, cos_acos by lra. exact Hs.
Qed.

Lemma acos_neg_ge_shift (x : R) : 0 <= x <= 1 -> PI / 2 + x <= acos (- x).
Proof.
  intros H. rewrite acos_opp. pose proof (acos_le_shift x H). lra.
Qed.

Lemma degrees_of_PI (k : R) : k * PI * 180 / PI = k * 180.
Proof. field. exact PI_neq0'. Qed.

Lemma norm_sq (u : vec) : norm u * norm u = vdot u u.
Proof.
  unfold norm. apply sqrt_sqrt. destruct u as [[x y] z]. unfold vdot. nra.
Qed.

Section RoundTripTrigonal.

Context {ops : CellOps}.

Lemma FCC_constructs (a : R) :
  call FCC [a] =
    Return (mkLattice FCC (Some [("a", a)]) (Some default_eps)
              (Some (mkVariant "FCC" "GKLUWX" "GXWKGLUWLK,UX"))).
Proof. reflexivity. Qed.

Lemma FCC_tocell (a : R) e v :
  tocell (mkLattice FCC (Some [("a", a)]) e v) 0
  = Return (scale 0.5 ((0, a, a), (a, 0, a), (a, a, 0))).
Proof. reflexivity. Qed.

Lemma cellpar_FCC (a : R) : 0 < a ->
  Cell_cellpar (scale 0.5 ((0, a, a), (a, 0, a), (a, a, 0))) =
    ((sqrt (a * a / 2), sqrt (a * a / 2), sqrt (a * a / 2)), (60, 60, 60)).
Proof.
  intros Ha.
  assert (Hn : forall u, vdot u u = a * a / 2 -> norm u = sqrt (a * a / 2)).
  { intros u E. unfold norm. now rewrite E. }
  assert (Hang : forall u v, vdot u u = a * a / 2 -> vdot v v = a * a / 2 ->
                 vdot u v = a * a / 4 -> angle u v = 60).
  { intros u v Eu Ev Euv. unfold angle. rewrite Euv, (Hn u Eu), (Hn v Ev).
    rewrite sqrt_sqrt by nra.
    replace (a * a / 4 / (a * a / 2)) with (1 / 2) by (field; lra).
    rewrite acos_half. field. exact PI_neq0'. }
  unfold Cell_cellpar, scale, map3.
  rewrite !Hn by (cbv [vdot]; nra).
  rewrite !Hang by (cbv [vdot]; nra).
  reflexivity.
Qed.

Lemma products_FCC (a : R) :
  let m := scale 0.5 ((0, a, a), (a, 0, a), (a, a, 0)) in
  (vdot (item m 1) (item m 2), vdot (item m 2) (item m 0), vdot (item m 0) (item m 1))
  = (a * a / 4, a * a / 4, a * a / 4).
Proof.
  cbv [scale map3]. zcompute. cbv [vdot]. f_equal; [f_equal|]; lra.
Qed.

Lemma allclose_far (eps x y : R) :
  eps + default_rtol * Rabs y < Rabs (x - y) ->
  allclose eps [x; x; x] (broadcast 3 y) = false.
Proof.
  intros H. unfold allclose, np_allclose, broadcast. cbn [repeat combine forallb fst snd].
  unfold isclose. rewrite Rleb_gt by exact H. reflexivity.
Qed.

Lemma allclose_same (eps x : R) : 0 <= eps ->
  allclose eps [x; x; x] (broadcast 3 x) = true.
Proof.
  intros H. apply np_allclose_refl; [apply default_rtol_pos | exact H].
Qed.

Lemma classify_FCC (eps a : R) :
  0 < eps <= 1 -> 0 < a ->
  let cell := scale 0.5 ((0, a, a), (a, 0, a), (a, a, 0)) in
  forall reduce : bool,
  metric (if reduce then fst (niggli_reduce cell) else cell) = metric cell ->
  get_bravais_lattice cell eps reduce =
    Return (mkLattice FCC (Some [("a", a)]) (Some default_eps)
              (Some (mkVariant "FCC" "GKLUWX" "GXWKGLUWLK,UX")), []).
Proof.
  intros He Ha cell reduce Hred.
  unfold get_bravais_lattice. by_metric Hred. unfold cell.
  rewrite products_FCC.
  rewrite cellpar_FCC by lra. cbn [fst snd].
  rewrite categorize_all_equal by (apply Rabs_0_lt; lra). cbn [bind].
  rewrite categorize_all_equal by (apply Rabs_0_lt; lra). cbn [bind].
  rewrite categorize_all_equal by (apply Rabs_0_lt; lra). cbn [bind].
  unfold test_cubic. cbn [to_list].
  rewrite allclose_far
    by (unfold default_rtol; rewrite (Rabs_left (60 - 90)), (Rabs_right 90) by lra; lra).
  rewrite allclose_same by lra. cbn [seq].
  zcompute.
  replace (sqrt 2 * sqrt (a * a / 2)) with a.
  - rewrite FCC_constructs. reflexivity.
  - rewrite <- sqrt_mult by nra.
    replace (2 * (a * a / 2)) with (a * a) by field.
    symmetry. apply sqrt_square. lra.
Qed.


Lemma BCC_constructs (a : R) :
  call BCC [a] =
    Return (mkLattice BCC (Some [("a", a)]) (Some default_eps)
              (Some (mkVariant "BCC" "GHPN" "GHNGPH,PN"))).
Proof. reflexivity. Qed.

Lemma cellpar_BCC (a : R) : 0 < a ->
  Cell_cellpar (scale 0.5 ((- a, a, a), (a, - a, a), (a, a, - a))) =
    ((sqrt (3 * (a * a) / 4), sqrt (3 * (a * a) / 4), sqrt (3 * (a * a) / 4)),
     (acos (- 1 / 3) * 180 / PI, acos (- 1 / 3) * 180 / PI, acos (- 1 / 3) * 180 / PI)).
Proof.
  intros Ha.
  assert (Hn : forall u, vdot u u = 3 * (a * a) / 4 -> norm u = sqrt (3 * (a * a) / 4)).
  { intros u E. unfold norm. now rewrite E. }
  assert (Hang : forall u v, vdot u u = 3 * (a * a) / 4 -> vdot v v = 3 * (a * a) / 4 ->
                 vdot u v = - (a * a) / 4 -> angle u v = acos (- 1 / 3) * 180 / PI).
  { intros u v Eu Ev Euv. unfold angle. rewrite Euv, (Hn u Eu), (Hn v Ev).
    rewrite sqrt_sqrt by nra.
    replace (- (a * a) / 4 / (3 * (a * a) / 4)) with (- 1 / 3) by (field; lra).
    reflexivity. }
  unfold Cell_cellpar, scale, map3.
  rewrite !Hn by (cbv [vdot]; nra).
  rewrite !Hang by (cbv [vdot]; nra).
  reflexivity.
Qed.

Lemma products_BCC (a : R) :
  let m := scale 0.5 ((- a, a, a), (a, - a, a), (a, a, - a)) in
  (vdot (item m 1) (item m 2), vdot (item m 2) (item m 0), vdot (item m 0) (item m 1))
  = (- (a * a) / 4, - (a * a) / 4, - (a * a) / 4).
Proof.
  cbv [scale map3]. zcompute. cbv [vdot]. f_equal; [f_equal|]; lra.
Qed.

(** The angle of the body-centred cubic cell lies above 105 degrees. *)
Lemma bcc_angle_bound : 105 <= acos (- 1 / 3) * 180 / PI.
Proof.
  replace (- 1 / 3) with (- (1 / 3)) by lra.
  pose proof (acos_neg_ge_shift (1 / 3) ltac:(lra)) as H.
  pose proof PI_RGT_0 as HP. pose proof PI_4 as H4.
  apply Rmult_le_reg_r with PI; [exact HP|].
  replace (acos (- (1 / 3)) * 180 / PI * PI) with (acos (- (1 / 3)) * 180)
    by (field; lra).
  nra.
Qed.

Lemma classify_BCC (eps a : R) :
  0 < eps <= 1 -> 0 < a ->
  let cell := scale 0.5 ((- a, a, a), (a, - a, a), (a, a, - a)) in
  forall reduce : bool,
  metric (if reduce then fst (niggli_reduce cell) else cell) = metric cell ->
  get_bravais_lattice cell eps reduce =
    Return (mkLattice BCC (Some [("a", a)]) (Some default_eps)
              (Some (mkVariant "BCC" "GHPN" "GHNGPH,PN")), []).
Proof.
  intros He Ha cell reduce Hred.
  pose proof bcc_angle_bound as Hb.
  unfold get_bravais_lattice. by_metric Hred. unfold cell.
  rewrite products_BCC.
  rewrite cellpar_BCC by lra. cbn [fst snd].
  rewrite categorize_all_equal by (apply Rabs_0_lt; lra). cbn [bind].
  rewrite categorize_all_equal by (apply Rabs_0_lt; lra). cbn [bind].
  rewrite categorize_all_equal by (apply Rabs_0_lt; lra). cbn [bind].
  unfold test_cubic. cbn [to_list].
  rewrite (allclose_far eps _ 90)
    by (unfold default_rtol; rewrite (Rabs_right 90) by lra;
        rewrite Rabs_right by lra; lra).
  rewrite (allclose_far eps _ 60)
    by (unfold default_rtol; rewrite (Rabs_right 60) by lra;
        rewrite Rabs_right by lra; lra).
  rewrite allclose_same by lra. cbn [seq].
  zcompute.
  replace (2.0 * sqrt (3 * (a * a) / 4) / sqrt 3) with a.
  - rewrite BCC_constructs. reflexivity.
  - replace (3 * (a * a) / 4) with (3 * (a / 2 * (a / 2))) by field.
    rewrite sqrt_mult by nra. rewrite sqrt_square by lra.
    assert (0 < sqrt 3) by (apply sqrt_lt_R0; lra).
    replace 2.0 with 2 by lra. field. lra.
Qed.


Lemma HEX_constructs (a c : R) :
  call HEX [a; c] =
    Return (mkLattice HEX (Some [("a", a); ("c", c)]) (Some default_eps)
              (Some (mkVariant "HEX" "GMKALH" "GMKGALHA,LM,KH"))).
Proof. reflexivity. Qed.

Lemma HEX_tocell (a c : R) e v :
  tocell (mkLattice HEX (Some [("a", a); ("c", c)]) e v) 0 =
    Return ((0.5 * a, - (0.5 * sqrt 3) * a, 0), (0.5 * a, 0.5 * sqrt 3 * a, 0),
            (0, 0, c)).
Proof. reflexivity. Qed.

Lemma cellpar_HEX (a c : R) : 0 < a -> 0 < c ->
  Cell_cellpar ((0.5 * a, - (0.5 * sqrt 3) * a, 0), (0.5 * a, 0.5 * sqrt 3 * a, 0),
                (0, 0, c)) =
    ((a, a, c), (90, 90, 120)).
Proof.
  intros Ha Hc.
  pose proof (sqrt_sqrt 3 ltac:(lra)) as H3.
  assert (Hn : forall u, vdot u u = a * a -> norm u = a).
  { intros u E. unfold norm. rewrite E. apply sqrt_square. lra. }
  unfold Cell_cellpar.
  rewrite (Hn (0.5 * a, - (0.5 * sqrt 3) * a, 0)) by (cbv [vdot]; nra).
  rewrite (Hn (0.5 * a, 0.5 * sqrt 3 * a, 0)) by (cbv [vdot]; nra).
  rewrite norm_z by lra.
  rewrite (angle_orthogonal (0.5 * a, 0.5 * sqrt 3 * a, 0)) by (cbv [vdot]; nra).
  rewrite (angle_orthogonal (0.5 * a, - (0.5 * sqrt 3) * a, 0) (0, 0, c))
    by (cbv [vdot]; nra).
  unfold angle.
  rewrite (Hn (0.5 * a, - (0.5 * sqrt 3) * a, 0)) by (cbv [vdot]; nra).
  rewrite (Hn (0.5 * a, 0.5 * sqrt 3 * a, 0)) by (cbv [vdot]; nra).
  replace (vdot (0.5 * a, - (0.5 * sqrt 3) * a, 0) (0.5 * a, 0.5 * sqrt 3 * a, 0) / (a * a))
    with (- (1 / 2)).
  - rewrite acos_neg_half. repeat f_equal. field. exact PI_neq0'.
  - cbv [vdot]. apply Rmult_eq_reg_r with (a * a); [|nra].
    replace ((0.5 * a * (0.5 * a) + - (0.5 * sqrt 3) * a * (0.5 * sqrt 3 * a) + 0 * 0)
             / (a * a) * (a * a))
      with (0.5 * a * (0.5 * a) + - (0.5 * sqrt 3) * a * (0.5 * sqrt 3 * a) + 0 * 0)
      by (field; lra).
    nra.
Qed.

Lemma products_HEX (a c : R) :
  let m := ((0.5 * a, - (0.5 * sqrt 3) * a, 0), (0.5 * a, 0.5 * sqrt 3 * a, 0),
            (0, 0, c)) in
  (vdot (item m 1) (item m 2), vdot (item m 2) (item m 0), vdot (item m 0) (item m 1))
  = (0, 0, - (a * a) / 2).
Proof.
  pose proof (sqrt_sqrt 3 ltac:(lra)) as H3.
  zcompute. cbv [vdot]. f_equal; [f_equal|]; nra.
Qed.

Lemma classify_HEX (eps a c : R) :
  0 < eps <= 1 -> 0 < a -> 0 < c -> eps <= Rabs (a - c) -> eps <= a * a / 2 ->
  let cell := ((0.5 * a, - (0.5 * sqrt 3) * a, 0), (0.5 * a, 0.5 * sqrt 3 * a, 0),
               (0, 0, c)) in
  forall reduce : bool,
  metric (if reduce then fst (niggli_reduce cell) else cell) = metric cell ->
  get_bravais_lattice cell eps reduce =
    Return (mkLattice HEX (Some [("a", a); ("c", c)]) (Some default_eps)
              (Some (mkVariant "HEX" "GMKALH" "GMKGALHA,LM,KH")), []).
Proof.
  intros [He He1] Ha Hc Hac Haa cell reduce Hred.
  unfold get_bravais_lattice. by_metric Hred. unfold cell.
  rewrite products_HEX.
  rewrite cellpar_HEX by lra. cbn [fst snd].
  rewrite (categorize_third eps a a c) by close_or_apart. cbn [bind].
  rewrite (categorize_third eps 90 90 120)
    by first [apply Rabs_0_lt; lra | apply Rabs_ge_iff; lra].
  cbn [bind].
  rewrite (categorize_third eps 0 0 (- (a * a) / 2))
    by first [apply Rabs_0_lt; lra | apply Rabs_ge_iff; lra].
  cbn [bind].
  unfold test_cubic, test_BCT. cbn [seq].
  unfold test_HEX. zcompute.
  rewrite !Rltb_lt by (apply Rabs_0_lt; lra). cbn [andb].
  rewrite (Rltb_lt 0) by nra. cbn [try assert].
  replace (sqrt (-2 * (- (a * a) / 2))) with a.
  - rewrite HEX_constructs. reflexivity.
  - replace (-2 * (- (a * a) / 2)) with (a * a) by field.
    symmetry. apply sqrt_square. lra.
Qed.

End RoundTripTrigonal.

(** ** The round trip, family by family *)

Section RoundTripTheorem.

Context {ops : CellOps}.

Lemma round_trip_CUB (eps a : R) : 0 < eps -> 0 < a -> round_trip false CUB [a] eps.
Proof.
  intros He Ha. split.
  - eexists. eexists. split; [apply CUB_constructs | apply CUB_tocell].
  - intros lat cell Hcall Hcell.
    rewrite CUB_constructs in Hcall. inversion Hcall; subst lat; clear Hcall.
    rewrite CUB_tocell in Hcell. inversion Hcell; subst cell; clear Hcell.
    eexists. split; [apply CUB_constructs|].
    apply classify_CUB_diag; auto using Rabs_0_lt.
Qed.

Lemma round_trip_FCC (eps a : R) : 0 < eps <= 1 -> 0 < a -> round_trip false FCC [a] eps.
Proof.
  intros He Ha. split.
  - eexists. eexists. split; [apply FCC_constructs | apply FCC_tocell].
  - intros lat cell Hcall Hcell.
    rewrite FCC_constructs in Hcall. inversion Hcall; subst lat; clear Hcall.
    rewrite FCC_tocell in Hcell. inversion Hcell; subst cell; clear Hcell.
    eexists. split; [apply FCC_constructs|].
    apply classify_FCC; first [assumption | reflexivity].
Qed.

Lemma BCC_tocell (a : R) e v :
  tocell (mkLattice BCC (Some [("a", a)]) e v) 0
  = Return (scale 0.5 ((- a, a, a), (a, - a, a), (a, a, - a))).
Proof. reflexivity. Qed.

Lemma round_trip_BCC (eps a : R) : 0 < eps <= 1 -> 0 < a -> round_trip false BCC [a] eps.
Proof.
  intros He Ha. split.
  - eexists. eexists. split; [apply BCC_constructs | apply BCC_tocell].
  - intros lat cell Hcall Hcell.
    rewrite BCC_constructs in Hcall. inversion Hcall; subst lat; clear Hcall.
    rewrite BCC_tocell in Hcell. inversion Hcell; subst cell; clear Hcell.
    eexists. split; [apply BCC_constructs|].
    apply classify_BCC; first [assumption | reflexivity].
Qed.

Lemma round_trip_TET (eps a c : R) :
  0 < eps -> 0 < a -> 0 < c -> eps <= Rabs (a - c) -> round_trip false TET [a; c] eps.
Proof.
  intros He Ha Hc Hac. split.
  - eexists. eexists. split; [apply TET_constructs | apply TET_tocell].
  - intros lat cell Hcall Hcell.
    rewrite TET_constructs in Hcall. inversion Hcall; subst lat; clear Hcall.
    rewrite TET_tocell in Hcell. inversion Hcell; subst cell; clear Hcell.
    eexists. split; [apply TET_constructs|].
    apply classify_TET_diag; first [assumption | reflexivity].
Qed.

(** A tetragonal lattice whose two parameters agree within [eps] has a
    cell that passes the cubic test, which comes first. *)
Lemma TET_classified_cubic (eps a c : R) :
  0 < eps -> 0 < a -> 0 < c -> Rabs (a - c) < eps ->
  has_cell TET [a; c] /\ classified_as false TET [a; c] eps CUB [a].
Proof.
  intros He Ha Hc Hac. split.
  - eexists. eexists. split; [apply TET_constructs | apply TET_tocell].
  - intros lat cell Hcall Hcell.
    rewrite TET_constructs in Hcall. inversion Hcall; subst lat; clear Hcall.
    rewrite TET_tocell in Hcell. inversion Hcell; subst cell; clear Hcell.
    eexists. split; [apply CUB_constructs|].
    apply classify_CUB_diag; auto using Rabs_0_lt.
    now rewrite Rabs_minus_sym.
Qed.

Lemma round_trip_ORC (eps a b c : R) :
  0 < eps -> 0 < a -> a + eps <= b -> b + eps <= c -> round_trip false ORC [a; b; c] eps.
Proof.
  intros He Ha Hab Hbc. split.
  - eexists. eexists. split; [apply ORC_constructs | apply ORC_tocell; lra].
  - intros lat cell Hcall Hcell.
    rewrite ORC_constructs in Hcall. inversion Hcall; subst lat; clear Hcall.
    rewrite ORC_tocell in Hcell by lra. inversion Hcell; subst cell; clear Hcell.
    eexists. split; [apply ORC_constructs|].
    apply classify_ORC_diag; first [assumption | reflexivity].
Qed.

Lemma round_trip_HEX (eps a c : R) :
  0 < eps <= 1 -> 0 < a -> 0 < c -> eps <= Rabs (a - c) -> eps <= a * a / 2 ->
  round_trip false HEX [a; c] eps.
Proof.
  intros He Ha Hc Hac Haa. split.
  - eexists. eexists. split; [apply HEX_constructs | apply HEX_tocell].
  - intros lat cell Hcall Hcell.
    rewrite HEX_constructs in Hcall. inversion Hcall; subst lat; clear Hcall.
    rewrite HEX_tocell in Hcell. inversion Hcell; subst cell; clear Hcell.
    eexists. split; [apply HEX_constructs|].
    apply classify_HEX; first [assumption | reflexivity].
Qed.

End RoundTripTheorem.

(** ** Monoclinic cells *)

Lemma acos_cos_degrees (alpha : R) : 0 <= alpha <= 180 ->
  acos (cos (alpha * (PI / 180))) * 180 / PI = alpha.
Proof.
  intros H. pose proof PI_RGT_0 as HP.
  rewrite acos_cos.
  - field. lra.
  - split.
    + apply Rmult_le_pos; lra.
    + replace PI with (180 * (PI / 180)) at 2 by (field; lra).
      apply Rmult_le_compat_r; lra.
Qed.

Lemma cos_degrees_pos (alpha : R) : 0 <= alpha < 90 -> 0 < cos (alpha * (PI / 180)).
Proof.
  intros H. pose proof PI_RGT_0 as HP. apply cos_gt_0.
  - assert (0 <= alpha * (PI / 180)) by (apply Rmult_le_pos; lra). lra.
  - replace (PI / 2) with (90 * (PI / 180)) by (field; lra).
    apply Rmult_lt_compat_r; lra.
Qed.

Lemma sin2_cos2' (t : R) : sin t * sin t + cos t * cos t = 1.
Proof. pose proof (sin2_cos2 t) as H. unfold Rsqr in H. exact H. Qed.

Section RoundTripMonoclinic.

Context {ops : CellOps}.

Lemma MCL_constructs (a b c alpha : R) : a <= c -> b <= c -> alpha < 90 ->
  call MCL [a; b; c; alpha] =
    Return (mkLattice MCL (Some [("a", a); ("b", b); ("c", c); ("alpha", alpha)])
              (Some default_eps)
              (Some (mkVariant "MCL" "GACDD1EHH1H2MM1M2XYY1Z" "GYHCEM1AXH1,MDZ,YD"))).
Proof.
  intros H1 H2 H3.
  unfold call, new, MCL__init__, BravaisLattice__init__, get_variant, _variant_name.
  cbn. unfold MCL_variant_name, check_mcl.
  rewrite !Rleb_le, Rltb_lt by assumption. reflexivity.
Qed.

Lemma MCL_tocell (a b c alpha : R) e v :
  tocell (mkLattice MCL (Some [("a", a); ("b", b); ("c", c); ("alpha", alpha)]) e v) 0
  = Return ((a, 0, 0), (0, b, 0),
            (0, c * cos (alpha * (PI / 180)), c * sin (alpha * (PI / 180)))).
Proof. reflexivity. Qed.

Lemma cellpar_MCL (a b c alpha : R) : 0 < a -> 0 < b -> 0 < c -> 0 <= alpha <= 180 ->
  Cell_cellpar ((a, 0, 0), (0, b, 0),
                (0, c * cos (alpha * (PI / 180)), c * sin (alpha * (PI / 180)))) =
    ((a, b, c), (alpha, 90, 90)).
Proof.
  intros Ha Hb Hc Halpha.
  set (t := alpha * (PI / 180)).
  pose proof (sin2_cos2' t) as Ht.
  assert (Hn : norm (0, c * cos t, c * sin t) = c).
  { unfold norm. cbv [vdot].
    replace (0 * 0 + c * cos t * (c * cos t) + c * sin t * (c * sin t)) with (c * c)
      by nra.
    apply sqrt_square. lra. }
  unfold Cell_cellpar.
  rewrite norm_x, norm_y, Hn by lra.
  rewrite (angle_orthogonal (a, 0, 0) (0, c * cos t, c * sin t)) by (cbv [vdot]; ring).
  rewrite (angle_orthogonal (a, 0, 0) (0, b, 0)) by (cbv [vdot]; ring).
  unfold angle. rewrite norm_y, Hn by lra. cbv [vdot].
  replace ((0 * 0 + b * (c * cos t) + 0 * (c * sin t)) / (b * c)) with (cos t)
    by (field; lra).
  unfold t. rewrite acos_cos_degrees by assumption. reflexivity.
Qed.

Lemma products_MCL (a b c t : R) :
  let m := ((a, 0, 0), (0, b, 0), (0, c * cos t, c * sin t)) in
  (vdot (item m 1) (item m 2), vdot (item m 2) (item m 0), vdot (item m 0) (item m 1))
  = (b * c * cos t, 0, 0).
Proof.
  zcompute. cbv [vdot]. f_equal; [f_equal|]; ring.
Qed.

Lemma noduplicates_two_zeros (eps p : R) : 0 <= eps -> 0 < p ->
  noduplicates eps (p, 0, 0) = false.
Proof.
  intros He Hp. unfold noduplicates, sort, argsort, sort_keys.
  cbn [fold_left insert_key fst].
  rewrite (Rltb_lt 0 p) by assumption. cbn [insert_key fst].
  rewrite (Rltb_ge 0 0) by lra. cbn [insert_key fst].
  rewrite (Rltb_lt 0 p) by assumption.
  zcompute.
  replace (0 - 0) with 0 by ring. rewrite Rabs_R0.
  rewrite Rmin_left by apply Rabs_pos.
  apply Rltb_ge. exact He.
Qed.

Lemma allclose_first_far (eps x y z w : R) :
  eps + default_rtol * Rabs w < Rabs (x - w) ->
  allclose eps [x; y; z] (broadcast 3 w) = false.
Proof.
  intros H. unfold allclose, np_allclose, broadcast. cbn [repeat combine forallb fst snd].
  unfold isclose. rewrite Rleb_gt by exact H. reflexivity.
Qed.

Lemma classify_MCL (eps a b c alpha : R) :
  0 < eps <= 1 -> 0 < a -> 0 < b -> 0 <= alpha ->
  eps <= Rabs (a - b) -> a + eps <= c -> b + eps <= c ->
  alpha + eps + 0.001 <= 90 ->
  eps <= b * c * cos (alpha * (PI / 180)) ->
  let cell := ((a, 0, 0), (0, b, 0),
               (0, c * cos (alpha * (PI / 180)), c * sin (alpha * (PI / 180)))) in
  forall reduce : bool,
  (if reduce then fst (niggli_reduce cell) else cell) = cell ->
  get_bravais_lattice cell eps reduce =
    Return (mkLattice MCL (Some [("a", a); ("b", b); ("c", c); ("alpha", alpha)])
              (Some default_eps)
              (Some (mkVariant "MCL" "GACDD1EHH1H2MM1M2XYY1Z" "GYHCEM1AXH1,MDZ,YD")),
            []).
Proof.
  intros [He He1] Ha Hb Halpha Hab Hac Hbc Hal Hp cell reduce Hred.
  unfold get_bravais_lattice. rewrite Hred. unfold cell.
  rewrite products_MCL.
  rewrite cellpar_MCL by lra. cbn [fst snd].
  rewrite (categorize_all_different eps a b c)
    by first [assumption | apply Rabs_ge_iff; lra].
  cbn [bind].
  rewrite (categorize_first eps alpha 90 90)
    by first [apply Rabs_0_lt; lra | apply Rabs_ge_iff; lra].
  cbn [bind].
  rewrite (categorize_first eps _ 0 0)
    by first [apply Rabs_0_lt; lra | apply Rabs_ge_iff; lra].
  cbn [bind].
  unfold test_cubic, test_BCT. cbn [seq].
  unfold test_HEX. zcompute.
  rewrite (Rltb_ge (Rabs (alpha - 120))) by (apply Rabs_ge_iff; lra).
  cbn [andb seq].
  unfold test_TET, test_ORCC. cbn [seq].
  unfold test_ORC. cbn [to_list].
  rewrite allclose_first_far
    by (unfold default_rtol; rewrite (Rabs_left (alpha - 90)), (Rabs_right 90) by lra;
        lra).
  cbn [andb seq].
  unfold test_ORCF. rewrite noduplicates_two_zeros by lra. cbn [andb seq].
  unfold test_ORCI, test_RHL. cbn [seq].
  unfold test_MCL. zcompute.
  replace (allclose eps [90; 90] (broadcast 2 90)) with true
    by (symmetry; apply np_allclose_refl; [apply default_rtol_pos | lra]).
  rewrite (Rltb_lt alpha 90) by lra. cbn [try assert].
  rewrite (Rltb_lt b c) by lra.
  rewrite (Rltb_lt a c) by lra. cbn [try assert].
  rewrite MCL_constructs by lra. reflexivity.
Qed.


(** What [BravaisLattice.__init__] stores. *)
Lemma init_parameters (f : Family) (kwargs : dict R) (lat : BravaisLattice) :
  get kwargs "eps" = None ->
  new f (BravaisLattice__init__ kwargs) = Return lat ->
  cls lat = f /\ _parameters lat = Some (dict_of kwargs).
Proof.
  intros He. unfold new, BravaisLattice__init__. rewrite He.
  assert (Hr : remove kwargs "eps" = kwargs).
  { clear lat. induction kwargs as [|[k v] d IH]; [reflexivity|].
    cbn [get remove] in He |- *.
    destruct (String.eqb "eps" k) eqn:E; [discriminate|].
    now rewrite IH by exact He. }
  rewrite Hr. cbn [blank cls _parameters _eps _variant].
  destruct (negb _); [intros H; discriminate H|].
  destruct (get_variant _); intros H; inversion H; subst; cbn; auto.
Qed.

Lemma MCLC_tocell (lat : BravaisLattice) (a b c alpha : R) :
  call MCLC [a; b; c; alpha] = Return lat ->
  tocell lat 0 =
    Return ((0.5 * a, 0.5 * b, 0), (- 0.5 * a, 0.5 * b, 0),
            (0, c * cos (alpha * (PI / 180)), c * sin (alpha * (PI / 180)))).
Proof.
  intros H. unfold call, MCLC__init__ in H.
  apply init_parameters in H as [Hc Hp]; [|reflexivity].
  unfold tocell. rewrite Hp, Hc. reflexivity.
Qed.

Lemma cellpar_MCLC (a b c alpha : R) :
  0 < a -> 0 < b -> 0 < c -> 0 <= alpha <= 180 ->
  let t := alpha * (PI / 180) in
  let L := sqrt ((a * a + b * b) / 4) in
  Cell_cellpar ((0.5 * a, 0.5 * b, 0), (- 0.5 * a, 0.5 * b, 0),
                (0, c * cos t, c * sin t)) =
    ((L, L, c),
     (acos (b * c * cos t / 2 / (L * c)) * 180 / PI,
      acos (b * c * cos t / 2 / (L * c)) * 180 / PI,
      acos ((b * b - a * a) / 4 / (L * L)) * 180 / PI)).
Proof.
  intros Ha Hb Hc Halpha t L.
  pose proof (sin2_cos2' t) as Ht.
  assert (Hn : norm (0, c * cos t, c * sin t) = c).
  { unfold norm. cbv [vdot].
    replace (0 * 0 + c * cos t * (c * cos t) + c * sin t * (c * sin t)) with (c * c)
      by nra.
    apply sqrt_square. lra. }
  assert (HL : forall u, vdot u u = (a * a + b * b) / 4 -> norm u = L).
  { intros u E. unfold norm, L. now rewrite E. }
  unfold Cell_cellpar, angle.
  rewrite Hn.
  rewrite (HL (0.5 * a, 0.5 * b, 0)) by (cbv [vdot]; lra).
  rewrite (HL (- 0.5 * a, 0.5 * b, 0)) by (cbv [vdot]; lra).
  cbv [vdot].
  replace (- 0.5 * a * 0 + 0.5 * b * (c * cos t) + 0 * (c * sin t))
    with (b * c * cos t / 2) by lra.
  replace (0.5 * a * 0 + 0.5 * b * (c * cos t) + 0 * (c * sin t))
    with (b * c * cos t / 2) by lra.
  replace (0.5 * a * (- 0.5 * a) + 0.5 * b * (0.5 * b) + 0 * 0)
    with ((b * b - a * a) / 4) by lra.
  reflexivity.
Qed.

Lemma products_MCLC (a b c t : R) :
  let m := ((0.5 * a, 0.5 * b, 0), (- 0.5 * a, 0.5 * b, 0),
            (0, c * cos t, c * sin t)) in
  (vdot (item m 1) (item m 2), vdot (item m 2) (item m 0), vdot (item m 0) (item m 1))
  = (b * c * cos t / 2, b * c * cos t / 2, (b * b - a * a) / 4).
Proof.
  zcompute. cbv [vdot]. f_equal; [f_equal|]; lra.
Qed.

(** Two equal numbers and a third: the third is distinguished, or all
    three are equal. *)
Lemma categorize_pair (eps x y : R) : 0 < eps ->
  categorize_differences eps (x, x, y) = Return (false, false, Some 2%Z)
  \/ categorize_differences eps (x, x, y) = Return (true, false, None).
Proof.
  intros He. destruct (Rlt_dec (Rabs (x - y)) eps) as [H|H].
  - right. apply categorize_all_equal; auto using Rabs_0_lt.
    now rewrite Rabs_minus_sym.
  - left. apply categorize_third; auto using Rabs_0_lt; try lra.
    rewrite Rabs_minus_sym. lra.
Qed.


Lemma degrees_below_90 (x : R) : 0 <= x <= 1 ->
  acos x * 180 / PI <= 90 - 45 * x.
Proof.
  intros Hx. pose proof (acos_le_shift x Hx) as H.
  pose proof PI_RGT_0 as HP. pose proof PI_4 as H4.
  apply Rmult_le_reg_r with PI; [exact HP|].
  replace (acos x * 180 / PI * PI) with (acos x * 180) by (field; lra).
  nra.
Qed.

Lemma classify_MCLC (eps a b c alpha : R) (lat : BravaisLattice) :
  0 < eps <= 1 -> 0 < a -> 0 < b -> a <= c -> b <= c -> 0 <= alpha < 90 ->
  4 * eps <= c ->
  eps < b * c * cos (alpha * (PI / 180)) / 2 ->
  (eps + 0.001) * c <= 30 * (b * cos (alpha * (PI / 180))) ->
  call MCLC [a; b; c; alpha] = Return lat ->
  let cell := ((0.5 * a, 0.5 * b, 0), (- 0.5 * a, 0.5 * b, 0),
               (0, c * cos (alpha * (PI / 180)), c * sin (alpha * (PI / 180)))) in
  forall reduce : bool,
  (if reduce then fst (niggli_reduce cell) else cell) = cell ->
  get_bravais_lattice cell eps reduce = Return (lat, []).
Proof.
  intros [He He1] Ha Hb Hac Hbc [Hal0 Hal] Hc4 Hq Hfar Hcall cell reduce Hred.
  assert (Hc : 0 < c) by lra.
  pose proof (cos_degrees_pos alpha (conj Hal0 Hal)) as Hcos.
  pose proof (COS_bound (alpha * (PI / 180))) as [_ Hcos1].
  unfold get_bravais_lattice. rewrite Hred. unfold cell.
  rewrite products_MCLC.
  rewrite cellpar_MCLC by lra. cbn [fst snd].
  set (t := alpha * (PI / 180)) in *.
  set (L := sqrt ((a * a + b * b) / 4)).
  assert (HLL : L * L = (a * a + b * b) / 4) by (apply sqrt_sqrt; nra).
  assert (HL0 : 0 < L) by (apply sqrt_lt_R0; nra).
  assert (HLb : b / 2 <= L) by nra.
  assert (HLc : L < 3 * c / 4) by nra.
  set (x := b * c * cos t / 2 / (L * c)).
  assert (Hx : 0 <= x <= 1 /\ (eps + 0.001) / 45 < x).
  { assert (Ex : x = b * cos t / (2 * L)) by (unfold x; field; lra).
    rewrite Ex. repeat split.
    - apply Rmult_le_pos; [nra|]. left. apply Rinv_0_lt_compat. lra.
    - apply Rmult_le_reg_r with (2 * L); [lra|].
      replace (b * cos t / (2 * L) * (2 * L)) with (b * cos t) by (field; lra). nra.
    - apply Rmult_lt_reg_r with (2 * L); [lra|].
      replace (b * cos t / (2 * L) * (2 * L)) with (b * cos t) by (field; lra).
      assert ((eps + 0.001) * (2 * L) < (eps + 0.001) * (3 * c / 2))
        by (apply Rmult_lt_compat_l; lra).
      lra. }
  destruct Hx as [Hx Hxfar].
  pose proof (degrees_below_90 x Hx) as HA1.
  set (A1 := acos x * 180 / PI) in *.
  set (G1 := acos ((b * b - a * a) / 4 / (L * L)) * 180 / PI).
  rewrite (categorize_third eps L L c)
    by first [apply Rabs_0_lt; lra | apply Rabs_ge_iff; lra].
  cbn [bind].
  assert (HA1far : eps + default_rtol * Rabs 90 < Rabs (A1 - 90)).
  { unfold default_rtol. rewrite (Rabs_right 90) by lra.
    rewrite Rabs_left by lra. lra. }
  assert (Hstages : forall uad usd,
    (uad = Some 2%Z \/ uad = None) -> (usd = Some 2%Z \/ usd = None) ->
    run (test_cubic eps (L, L, c) (A1, A1, G1) false >>
         test_BCT (L, L, c, (A1, A1, G1))
           (b * c * cos t / 2, b * c * cos t / 2, (b * b - a * a) / 4) false uad >>
         test_HEX eps (L, L, c) (A1, A1, G1)
           (b * c * cos t / 2, b * c * cos t / 2, (b * b - a * a) / 4) uad usd >>
         test_TET eps (L, L, c, (A1, A1, G1)) (Some 2%Z) >>
         test_ORCC eps (L, L, c)
           (b * c * cos t / 2, b * c * cos t / 2, (b * b - a * a) / 4) (Some 2%Z) >>
         test_ORC eps (L, L, c) (A1, A1, G1) false >>
         test_ORCF eps
           ((0.5 * a, 0.5 * b, 0), (- 0.5 * a, 0.5 * b, 0), (0, c * cos t, c * sin t))
           (b * c * cos t / 2, b * c * cos t / 2, (b * b - a * a) / 4) false >>
         test_ORCI eps
           ((0.5 * a, 0.5 * b, 0), (- 0.5 * a, 0.5 * b, 0), (0, c * cos t, c * sin t))
           (b * c * cos t / 2, b * c * cos t / 2, (b * b - a * a) / 4) false >>
         test_RHL (L, L, c)
           (b * c * cos t / 2, b * c * cos t / 2, (b * b - a * a) / 4) false >>
         test_MCL eps (L, L, c) (A1, A1, G1) usd >>
         test_MCLC (L, L, c)
           (b * c * cos t / 2, b * c * cos t / 2, (b * b - a * a) / 4) (Some 2%Z) >>
         test_TRI (L, L, c, (A1, A1, G1)) >> Exc RuntimeError)
    = Return (lat, [])).
  { intros uad usd Huad Husd.
    unfold test_cubic. cbn [seq].
    assert (EB : forall cp BC, test_BCT cp BC false uad = Next)
      by (intros; unfold test_BCT; destruct uad; reflexivity).
    rewrite EB. cbn [seq].
    assert (EH : test_HEX eps (L, L, c) (A1, A1, G1)
              (b * c * cos t / 2, b * c * cos t / 2, (b * b - a * a) / 4) uad usd
            = Next).
    { unfold test_HEX. destruct Huad as [-> | ->]; [|reflexivity].
      zcompute. rewrite (Rltb_ge (Rabs (A1 - 90)) eps).
      - now rewrite andb_false_r.
      - rewrite Rabs_left by lra. lra. }
    rewrite EH. cbn [seq].
    unfold test_TET. cbn [fst snd to_list].
    rewrite allclose_first_far by exact HA1far. cbn [seq].
    assert (EO : test_ORCC eps (L, L, c)
              (b * c * cos t / 2, b * c * cos t / 2, (b * b - a * a) / 4) (Some 2%Z)
            = Next).
    { unfold test_ORCC. zcompute. cbn [to_list map].
      rewrite (Rltb_lt eps (Rabs (b * c * cos t / 2)))
        by (rewrite Rabs_right by lra; lra).
      destruct (Rltb eps (Rabs ((b * b - a * a) / 4))); reflexivity. }
    rewrite EO. cbn [seq].
    unfold test_ORC. cbn [to_list].
    rewrite allclose_first_far by exact HA1far. cbn [andb seq].
    unfold test_ORCF, test_ORCI, test_RHL. cbn [andb seq].
    assert (EM : test_MCL eps (L, L, c) (A1, A1, G1) usd = Next).
    { unfold test_MCL. destruct Husd as [-> | ->]; [|reflexivity].
      zcompute.
      replace (allclose eps [A1; A1] (broadcast 2 90)) with false; [reflexivity|].
      symmetry. unfold allclose, np_allclose, broadcast.
      cbn [repeat combine forallb fst snd]. unfold isclose.
      rewrite Rleb_gt by exact HA1far. reflexivity. }
    rewrite EM. cbn [seq].
    unfold test_MCLC. zcompute.
    replace (sqrt (2 * (L ^ 2 + (b * b - a * a) / 4))) with b.
    2:{ replace (2 * (L ^ 2 + (b * b - a * a) / 4)) with (b * b) by nra.
        symmetry. apply sqrt_square. lra. }
    replace (sqrt (4 * L ^ 2 - b ^ 2)) with a.
    2:{ replace (4 * L ^ 2 - b ^ 2) with (a * a) by nra.
        symmetry. apply sqrt_square. lra. }
    replace (2 * (b * c * cos t / 2) / (b * c)) with (cos t) by (field; lra).
    unfold t. rewrite acos_cos_degrees by lra.
    rewrite (Rltb_lt alpha 90) by lra. cbn [try assert].
    rewrite Hcall. reflexivity. }
  destruct (categorize_pair eps A1 G1 He) as [E1|E1]; rewrite E1; cbn [bind];
    destruct (categorize_pair eps (b * c * cos t / 2) ((b * b - a * a) / 4) He)
      as [E2|E2]; rewrite E2; cbn [bind]; apply Hstages; auto.
Qed.

End RoundTripMonoclinic.

(** ** The skewed cube is cubic within the tolerance *)

Lemma sin_lower (a : R) : 0 <= a <= PI -> a - a * a * a / 6 <= sin a.
Proof.
  intros [H0 H1].
  destruct (sin_bound a 0 H0 H1) as [H _].
  unfold sin_approx, sin_term in H. cbn in H.
  lra.
Qed.

(** A cosine below [sin delta] in absolute value belongs to an angle
    within [delta] of a right angle. *)
Lemma acos_near_right (x delta : R) : 0 < delta < PI / 2 ->
  Rabs x < sin delta -> Rabs (acos x - PI / 2) < delta.
Proof.
  intros [Hd0 Hd1] Hx.
  pose proof (SIN_bound delta) as [_ Hs1].
  apply Rabs_lt_iff in Hx. destruct Hx as [Hx1 Hx2].
  pose proof (acos_bound x) as [Ha0 Ha1].
  assert (Hc : cos (acos x) = x) by (apply cos_acos; lra).
  apply Rabs_lt_iff. split.
  - assert (PI / 2 - delta < acos x); [|lra].
    apply cos_decreasing_0; try lra.
    rewrite Hc, cos_shift. exact Hx2.
  - assert (acos x < PI / 2 + delta); [|lra].
    apply cos_decreasing_0; try lra.
    rewrite Hc. rewrite (sin_cos delta) in Hx1. lra.
Qed.

Lemma degrees_near_90 (x e : R) : 0 < e <= 1 ->
  Rabs x < sin (e * (PI / 180)) -> Rabs (acos x * 180 / PI - 90) < e.
Proof.
  intros [He0 He1] Hx. pose proof PI_RGT_0 as HP.
  assert (Hd : 0 < e * (PI / 180) < PI / 2) by (split; nra).
  pose proof (acos_near_right x _ Hd Hx) as H.
  apply Rabs_lt_iff in H. apply Rabs_lt_iff.
  assert (E : acos x * 180 / PI - 90 = (acos x - PI / 2) * (180 / PI))
    by (field; lra).
  rewrite E.
  assert (Hk : 0 < 180 / PI) by (apply Rdiv_lt_0_compat; lra).
  assert (Ek : e * (PI / 180) * (180 / PI) = e) by (field; lra).
  destruct H as [Hlo Hhi].
  assert (H1 : (acos x - PI / 2) * (180 / PI) < e * (PI / 180) * (180 / PI))
    by (apply Rmult_lt_compat_r; lra).
  assert (H2 : - (e * (PI / 180)) * (180 / PI) < (acos x - PI / 2) * (180 / PI))
    by (apply Rmult_lt_compat_r; lra).
  replace (- (e * (PI / 180)) * (180 / PI)) with (- (e * (PI / 180) * (180 / PI)))
    in H2 by ring.
  rewrite Ek in H1, H2. lra.
Qed.

(** The sine of [e] degrees is at least [e / 61]. *)
Lemma sin_degrees_lower (e : R) : 0 < e <= 1 -> e / 61 <= sin (e * (PI / 180)).
Proof.
  intros [He0 He1]. pose proof PI2_3_2 as HP3. pose proof PI_4 as HP4.
  set (d := e * (PI / 180)).
  assert (Hd : e / 60 <= d <= e / 45) by (unfold d; split; nra).
  assert (Hd1 : 0 < d <= 1 / 45) by lra.
  pose proof (sin_lower d ltac:(lra)) as Hs.
  assert (d * d * d / 6 <= d / 1000).
  { assert (d * d <= 1 / 2025) by nra.
    assert (d * d * d <= d * (1 / 2025)) by nra. lra. }
  lra.
Qed.

Lemma norm_between (u : vec) (lo hi : R) :
  0 <= lo -> lo * lo <= vdot u u -> vdot u u <= hi * hi -> 0 <= hi ->
  lo <= norm u <= hi.
Proof.
  intros H0 H1 H2 H3. unfold norm. split.
  - rewrite <- (sqrt_square lo) by assumption. apply sqrt_le_1_alt. exact H1.
  - rewrite <- (sqrt_square hi) by assumption. apply sqrt_le_1_alt. exact H2.
Qed.

Lemma angle_near_90 (u v : vec) (e m : R) : 0 < e <= 1 ->
  0 < m -> m <= norm u * norm v -> Rabs (vdot u v) * 61 < e * m ->
  Rabs (angle u v - 90) < e.
Proof.
  intros He Hm Hn Hv. unfold angle. apply degrees_near_90; [exact He|].
  pose proof (sin_degrees_lower e He) as Hs.
  apply Rlt_le_trans with (e / 61); [|exact Hs].
  unfold Rdiv at 1. rewrite Rabs_mult.
  rewrite (Rabs_right (/ (norm u * norm v)))
    by (left; apply Rinv_0_lt_compat; lra).
  apply Rmult_lt_reg_r with (norm u * norm v); [lra|].
  rewrite Rmult_assoc, Rinv_l, Rmult_1_r by lra.
  pose proof (Rabs_pos (vdot u v)). nra.
Qed.

(** The premises of the cubic case hold of [skewed_cube]: its three
    lengths are equal within [eps], its three angles are 90 degrees
    within [eps], and the cubic test would hold. *)
Lemma skewed_cube_is_cubic_within_eps :
  let '(A, B, C) := fst (Cell_cellpar skewed_cube) in
  let '(alpha, beta, gamma) := snd (Cell_cellpar skewed_cube) in
  (Rabs (B - C) < default_eps /\ Rabs (C - A) < default_eps
   /\ Rabs (A - B) < default_eps)
  /\ (Rabs (alpha - 90) < default_eps /\ Rabs (beta - 90) < default_eps
      /\ Rabs (gamma - 90) < default_eps)
  /\ categorize_differences default_eps (A, B, C) = Return (true, false, None)
  /\ allclose default_eps [alpha; beta; gamma] (broadcast 3 90) = true.
Proof.
  unfold skewed_cube, Cell_cellpar. cbn [fst snd].
  assert (N0 : norm (- 10, 0, 0) = 10).
  { unfold norm. cbv [vdot].
    replace (- 10 * - 10 + 0 * 0 + 0 * 0) with (10 * 10) by lra.
    apply sqrt_square. lra. }
  assert (N1 : 10 <= norm (- 3e-5, 10, 0) <= 10.00001)
    by (apply norm_between; cbv [vdot]; lra).
  assert (N2 : 10 <= norm (- 1.5e-5, 0, - 10.000001) <= 10.00001)
    by (apply norm_between; cbv [vdot]; lra).
  rewrite N0.
  set (B := norm (- 3e-5, 10, 0)) in *.
  set (C := norm (- 1.5e-5, 0, - 10.000001)) in *.
  assert (HL : Rabs (B - C) < default_eps /\ Rabs (C - 10) < default_eps
               /\ Rabs (10 - B) < default_eps).
  { unfold default_eps. repeat split; apply Rabs_lt_iff; lra. }
  assert (He : 0 < default_eps <= 1) by (unfold default_eps; lra).
  assert (HA : Rabs (angle (- 3e-5, 10, 0) (- 1.5e-5, 0, - 10.000001) - 90) < default_eps
               /\ Rabs (angle (- 10, 0, 0) (- 1.5e-5, 0, - 10.000001) - 90) < default_eps
               /\ Rabs (angle (- 10, 0, 0) (- 3e-5, 10, 0) - 90) < default_eps).
  { repeat split; apply angle_near_90 with (m := 100); try exact He; try lra;
      fold B; fold C; try rewrite N0; try nra;
      cbv [vdot]; unfold default_eps; rewrite Rabs_right by lra; lra. }
  split; [exact HL|]. split; [exact HA|]. split.
  - apply categorize_all_equal; tauto.
  - destruct HA as [H1 [H2 H3]].
    unfold allclose, np_allclose, broadcast, isclose, default_rtol.
    cbn [repeat combine forallb fst snd].
    rewrite (Rabs_right 90) by lra.
    rewrite !Rleb_le by lra. reflexivity.
Qed.

(** The cell [skewed_cube] is in Niggli's normal form and right-handed:
    of its rows [a], [b], [c] the squared lengths increase, the scalar
    products are positive, [2 b.c] is at most [b.b], and [2 a.c] and
    [2 a.b] are at most [a.a]. *)
Lemma skewed_cube_is_reduced :
  let '(a, b, c) := skewed_cube in
  vdot a a < vdot b b < vdot c c
  /\ 0 < 2 * vdot b c <= vdot b b
  /\ 0 < 2 * vdot a c <= vdot a a
  /\ 0 < 2 * vdot a b <= vdot a a
  /\ 0 < det skewed_cube.
Proof.
  unfold skewed_cube, det, cross. cbv [vdot]. repeat split; lra.
Qed.

(** C5 does not hold on the code.  The rows of [skewed_cube] have equal
    lengths and right angles within the tolerance, and the cubic test
    would accept them; yet the classifier does not reach that test: of
    the three scalar products the first two and the last two are
    within [eps] of each other, the first and the last are not, and the
    assertion of [categorize_differences], called on them before any
    test, fails.  This is so without reduction, and with a reduction
    that leaves the cell, which is in normal form, as it is. *)
Theorem skewed_cube_assertion_fails {ops : CellOps} :
  categorize_differences default_eps (fst (Cell_cellpar skewed_cube))
    = Return (true, false, None)
  /\ allclose default_eps (to_list (snd (Cell_cellpar skewed_cube))) (broadcast 3 90)
     = true
  /\ categorize_differences default_eps
       (vdot (item skewed_cube 1) (item skewed_cube 2),
        vdot (item skewed_cube 2) (item skewed_cube 0),
        vdot (item skewed_cube 0) (item skewed_cube 1)) = Raise AssertionError
  /\ get_bravais_lattice skewed_cube default_eps false = Raise AssertionError
  /\ (fst (niggli_reduce skewed_cube) = skewed_cube ->
      get_bravais_lattice skewed_cube default_eps true = Raise AssertionError).
Proof.
  pose proof skewed_cube_is_cubic_within_eps as P.
  destruct (Cell_cellpar skewed_cube) as [[[A B] C] [[alpha beta] gamma]] eqn:Ecp.
  cbn [fst snd] in P |- *. destruct P as [_ [_ [P1 P2]]].
  split; [exact P1|]. split; [exact P2|].
  assert (E : categorize_differences default_eps
    (vdot (item skewed_cube 1) (item skewed_cube 2),
     vdot (item skewed_cube 2) (item skewed_cube 0),
     vdot (item skewed_cube 0) (item skewed_cube 1)) = Raise AssertionError).
  { unfold skewed_cube. zcompute. cbv [vdot].
    unfold default_eps.
    apply categorize_two_pairs.
    - rewrite Rabs_left by lra; lra.
    - rewrite Rabs_right by lra; lra.
    - rewrite Rabs_left by lra; lra. }
  split; [exact E|].
  assert (G : forall reduce : bool,
            (if reduce then fst (niggli_reduce skewed_cube) else skewed_cube)
            = skewed_cube ->
            get_bravais_lattice skewed_cube default_eps reduce = Raise AssertionError).
  { intros reduce Hred.
    unfold get_bravais_lattice. rewrite Hred, Ecp. cbn [fst snd].
    rewrite P1. cbn [bind].
    destruct (categorize_differences_cases default_eps (alpha, beta, gamma))
      as [E2|[[[aae aad] uad] E2]]; rewrite E2; [reflexivity|]. cbn [bind].
    rewrite E. reflexivity. }
  split; [apply (G false); reflexivity|].
  intros Hred. apply (G true). exact Hred.
Qed.

(** ** Angles apart *)

Lemma abs_sin_le (t : R) : Rabs (sin t) <= Rabs t.
Proof.
  assert (P : forall u, 0 <= u -> - u <= sin u <= u).
  { intros u Hu. split.
    - destruct (Rle_dec u PI) as [H|H].
      + pose proof (sin_ge_0 u Hu H). lra.
      + pose proof (SIN_bound u) as [Hs _]. pose proof PI2_1. lra.
    - destruct (Req_dec u 0) as [->|Hn]; [rewrite sin_0; lra|].
      left. apply sin_lt_x. lra. }
  destruct (Rle_dec 0 t) as [H|H].
  - destruct (P t H). rewrite (Rabs_right t) by lra.
    apply Rabs_le. lra.
  - destruct (P (- t) ltac:(lra)) as [H1 H2]. rewrite sin_neg in H1, H2.
    rewrite (Rabs_left t) by lra. apply Rabs_le. lra.
Qed.

Lemma cos_lipschitz (p q : R) : Rabs (cos p - cos q) <= Rabs (p - q).
Proof.
  rewrite form2. rewrite !Rabs_mult.
  rewrite (Rabs_left (-2)) by lra.
  pose proof (abs_sin_le ((p - q) / 2)) as H1.
  pose proof (SIN_bound ((p + q) / 2)) as [H2 H3].
  assert (H4 : Rabs (sin ((p + q) / 2)) <= 1) by (apply Rabs_le; lra).
  assert (H5 : Rabs ((p - q) / 2) = Rabs (p - q) / 2).
  { unfold Rdiv. rewrite Rabs_mult. rewrite (Rabs_right (/ 2)) by lra. reflexivity. }
  rewrite H5 in H1.
  pose proof (Rabs_pos (sin ((p - q) / 2))).
  pose proof (Rabs_pos (sin ((p + q) / 2))).
  pose proof (Rabs_pos (p - q)).
  nra.
Qed.

(** The arc cosine moves at least as far as its argument. *)
Lemma acos_expanding (x y : R) : -1 <= x <= 1 -> -1 <= y <= 1 ->
  Rabs (x - y) <= Rabs (acos x - acos y).
Proof.
  intros Hx Hy.
  rewrite <- (cos_acos x Hx) at 1. rewrite <- (cos_acos y Hy) at 1.
  apply cos_lipschitz.
Qed.

Lemma degrees_apart (x y : R) : -1 <= x <= 1 -> -1 <= y <= 1 ->
  45 * Rabs (x - y) <= Rabs (acos x * 180 / PI - acos y * 180 / PI).
Proof.
  intros Hx Hy. pose proof (acos_expanding x y Hx Hy) as H.
  pose proof PI_RGT_0 as HP. pose proof PI_4 as H4.
  replace (acos x * 180 / PI - acos y * 180 / PI)
    with ((acos x - acos y) * (180 / PI)) by (field; lra).
  rewrite Rabs_mult.
  assert (Hk : 45 <= 180 / PI).
  { apply Rmult_le_reg_r with PI; [lra|].
    replace (180 / PI * PI) with 180 by (field; lra). lra. }
  rewrite (Rabs_right (180 / PI)) by lra.
  pose proof (Rabs_pos (x - y)). pose proof (Rabs_pos (acos x - acos y)).
  nra.
Qed.

Lemma noduplicates_equal (eps x : R) : 0 <= eps -> noduplicates eps (x, x, x) = false.
Proof.
  intros He. unfold noduplicates, sort, argsort, sort_keys.
  cbn [fold_left insert_key fst].
  rewrite (Rltb_ge x x) by lra. cbn [insert_key fst].
  rewrite (Rltb_ge x x) by lra. cbn [insert_key fst].
  zcompute.
  replace (x - x) with 0 by ring. rewrite Rabs_R0.
  rewrite Rmin_left by lra.
  apply Rltb_ge. exact He.
Qed.

(** ** A triclinic cell *)

(** The cell [triclinic_cell] is in Niggli's normal form and
    right-handed. *)
Lemma triclinic_cell_is_reduced :
  let '(a, b, c) := triclinic_cell in
  vdot a a < vdot b b < vdot c c
  /\ 0 < 2 * vdot b c <= vdot b b
  /\ 0 < 2 * vdot a c <= vdot a a
  /\ 0 < 2 * vdot a b <= vdot a a
  /\ 0 < det triclinic_cell.
Proof.
  unfold triclinic_cell, det, cross. cbv [vdot]. repeat split; lra.
Qed.

Section TriclinicExample.

Context {ops : CellOps}.

(** The cell [triclinic_cell] is completely asymmetric: its lengths
    differ, its angles differ, none of the tests of the cascade before
    the triclinic one matches it; and the classifier raises: the
    generic error when the triclinic test does not match, [NameError]
    when it does. *)
Lemma triclinic_cell_is_not_classified :
  categorize_differences default_eps (fst (Cell_cellpar triclinic_cell))
    = Return (false, true, None)
  /\ categorize_differences default_eps (snd (Cell_cellpar triclinic_cell))
     = Return (false, true, None)
  /\ forall reduce : bool,
     (if reduce then fst (niggli_reduce triclinic_cell) else triclinic_cell)
     = triclinic_cell ->
     get_bravais_lattice triclinic_cell default_eps reduce =
       match check (Cell_cellpar triclinic_cell) TRI
               (cellpar_list (Cell_cellpar triclinic_cell)) 0 with
       | Return (Some _) => Raise NameError
       | Return None => Raise RuntimeError
       | Raise e => Raise e
       end.
Proof.
  assert (He : 0 < default_eps <= 1) by (unfold default_eps; lra).
  assert (N0 : norm (2, 0, 0) = 2) by (apply norm_x; lra).
  assert (N1 : 3.04 <= norm (0.5, 3, 0) <= 3.05)
    by (apply norm_between; cbv [vdot]; lra).
  assert (N2 : 5.03 <= norm (0.5, 0.25, 5) <= 5.04)
    by (apply norm_between; cbv [vdot]; lra).
  assert (EP : (vdot (item triclinic_cell 1) (item triclinic_cell 2),
                vdot (item triclinic_cell 2) (item triclinic_cell 0),
                vdot (item triclinic_cell 0) (item triclinic_cell 1)) = (1, 1, 1)).
  { unfold triclinic_cell. zcompute. cbv [vdot]. f_equal; [f_equal|]; lra. }
  assert (G : forall reduce : bool,
            (if reduce then fst (niggli_reduce triclinic_cell) else triclinic_cell)
            = triclinic_cell ->
            get_bravais_lattice triclinic_cell default_eps reduce
            = get_bravais_lattice triclinic_cell default_eps false).
  { intros reduce Hred. unfold get_bravais_lattice. rewrite Hred. reflexivity. }
  cut (categorize_differences default_eps (fst (Cell_cellpar triclinic_cell))
         = Return (false, true, None)
       /\ categorize_differences default_eps (snd (Cell_cellpar triclinic_cell))
          = Return (false, true, None)
       /\ get_bravais_lattice triclinic_cell default_eps false =
            match check (Cell_cellpar triclinic_cell) TRI
                    (cellpar_list (Cell_cellpar triclinic_cell)) 0 with
            | Return (Some _) => Raise NameError
            | Return None => Raise RuntimeError
            | Raise e => Raise e
            end).
  { intros [T1 [T2 T3]]. split; [exact T1|]. split; [exact T2|].
    intros reduce Hred. rewrite (G reduce Hred). exact T3. }
  clear G.
  unfold get_bravais_lattice. rewrite EP.
  unfold triclinic_cell, Cell_cellpar. cbn [fst snd].
  rewrite N0.
  set (B := norm (0.5, 3, 0)) in *.
  set (C := norm (0.5, 0.25, 5)) in *.
  unfold angle. fold B. fold C. rewrite N0.
  replace (vdot (0.5, 3, 0) (0.5, 0.25, 5)) with 1 by (cbv [vdot]; lra).
  replace (vdot (2, 0, 0) (0.5, 0.25, 5)) with 1 by (cbv [vdot]; lra).
  replace (vdot (2, 0, 0) (0.5, 3, 0)) with 1 by (cbv [vdot]; lra).
  assert (Xa : 0.0650 <= 1 / (B * C) <= 0.0655).
  { assert (15.29 <= B * C <= 15.38) by nra.
    split.
    - apply Rmult_le_reg_r with (B * C); [lra|].
      replace (1 / (B * C) * (B * C)) with 1 by (field; lra). nra.
    - apply Rmult_le_reg_r with (B * C); [lra|].
      replace (1 / (B * C) * (B * C)) with 1 by (field; lra). nra. }
  assert (Xb : 0.0992 <= 1 / (2 * C) <= 0.0995).
  { split.
    - apply Rmult_le_reg_r with (2 * C); [lra|].
      replace (1 / (2 * C) * (2 * C)) with 1 by (field; lra). nra.
    - apply Rmult_le_reg_r with (2 * C); [lra|].
      replace (1 / (2 * C) * (2 * C)) with 1 by (field; lra). nra. }
  assert (Xc : 0.1639 <= 1 / (2 * B) <= 0.1645).
  { split.
    - apply Rmult_le_reg_r with (2 * B); [lra|].
      replace (1 / (2 * B) * (2 * B)) with 1 by (field; lra). nra.
    - apply Rmult_le_reg_r with (2 * B); [lra|].
      replace (1 / (2 * B) * (2 * B)) with 1 by (field; lra). nra. }
  set (xa := 1 / (B * C)) in *.
  set (xb := 1 / (2 * C)) in *.
  set (xc := 1 / (2 * B)) in *.
  pose proof (degrees_apart xb xc ltac:(lra) ltac:(lra)) as Dbc.
  pose proof (degrees_apart xc xa ltac:(lra) ltac:(lra)) as Dca.
  pose proof (degrees_apart xa xb ltac:(lra) ltac:(lra)) as Dab.
  pose proof (degrees_below_90 xa ltac:(lra)) as Da.
  set (alpha := acos xa * 180 / PI) in *.
  set (beta := acos xb * 180 / PI) in *.
  set (gamma := acos xc * 180 / PI) in *.
  assert (EL : categorize_differences default_eps (2, B, C) = Return (false, true, None)).
  { apply categorize_all_different; apply Rabs_ge_iff; unfold default_eps; lra. }
  assert (EA : categorize_differences default_eps (alpha, beta, gamma)
               = Return (false, true, None)).
  { apply categorize_all_different; unfold default_eps.
    - rewrite (Rabs_left (xb - xc)) in Dbc by lra. lra.
    - rewrite (Rabs_right (xc - xa)) in Dca by lra. lra.
    - rewrite (Rabs_left (xa - xb)) in Dab by lra. lra. }
  split; [exact EL|]. split; [exact EA|].
  rewrite EL. cbn [bind]. rewrite EA. cbn [bind].
  rewrite (categorize_all_equal default_eps 1 1 1) by (apply Rabs_0_lt; lra).
  cbn [bind].
  unfold test_cubic, test_BCT, test_HEX, test_TET, test_ORCC. cbn [seq].
  unfold test_ORC. cbn [to_list].
  rewrite allclose_first_far
    by (unfold default_rtol, default_eps;
        rewrite (Rabs_left (alpha - 90)), (Rabs_right 90) by lra; lra).
  cbn [andb seq].
  unfold test_ORCF. rewrite noduplicates_equal by lra. cbn [andb seq].
  unfold test_ORCI, test_RHL, test_MCL, test_MCLC. cbn [seq].
  unfold test_TRI, try.
  destruct (check _ _ _ _) as [[obj|]|e]; reflexivity.
Qed.

End TriclinicExample.

(** C4 does not hold on the code.  Whatever the cell, the tolerance and
    the reduction flag, the classifier does not return a [TRI] lattice:
    the last stage of the cascade raises [NameError] when the triclinic
    test matches and the generic error when it does not.  The cell
    [triclinic_cell], whose lengths and angles are all different and
    which no earlier test matches, reaches that stage and is answered
    with an exception, without reduction and with a reduction that
    leaves the cell, which is in normal form, as it is. *)
Theorem triclinic_never_returned {ops : CellOps}
    (uc : matrix) (eps : R) (reduce : bool) :
  returns_family TRI (get_bravais_lattice uc eps reduce) = false
  /\ run (test_TRI (Cell_cellpar uc) >> Exc RuntimeError) =
       match check (Cell_cellpar uc) TRI (cellpar_list (Cell_cellpar uc)) 0 with
       | Return (Some _) => Raise NameError
       | Return None => Raise RuntimeError
       | Raise e => Raise e
       end
  /\ categorize_differences default_eps (fst (Cell_cellpar triclinic_cell))
     = Return (false, true, None)
  /\ categorize_differences default_eps (snd (Cell_cellpar triclinic_cell))
     = Return (false, true, None)
  /\ get_bravais_lattice triclinic_cell default_eps false
     = run (test_TRI (Cell_cellpar triclinic_cell) >> Exc RuntimeError)
  /\ (exists e, get_bravais_lattice triclinic_cell default_eps false = Raise e)
  /\ (fst (niggli_reduce triclinic_cell) = triclinic_cell ->
      exists e, get_bravais_lattice triclinic_cell default_eps true = Raise e).
Proof.
  destruct (TRI_not_returned uc eps reduce) as [G1 G2].
  destruct triclinic_cell_is_not_classified as [T1 [T2 T3]].
  destruct (TRI_not_returned triclinic_cell default_eps false) as [_ G3].
  split; [exact G1|]. split; [exact G2|].
  split; [exact T1|]. split; [exact T2|].
  split; [rewrite G3; apply (T3 false); reflexivity|].
  split.
  - rewrite (T3 false) by reflexivity. clear.
    destruct (check _ _ _ _) as [[obj|]|e]; eexists; reflexivity.
  - intros Hred. rewrite (T3 true) by exact Hred. clear.
    destruct (check _ _ _ _) as [[obj|]|e]; eexists; reflexivity.
Qed.

(** ** The assertion on the equality pattern *)

(** C8 fails on the code: closeness within [eps] is not transitive.  Of
    the lengths [1, 1.00015, 1.0003] the first two and the last two are
    within [2e-4] of each other, the first and the last are not:
    exactly two pairs are equal and the assertion fails.  The failure
    reaches the caller of the classifier, here for the orthogonal cell
    with these lengths, without reduction and with a reduction that
    leaves the cell as it is. *)
Theorem two_equal_pairs_possible {ops : CellOps} :
  eq_flags default_eps (1, 1.00015, 1.0003) = [true; false; true]
  /\ categorize_differences default_eps (1, 1.00015, 1.0003) = Raise AssertionError
  /\ get_bravais_lattice (diag (1, 1.00015, 1.0003)) default_eps false
     = Raise AssertionError
  /\ (fst (niggli_reduce (diag (1, 1.00015, 1.0003))) = diag (1, 1.00015, 1.0003) ->
      get_bravais_lattice (diag (1, 1.00015, 1.0003)) default_eps true
      = Raise AssertionError).
Proof.
  assert (E : eq_flags default_eps (1, 1.00015, 1.0003) = [true; false; true]).
  { unfold eq_flags, default_eps.
    replace (Rltb (Rabs (1.00015 - 1.0003)) 2e-4) with true
      by (symmetry; apply Rltb_lt; rewrite Rabs_left by lra; lra).
    replace (Rltb (Rabs (1.0003 - 1)) 2e-4) with false
      by (symmetry; apply Rltb_ge; rewrite Rabs_right by lra; lra).
    replace (Rltb (Rabs (1 - 1.00015)) 2e-4) with true
      by (symmetry; apply Rltb_lt; rewrite Rabs_left by lra; lra).
    reflexivity. }
  assert (C : categorize_differences default_eps (1, 1.00015, 1.0003)
              = Raise AssertionError).
  { unfold categorize_differences. rewrite E. reflexivity. }
  split; [exact E|]. split; [exact C|].
  split.
  - unfold get_bravais_lattice.
    rewrite cellpar_diag by lra. cbn [fst snd].
    rewrite C. reflexivity.
  - intros Hred. unfold get_bravais_lattice. rewrite Hred.
    rewrite cellpar_diag by lra. cbn [fst snd].
    rewrite C. reflexivity.
Qed.

(** ** Rhombohedral cells *)

Section RoundTripRhombohedral.

Context {ops : CellOps}.

Lemma RHL_constructs (a alpha : R) : alpha < 120 ->
  exists v, call RHL [a; alpha] =
    Return (mkLattice RHL (Some [("a", a); ("alpha", alpha)]) (Some default_eps)
              (Some v)).
Proof.
  intros H. unfold call, new, RHL__init__.
  rewrite (Rleb_gt 120 alpha) by lra.
  unfold BravaisLattice__init__, get_variant, _variant_name. cbn.
  unfold RHL_variant_name.
  destruct (Rltb alpha 90); cbn; eexists; reflexivity.
Qed.

(** Half the angle of a rhombohedral cell lies below 60 degrees: its
    cosine lies between one half and one. *)
Lemma cos_half_angle (alpha : R) : 0 < alpha < 120 ->
  1 / 2 < cos (0.5 * (alpha * (PI / 180))) < 1.
Proof.
  intros H. pose proof PI_RGT_0 as HP.
  set (h := 0.5 * (alpha * (PI / 180))).
  assert (Hh : 0 < h < PI / 3).
  { unfold h. assert (Hk : 0 < PI / 180) by lra. split.
    - apply Rmult_lt_0_compat; [lra|]. apply Rmult_lt_0_compat; lra.
    - replace (PI / 3) with (0.5 * (120 * (PI / 180))) by lra.
      apply Rmult_lt_compat_l; [lra|]. apply Rmult_lt_compat_r; lra. }
  split.
  - rewrite <- cos_PI3. apply cos_decreasing_1; lra.
  - rewrite <- cos_0. apply cos_decreasing_1; lra.
Qed.

Lemma RHL_cell_defined (a alpha : R) : 0 < a -> 0 < alpha < 120 ->
  let t := alpha * (PI / 180) in
  let c := cos (0.5 * t) in
  let s := sin (0.5 * t) in
  0 < 1 - (a * cos t / (a * c)) ^ 2
  /\ RHL_cell a alpha =
       Return ((a * c, - (a * s), 0), (a * c, a * s, 0),
               (a * (a * cos t / (a * c)), 0, a * sqrt (1 - (a * cos t / (a * c)) ^ 2))).
Proof.
  intros Ha Hal t c s.
  pose proof (cos_half_angle alpha Hal) as Hc. fold t in Hc. fold c in Hc.
  assert (Ht : cos t = 2 * c * c - 1).
  { replace t with (2 * (0.5 * t)) by lra. apply cos_2a_cos. }
  assert (Hx : 0 < 1 - (a * cos t / (a * c)) ^ 2).
  { replace (a * cos t / (a * c)) with (cos t / c) by (field; lra).
    assert (E : 1 - (cos t / c) ^ 2 = (c * c - cos t * cos t) / (c * c))
      by (field; lra).
    rewrite E. apply Rdiv_lt_0_compat; [|nra].
    rewrite Ht.
    assert (Hu : 1 / 4 < c * c < 1) by nra.
    pose proof (Rmult_lt_0_compat (4 * (c * c) - 1) (1 - c * c)
                  ltac:(lra) ltac:(lra)).
    nra. }
  split; [exact Hx|].
  unfold RHL_cell. fold t. fold c. fold s.
  rewrite (Rltb_lt _ _ Hx). reflexivity.
Qed.

Lemma RHL_tocell (a alpha : R) e v : 0 < a -> 0 < alpha < 120 ->
  tocell (mkLattice RHL (Some [("a", a); ("alpha", alpha)]) e v) 0 = RHL_cell a alpha.
Proof.
  intros Ha Hal. destruct (RHL_cell_defined a alpha Ha Hal) as [_ E].
  unfold tocell. cbn. rewrite E. reflexivity.
Qed.

Lemma cellpar_RHL (a alpha : R) (cell : matrix) : 0 < a -> 0 < alpha < 120 ->
  RHL_cell a alpha = Return cell ->
  Cell_cellpar cell = ((a, a, a), (alpha, alpha, alpha))
  /\ (vdot (item cell 1) (item cell 2), vdot (item cell 2) (item cell 0),
      vdot (item cell 0) (item cell 1))
     = (a * a * cos (alpha * (PI / 180)), a * a * cos (alpha * (PI / 180)),
        a * a * cos (alpha * (PI / 180))).
Proof.
  intros Ha Hal Hcell.
  destruct (RHL_cell_defined a alpha Ha Hal) as [Hx E].
  rewrite E in Hcell. inversion Hcell; subst cell; clear Hcell E.
  pose proof (cos_half_angle alpha Hal) as Hc.
  set (t := alpha * (PI / 180)) in *.
  set (c := cos (0.5 * t)) in *.
  set (s := sin (0.5 * t)) in *.
  assert (Ht : cos t = 2 * c * c - 1).
  { replace t with (2 * (0.5 * t)) by lra. apply cos_2a_cos. }
  assert (Hs : s * s + c * c = 1) by apply sin2_cos2'.
  set (q := a * cos t / (a * c)) in *.
  assert (Hq : c * q = cos t) by (unfold q; field; lra).
  assert (Hn : forall u, vdot u u = a * a -> norm u = a).
  { intros u Eu. unfold norm. rewrite Eu. apply sqrt_square. lra. }
  assert (Hr : sqrt (1 - q ^ 2) * sqrt (1 - q ^ 2) = 1 - q ^ 2)
    by (apply sqrt_sqrt; lra).
  assert (P : (vdot (a * c, a * s, 0) (a * q, 0, a * sqrt (1 - q ^ 2)),
               vdot (a * q, 0, a * sqrt (1 - q ^ 2)) (a * c, - (a * s), 0),
               vdot (a * c, - (a * s), 0) (a * c, a * s, 0))
              = (a * a * cos t, a * a * cos t, a * a * cos t)).
  { cbv [vdot]. f_equal; [f_equal|]; nra. }
  replace (q * (q * 1)) with (q ^ 2) by ring.
  split.
  - unfold Cell_cellpar, angle.
    rewrite (Hn (a * c, - (a * s), 0)) by (cbv [vdot]; nra).
    rewrite (Hn (a * c, a * s, 0)) by (cbv [vdot]; nra).
    rewrite (Hn (a * q, 0, a * sqrt (1 - q ^ 2))) by (cbv [vdot]; nra).
    assert (A : forall x, x = a * a * cos t -> acos (x / (a * a)) * 180 / PI = alpha).
    { intros x ->. replace (a * a * cos t / (a * a)) with (cos t) by (field; lra).
      apply acos_cos_degrees. lra. }
    rewrite (A (vdot (a * c, a * s, 0) (a * q, 0, a * sqrt (1 - q ^ 2))))
      by (cbv [vdot]; nra).
    rewrite (A (vdot (a * c, - (a * s), 0) (a * q, 0, a * sqrt (1 - q ^ 2))))
      by (cbv [vdot]; nra).
    rewrite (A (vdot (a * c, - (a * s), 0) (a * c, a * s, 0)))
      by (cbv [vdot]; nra).
    reflexivity.
  - zcompute. exact P.
Qed.

Lemma classify_RHL (eps a alpha : R) (lat : BravaisLattice) (cell : matrix) :
  0 < eps <= 1 -> 0 < a -> 0 < alpha < 120 ->
  eps + default_rtol * Rabs 90 < Rabs (alpha - 90) ->
  eps + default_rtol * Rabs 60 < Rabs (alpha - 60) ->
  eps + default_rtol * Rabs (acos (- 1 / 3) * 180 / PI)
    < Rabs (alpha - acos (- 1 / 3) * 180 / PI) ->
  call RHL [a; alpha] = Return lat ->
  RHL_cell a alpha = Return cell ->
  forall reduce : bool,
  (if reduce then fst (niggli_reduce cell) else cell) = cell ->
  get_bravais_lattice cell eps reduce = Return (lat, []).
Proof.
  intros [He He1] Ha Hal H90 H60 Hbcc Hcall Hcell reduce Hred.
  destruct (cellpar_RHL a alpha cell Ha Hal Hcell) as [Hcp Hpr].
  unfold get_bravais_lattice. rewrite Hred. rewrite Hpr, Hcp. cbn [fst snd].
  rewrite categorize_all_equal by (apply Rabs_0_lt; lra). cbn [bind].
  rewrite categorize_all_equal by (apply Rabs_0_lt; lra). cbn [bind].
  rewrite categorize_all_equal by (apply Rabs_0_lt; lra). cbn [bind].
  unfold test_cubic. cbn [to_list].
  rewrite (allclose_far eps alpha 90) by exact H90.
  rewrite (allclose_far eps alpha 60) by exact H60.
  rewrite (allclose_far eps alpha _) by exact Hbcc.
  cbn [seq].
  unfold test_BCT, test_HEX, test_TET, test_ORCC. cbn [seq].
  unfold test_ORC. cbn [to_list].
  rewrite (allclose_far eps alpha 90) by exact H90. cbn [andb seq].
  unfold test_ORCF. cbn [andb seq].
  unfold test_ORCI. zcompute. unfold map3.
  rewrite noduplicates_equal by lra. rewrite Bool.andb_false_r. cbn [seq].
  unfold test_RHL. zcompute.
  replace (a * a * cos (alpha * (PI / 180)) / a ^ 2) with (cos (alpha * (PI / 180)))
    by (field; lra).
  rewrite acos_cos_degrees by lra.
  rewrite Hcall. reflexivity.
Qed.

Lemma round_trip_RHL (eps a alpha : R) :
  0 < eps <= 1 -> 0 < a -> 0 < alpha < 120 ->
  eps + default_rtol * Rabs 90 < Rabs (alpha - 90) ->
  eps + default_rtol * Rabs 60 < Rabs (alpha - 60) ->
  eps + default_rtol * Rabs (acos (- 1 / 3) * 180 / PI)
    < Rabs (alpha - acos (- 1 / 3) * 180 / PI) ->
  round_trip false RHL [a; alpha] eps.
Proof.
  intros He Ha Hal H90 H60 Hbcc.
  destruct (RHL_constructs a alpha ltac:(lra)) as [v Hv].
  destruct (RHL_cell_defined a alpha Ha Hal) as [_ Ecell].
  split.
  - eexists. eexists. split; [exact Hv|].
    rewrite RHL_tocell by assumption. exact Ecell.
  - intros lat cell Hcall Hcell.
    exists lat. split; [exact Hcall|].
    rewrite Hv in Hcall. inversion Hcall; subst lat.
    rewrite RHL_tocell in Hcell by assumption.
    apply (classify_RHL eps a alpha _ cell He Ha Hal H90 H60 Hbcc Hv Hcell false eq_refl).
Qed.

End RoundTripRhombohedral.

(** ** Base-centred orthorhombic cells *)

Lemma allclose_third_far (eps x y z w : R) :
  eps + default_rtol * Rabs w < Rabs (z - w) ->
  allclose eps [x; y; z] (broadcast 3 w) = false.
Proof.
  intros H. unfold allclose, np_allclose, broadcast. cbn [repeat combine forallb fst snd].
  unfold isclose. rewrite (Rleb_gt (Rabs (z - w))) by exact H.
  rewrite !Bool.andb_false_r. reflexivity.
Qed.

(** Degrees above the right angle, for a negative cosine. *)
Lemma degrees_above_90 (x : R) : 0 <= x <= 1 ->
  90 + 45 * x <= acos (- x) * 180 / PI.
Proof.
  intros Hx. pose proof (acos_neg_ge_shift x Hx) as H.
  pose proof PI_RGT_0 as HP. pose proof PI_4 as H4.
  apply Rmult_le_reg_r with PI; [exact HP|].
  replace (acos (- x) * 180 / PI * PI) with (acos (- x) * 180) by (field; lra).
  nra.
Qed.

Lemma degrees_120 : acos (- (1 / 2)) * 180 / PI = 120.
Proof. rewrite acos_neg_half. field. exact PI_neq0'. Qed.

Section RoundTripBaseCentred.

Context {ops : CellOps}.

Lemma ORCC_constructs (a b c : R) : a < b ->
  call ORCC [a; b; c] =
    Return (mkLattice ORCC (Some [("a", a); ("b", b); ("c", c)]) (Some default_eps)
              (get (variants ORCC) "ORCC")).
Proof.
  intros H. unfold call, new, Orthorhombic__init__, BravaisLattice__init__,
    get_variant, _variant_name. cbn.
  unfold ORCC_variant_name. rewrite (Rltb_lt a b) by exact H. reflexivity.
Qed.

Lemma ORCC_tocell (a b c : R) e v :
  tocell (mkLattice ORCC (Some [("a", a); ("b", b); ("c", c)]) e v) 0 =
    Return ((0.5 * a, - 0.5 * b, 0), (0.5 * a, 0.5 * b, 0), (0, 0, c)).
Proof. reflexivity. Qed.

Lemma cellpar_ORCC (a b c : R) : 0 < a -> 0 < b -> 0 < c ->
  let L := sqrt ((a * a + b * b) / 4) in
  Cell_cellpar ((0.5 * a, - 0.5 * b, 0), (0.5 * a, 0.5 * b, 0), (0, 0, c)) =
    ((L, L, c),
     (90, 90, acos (- ((b * b - a * a) / (a * a + b * b))) * 180 / PI)).
Proof.
  intros Ha Hb Hc L.
  assert (HL : forall u, vdot u u = (a * a + b * b) / 4 -> norm u = L).
  { intros u E. unfold norm, L. now rewrite E. }
  assert (HLL : L * L = (a * a + b * b) / 4) by (apply sqrt_sqrt; nra).
  unfold Cell_cellpar.
  rewrite norm_z by lra.
  rewrite (angle_orthogonal (0.5 * a, 0.5 * b, 0) (0, 0, c)) by (cbv [vdot]; lra).
  rewrite (angle_orthogonal (0.5 * a, - 0.5 * b, 0) (0, 0, c)) by (cbv [vdot]; lra).
  unfold angle.
  rewrite (HL (0.5 * a, - 0.5 * b, 0)) by (cbv [vdot]; lra).
  rewrite (HL (0.5 * a, 0.5 * b, 0)) by (cbv [vdot]; lra).
  rewrite HLL.
  replace (vdot (0.5 * a, - 0.5 * b, 0) (0.5 * a, 0.5 * b, 0))
    with (- ((b * b - a * a) / 4)) by (cbv [vdot]; lra).
  replace (- ((b * b - a * a) / 4) / ((a * a + b * b) / 4))
    with (- ((b * b - a * a) / (a * a + b * b))) by (field; nra).
  reflexivity.
Qed.

Lemma products_ORCC (a b c : R) :
  let m := ((0.5 * a, - 0.5 * b, 0), (0.5 * a, 0.5 * b, 0), (0, 0, c)) in
  (vdot (item m 1) (item m 2), vdot (item m 2) (item m 0), vdot (item m 0) (item m 1))
  = (0, 0, - ((b * b - a * a) / 4)).
Proof.
  zcompute. cbv [vdot]. f_equal; [f_equal|]; lra.
Qed.

(** [ORCC(a, b, c)] is found again when its centred face is neither
    square nor hexagonal and the third length differs from the other
    two. *)
Lemma classify_ORCC (eps a b c : R) :
  0 < eps <= 1 -> 0 < a -> a < b -> 0 < c ->
  eps <= Rabs (sqrt ((a * a + b * b) / 4) - c) ->
  eps < (b * b - a * a) / 4 ->
  eps + default_rtol * 90 < 45 * ((b * b - a * a) / (a * a + b * b)) ->
  eps <= 45 * Rabs ((b * b - a * a) / (a * a + b * b) - 1 / 2) ->
  let cell := ((0.5 * a, - 0.5 * b, 0), (0.5 * a, 0.5 * b, 0), (0, 0, c)) in
  forall reduce : bool,
  (if reduce then fst (niggli_reduce cell) else cell) = cell ->
  get_bravais_lattice cell eps reduce =
    Return (mkLattice ORCC (Some [("a", a); ("b", b); ("c", c)]) (Some default_eps)
              (get (variants ORCC) "ORCC"), []).
Proof.
  intros [He He1] Ha Hab Hc HLc Hp H90 H120 cell reduce Hred.
  assert (Hb : 0 < b) by lra.
  unfold get_bravais_lattice. rewrite Hred. unfold cell.
  rewrite products_ORCC. rewrite cellpar_ORCC by assumption. cbn [fst snd].
  set (L := sqrt ((a * a + b * b) / 4)) in *.
  assert (HLL : L * L = (a * a + b * b) / 4) by (apply sqrt_sqrt; nra).
  assert (HL0 : 0 < L) by (apply sqrt_lt_R0; nra).
  set (x := (b * b - a * a) / (a * a + b * b)) in *.
  assert (Hx : 0 < x < 1).
  { unfold x. split.
    - apply Rdiv_lt_0_compat; nra.
    - apply Rmult_lt_reg_r with (a * a + b * b); [nra|].
      replace ((b * b - a * a) / (a * a + b * b) * (a * a + b * b))
        with (b * b - a * a) by (field; nra).
      nra. }
  pose proof (degrees_above_90 x ltac:(lra)) as Hg.
  pose proof (degrees_apart (- x) (- (1 / 2)) ltac:(lra) ltac:(lra)) as Hd.
  rewrite degrees_120 in Hd.
  replace (- x - - (1 / 2)) with (- (x - 1 / 2)) in Hd by lra.
  rewrite Rabs_Ropp in Hd.
  set (gamma := acos (- x) * 180 / PI) in *.
  set (p := (b * b - a * a) / 4) in *.
  rewrite (categorize_third eps L L c)
    by first [assumption | rewrite Rabs_minus_sym; assumption | apply Rabs_0_lt; lra].
  cbn [bind].
  rewrite (categorize_third eps 90 90 gamma)
    by first [apply Rabs_0_lt; lra
             | unfold default_rtol in H90; apply Rabs_ge_iff; lra].
  cbn [bind].
  rewrite (categorize_third eps 0 0 (- p))
    by first [apply Rabs_0_lt; lra | apply Rabs_ge_iff; lra].
  cbn [bind].
  unfold test_cubic, test_BCT. cbn [seq].
  unfold test_HEX. zcompute.
  rewrite (Rltb_ge (Rabs (gamma - 120)) eps) by lra. cbn [andb seq].
  unfold test_TET. cbn [fst snd to_list].
  rewrite allclose_third_far
    by (unfold default_rtol in *; rewrite (Rabs_right 90) by lra;
        rewrite Rabs_right by lra; lra).
  cbn [seq].
  unfold test_ORCC. zcompute. cbn [to_list List.map].
  rewrite Rabs_R0. rewrite (Rltb_ge eps 0) by lra.
  rewrite (Rltb_lt eps (Rabs (- p))) by (rewrite Rabs_left by lra; lra).
  cbn [count_true andb Nat.eqb Nat.add].
  replace (sqrt (2 * (L ^ 2 + - p))) with a.
  2:{ replace (2 * (L ^ 2 + - p)) with (a * a) by (unfold p; nra).
      symmetry. apply sqrt_square. lra. }
  replace (sqrt (2 * (L ^ 2 - - p))) with b.
  2:{ replace (2 * (L ^ 2 - - p)) with (b * b) by (unfold p; nra).
      symmetry. apply sqrt_square. lra. }
  rewrite (Rltb_ge b a) by lra.
  rewrite ORCC_constructs by exact Hab. reflexivity.
Qed.

Lemma round_trip_ORCC (eps a b c : R) :
  0 < eps <= 1 -> 0 < a -> a < b -> 0 < c ->
  eps <= Rabs (sqrt ((a * a + b * b) / 4) - c) ->
  eps < (b * b - a * a) / 4 ->
  eps + default_rtol * 90 < 45 * ((b * b - a * a) / (a * a + b * b)) ->
  eps <= 45 * Rabs ((b * b - a * a) / (a * a + b * b) - 1 / 2) ->
  round_trip false ORCC [a; b; c] eps.
Proof.
  intros He Ha Hab Hc HLc Hp H90 H120. split.
  - eexists. eexists. split; [apply ORCC_constructs; exact Hab | apply ORCC_tocell].
  - intros lat cell Hcall Hcell.
    rewrite ORCC_constructs in Hcall by exact Hab.
    inversion Hcall; subst lat; clear Hcall.
    rewrite ORCC_tocell in Hcell. inversion Hcell; subst cell; clear Hcell.
    eexists. split; [apply ORCC_constructs; exact Hab|].
    apply classify_ORCC; first [assumption | reflexivity].
Qed.

End RoundTripBaseCentred.

(** ** Body-centred tetragonal cells *)

Lemma bcc_angle_le_180 : acos (- 1 / 3) * 180 / PI <= 180.
Proof.
  pose proof (acos_bound (- 1 / 3)) as [_ H]. pose proof PI_RGT_0 as HP.
  apply Rmult_le_reg_r with PI; [exact HP|].
  replace (acos (- 1 / 3) * 180 / PI * PI) with (acos (- 1 / 3) * 180)
    by (field; lra).
  nra.
Qed.

Section RoundTripBodyCentredTetragonal.

Context {ops : CellOps}.

Lemma BCT_constructs (a c : R) :
  exists v, call BCT [a; c] =
    Return (mkLattice BCT (Some [("a", a); ("c", c)]) (Some default_eps) (Some v)).
Proof.
  unfold call, new, BCT__init__, BravaisLattice__init__, get_variant, _variant_name.
  cbn. unfold BCT_variant_name.
  destruct (Rltb c a); cbn; eexists; reflexivity.
Qed.

Lemma BCT_tocell (a c : R) e v :
  tocell (mkLattice BCT (Some [("a", a); ("c", c)]) e v) 0 =
    Return (scale 0.5 ((- a, a, c), (a, - a, c), (a, a, - c))).
Proof. reflexivity. Qed.

Lemma cellpar_BCT (a c : R) : 0 < a -> 0 < c ->
  let L := sqrt ((2 * (a * a) + c * c) / 4) in
  let u := c * c / (2 * (a * a) + c * c) in
  Cell_cellpar (scale 0.5 ((- a, a, c), (a, - a, c), (a, a, - c))) =
    ((L, L, L),
     (acos (- u) * 180 / PI, acos (- u) * 180 / PI, acos (2 * u - 1) * 180 / PI)).
Proof.
  intros Ha Hc L u.
  assert (Hn : forall w, vdot w w = (2 * (a * a) + c * c) / 4 -> norm w = L).
  { intros w E. unfold norm, L. now rewrite E. }
  assert (HLL : L * L = (2 * (a * a) + c * c) / 4) by (apply sqrt_sqrt; nra).
  assert (Hang : forall w v x, norm w = L -> norm v = L ->
                 vdot w v = x * ((2 * (a * a) + c * c) / 4) ->
                 angle w v = acos x * 180 / PI).
  { intros w v x Ew Ev Ewv. unfold angle. rewrite Ewv, Ew, Ev, HLL.
    replace (x * ((2 * (a * a) + c * c) / 4) / ((2 * (a * a) + c * c) / 4)) with x
      by (field; nra).
    reflexivity. }
  assert (Eu : u * (2 * (a * a) + c * c) = c * c) by (unfold u; field; nra).
  unfold Cell_cellpar, scale, map3.
  rewrite !Hn by (cbv [vdot]; nra).
  rewrite (Hang (0.5 * a, 0.5 * - a, 0.5 * c) (0.5 * a, 0.5 * a, 0.5 * - c) (- u))
    by first [apply Hn; cbv [vdot]; nra | cbv [vdot]; nra].
  rewrite (Hang (0.5 * - a, 0.5 * a, 0.5 * c) (0.5 * a, 0.5 * a, 0.5 * - c) (- u))
    by first [apply Hn; cbv [vdot]; nra | cbv [vdot]; nra].
  rewrite (Hang (0.5 * - a, 0.5 * a, 0.5 * c) (0.5 * a, 0.5 * - a, 0.5 * c) (2 * u - 1))
    by first [apply Hn; cbv [vdot]; nra | cbv [vdot]; nra].
  reflexivity.
Qed.

Lemma products_BCT (a c : R) :
  let m := scale 0.5 ((- a, a, c), (a, - a, c), (a, a, - c)) in
  (vdot (item m 1) (item m 2), vdot (item m 2) (item m 0), vdot (item m 0) (item m 1))
  = (- (c * c / 4), - (c * c / 4), (c * c - 2 * (a * a)) / 4).
Proof.
  cbv [scale map3]. zcompute. cbv [vdot]. f_equal; [f_equal|]; lra.
Qed.

(** [BCT(a, c)] is found again when [a] and [c] differ enough for its
    cell not to pass for body-centred cubic. *)
Lemma classify_BCT (eps a c : R) (lat : BravaisLattice) :
  0 < eps <= 1 -> 0 < a -> 0 < c ->
  eps + default_rtol * 180
    < 90 * Rabs (c * c / (2 * (a * a) + c * c) - 1 / 3) ->
  call BCT [a; c] = Return lat ->
  let cell := scale 0.5 ((- a, a, c), (a, - a, c), (a, a, - c)) in
  forall reduce : bool,
  (if reduce then fst (niggli_reduce cell) else cell) = cell ->
  get_bravais_lattice cell eps reduce = Return (lat, []).
Proof.
  intros [He He1] Ha Hc Hfar Hcall cell reduce Hred.
  assert (Htc : tocell lat 0 = Return cell).
  { destruct (BCT_constructs a c) as [v Hv]. rewrite Hv in Hcall.
    inversion Hcall; subst lat. apply BCT_tocell. }
  unfold get_bravais_lattice. rewrite Hred.
  assert (Ecp := cellpar_BCT a c Ha Hc). cbv zeta in Ecp. fold cell in Ecp.
  assert (Epr := products_BCT a c). cbv zeta in Epr. fold cell in Epr.
  rewrite Epr.
  set (L := sqrt ((2 * (a * a) + c * c) / 4)) in *.
  set (u := c * c / (2 * (a * a) + c * c)) in *.
  assert (HLL : L * L = (2 * (a * a) + c * c) / 4) by (apply sqrt_sqrt; nra).
  assert (HL0 : 0 < L) by (apply sqrt_lt_R0; nra).
  assert (Hu : 0 < u < 1).
  { unfold u. split.
    - apply Rdiv_lt_0_compat; nra.
    - apply Rmult_lt_reg_r with (2 * (a * a) + c * c); [nra|].
      replace (c * c / (2 * (a * a) + c * c) * (2 * (a * a) + c * c))
        with (c * c) by (field; nra).
      nra. }
  pose proof bcc_angle_bound as Hb1. pose proof bcc_angle_le_180 as Hb2.
  set (theta := acos (- 1 / 3) * 180 / PI) in *.
  pose proof (degrees_above_90 u ltac:(lra)) as Ha90.
  pose proof (degrees_apart (- u) (2 * u - 1) ltac:(lra) ltac:(lra)) as Hag.
  pose proof (degrees_apart (2 * u - 1) (- 1 / 3) ltac:(lra) ltac:(lra)) as Hgt.
  fold theta in Hgt.
  set (alpha := acos (- u) * 180 / PI) in *.
  set (gamma := acos (2 * u - 1) * 180 / PI) in *.
  unfold default_rtol in Hfar.
  assert (Hd : 1 / 90 * eps < Rabs (u - 1 / 3)) by lra.
  assert (Hag' : eps <= Rabs (alpha - gamma)).
  { replace (- u - (2 * u - 1)) with (- (3 * (u - 1 / 3))) in Hag by lra.
    rewrite Rabs_Ropp, Rabs_mult, (Rabs_right 3) in Hag by lra. lra. }
  assert (Hgt' : eps + default_rtol * Rabs theta < Rabs (gamma - theta)).
  { replace (2 * u - 1 - - 1 / 3) with (2 * (u - 1 / 3)) in Hgt by lra.
    rewrite Rabs_mult, (Rabs_right 2) in Hgt by lra.
    unfold default_rtol. rewrite (Rabs_right theta) by lra. lra. }
  assert (H90 : allclose eps [alpha; alpha; gamma] (broadcast 3 90) = false).
  { destruct (Rle_dec (1 / 20) u) as [Hu3|Hu3].
    - apply allclose_first_far. unfold default_rtol.
      rewrite (Rabs_right 90) by lra. rewrite Rabs_right by lra. lra.
    - apply allclose_third_far. unfold default_rtol.
      pose proof (degrees_above_90 (1 - 2 * u) ltac:(lra)) as Hg90.
      replace (- (1 - 2 * u)) with (2 * u - 1) in Hg90 by lra. fold gamma in Hg90.
      rewrite (Rabs_right 90) by lra. rewrite Rabs_right by lra. lra. }
  rewrite Ecp. cbn [fst snd].
  rewrite categorize_all_equal by (apply Rabs_0_lt; lra). cbn [bind].
  rewrite (categorize_third eps alpha alpha gamma)
    by first [apply Rabs_0_lt; lra | exact Hag'
             | rewrite Rabs_minus_sym; exact Hag'].
  cbn [bind].
  destruct (categorize_pair eps (- (c * c / 4)) ((c * c - 2 * (a * a)) / 4) He)
    as [Ep|Ep]; rewrite Ep; cbn [bind].
  all: unfold test_cubic; cbn [to_list]; fold theta.
  all: rewrite H90.
  all: rewrite (allclose_first_far eps alpha alpha gamma 60)
         by (unfold default_rtol; rewrite (Rabs_right 60), Rabs_right by lra; lra).
  all: rewrite (allclose_third_far eps alpha alpha gamma theta) by exact Hgt'.
  all: cbn [seq].
  all: unfold test_BCT; zcompute.
  all: replace (2.0 * sqrt (- - (c * c / 4))) with c
         by (replace (- - (c * c / 4)) with (c / 2 * (c / 2)) by lra;
             rewrite sqrt_square by lra; lra).
  all: replace (sqrt (2.0 * L ^ 2 - 0.5 * c ^ 2)) with a
         by (replace (2.0 * L ^ 2 - 0.5 * c ^ 2) with (a * a) by nra;
             symmetry; apply sqrt_square; lra).
  all: unfold check; rewrite Hcall; cbn [bind]; rewrite Htc, Ecp; zcompute.
  all: rewrite np_allclose_refl
         by (unfold default_rtol, default_atol; lra).
  all: reflexivity.
Qed.

Lemma round_trip_BCT (eps a c : R) :
  0 < eps <= 1 -> 0 < a -> 0 < c ->
  eps + default_rtol * 180
    < 90 * Rabs (c * c / (2 * (a * a) + c * c) - 1 / 3) ->
  round_trip false BCT [a; c] eps.
Proof.
  intros He Ha Hc Hfar.
  destruct (BCT_constructs a c) as [v Hv].
  split.
  - eexists. eexists. split; [exact Hv | apply BCT_tocell].
  - intros lat cell Hcall Hcell.
    exists lat. split; [exact Hcall|].
    pose proof Hcall as Hcall'.
    rewrite Hv in Hcall'. inversion Hcall'; subst lat; clear Hcall'.
    rewrite BCT_tocell in Hcell. inversion Hcell; subst cell; clear Hcell.
    apply (classify_BCT eps a c _ He Ha Hc Hfar Hcall false eq_refl).
Qed.

End RoundTripBodyCentredTetragonal.

(** ** Body-centred orthorhombic cells *)

(** Three angles whose first and last are further apart than twice the
    tolerance are not all close to one value. *)
Lemma allclose_spread (eps x y z w : R) :
  2 * (eps + default_rtol * Rabs w) < Rabs (x - z) ->
  allclose eps [x; y; z] (broadcast 3 w) = false.
Proof.
  intros H. unfold allclose, np_allclose, broadcast. cbn [repeat combine forallb fst snd].
  unfold isclose.
  destruct (Rleb (Rabs (x - w)) _) eqn:E1; [|reflexivity].
  destruct (Rleb (Rabs (z - w)) _) eqn:E3;
    [|rewrite !Bool.andb_false_r; reflexivity].
  exfalso. apply Rleb_true in E1. apply Rleb_true in E3.
  pose proof (Rabs_triang (x - w) (w - z)) as T.
  replace (x - w + (w - z)) with (x - z) in T by ring.
  rewrite (Rabs_minus_sym w z) in T. lra.
Qed.

Lemma noduplicates_sorted (eps x y z : R) :
  0 <= eps -> x + eps < y -> y + eps < z -> noduplicates eps (x, y, z) = true.
Proof.
  intros He H1 H2. unfold noduplicates, sort.
  rewrite argsort_sorted by lra. zcompute.
  apply Rltb_lt. rewrite !Rabs_right by lra.
  apply Rmin_glb_lt; lra.
Qed.

Section RoundTripBodyCentred.

Context {ops : CellOps}.

Lemma ORCI_constructs (a b c : R) : a < b -> b < c ->
  call ORCI [a; b; c] =
    Return (mkLattice ORCI (Some [("a", a); ("b", b); ("c", c)]) (Some default_eps)
              (get (variants ORCI) "ORCI")).
Proof.
  intros H1 H2. unfold call, new, Orthorhombic__init__, BravaisLattice__init__,
    get_variant, _variant_name. cbn.
  unfold ORCI_variant_name, check_orc.
  rewrite (Rltb_lt a b), (Rltb_lt b c) by assumption. reflexivity.
Qed.

Lemma ORCI_tocell (a b c : R) e v :
  tocell (mkLattice ORCI (Some [("a", a); ("b", b); ("c", c)]) e v) 0 =
    Return (scale 0.5 ((- a, b, c), (a, - b, c), (a, b, - c))).
Proof. reflexivity. Qed.

Lemma cellpar_ORCI (a b c : R) : 0 < a -> 0 < b -> 0 < c ->
  let S := a * a + b * b + c * c in
  let L := sqrt (S / 4) in
  Cell_cellpar (scale 0.5 ((- a, b, c), (a, - b, c), (a, b, - c))) =
    ((L, L, L),
     (acos (2 * (a * a / S) - 1) * 180 / PI,
      acos (2 * (b * b / S) - 1) * 180 / PI,
      acos (2 * (c * c / S) - 1) * 180 / PI)).
Proof.
  intros Ha Hb Hc S L.
  assert (HS : 0 < S) by (unfold S; nra).
  assert (Hn : forall w, vdot w w = S / 4 -> norm w = L).
  { intros w E. unfold norm, L. now rewrite E. }
  assert (HLL : L * L = S / 4) by (apply sqrt_sqrt; lra).
  assert (Hang : forall w v x, norm w = L -> norm v = L ->
                 vdot w v = x * (S / 4) -> angle w v = acos x * 180 / PI).
  { intros w v x Ew Ev Ewv. unfold angle. rewrite Ewv, Ew, Ev, HLL.
    replace (x * (S / 4) / (S / 4)) with x by (field; lra).
    reflexivity. }
  assert (Ea : a * a / S * S = a * a) by (field; lra).
  assert (Eb : b * b / S * S = b * b) by (field; lra).
  assert (Ec : c * c / S * S = c * c) by (field; lra).
  unfold Cell_cellpar, scale, map3.
  rewrite !Hn by (cbv [vdot]; unfold S; lra).
  rewrite (Hang (0.5 * a, 0.5 * - b, 0.5 * c) (0.5 * a, 0.5 * b, 0.5 * - c)
             (2 * (a * a / S) - 1))
    by first [apply Hn; cbv [vdot]; unfold S; lra | cbv [vdot]; unfold S in *; lra].
  rewrite (Hang (0.5 * - a, 0.5 * b, 0.5 * c) (0.5 * a, 0.5 * b, 0.5 * - c)
             (2 * (b * b / S) - 1))
    by first [apply Hn; cbv [vdot]; unfold S; lra | cbv [vdot]; unfold S in *; lra].
  rewrite (Hang (0.5 * - a, 0.5 * b, 0.5 * c) (0.5 * a, 0.5 * - b, 0.5 * c)
             (2 * (c * c / S) - 1))
    by first [apply Hn; cbv [vdot]; unfold S; lra | cbv [vdot]; unfold S in *; lra].
  reflexivity.
Qed.

Lemma products_ORCI (a b c : R) :
  let m := scale 0.5 ((- a, b, c), (a, - b, c), (a, b, - c)) in
  (vdot (item m 1) (item m 2), vdot (item m 2) (item m 0), vdot (item m 0) (item m 1))
  = ((a * a - b * b - c * c) / 4, (b * b - a * a - c * c) / 4,
     (c * c - a * a - b * b) / 4).
Proof.
  cbv [scale map3]. zcompute. cbv [vdot]. f_equal; [f_equal|]; lra.
Qed.

(** [ORCI(a, b, c)] is found again when its three lengths are far
    enough apart. *)
Lemma classify_ORCI (eps a b c : R) :
  0 < eps <= 1 -> 0 < a -> a < b -> b < c ->
  2 * eps <= b * b - a * a -> 2 * eps <= c * c - b * b ->
  eps <= 90 * ((b * b - a * a) / (a * a + b * b + c * c)) ->
  eps <= 90 * ((c * c - b * b) / (a * a + b * b + c * c)) ->
  2 * (eps + default_rtol * 180)
    < 90 * ((c * c - a * a) / (a * a + b * b + c * c)) ->
  let cell := scale 0.5 ((- a, b, c), (a, - b, c), (a, b, - c)) in
  forall reduce : bool,
  (if reduce then fst (niggli_reduce cell) else cell) = cell ->
  get_bravais_lattice cell eps reduce =
    Return (mkLattice ORCI (Some [("a", a); ("b", b); ("c", c)]) (Some default_eps)
              (get (variants ORCI) "ORCI"), []).
Proof.
  intros [He He1] Ha Hab Hbc Hab2 Hbc2 Hdab Hdbc Hspread cell reduce Hred.
  assert (Hb : 0 < b) by lra. assert (Hc : 0 < c) by lra.
  unfold get_bravais_lattice. rewrite Hred.
  assert (Ecp := cellpar_ORCI a b c Ha Hb Hc). cbv zeta in Ecp. fold cell in Ecp.
  assert (Epr := products_ORCI a b c). cbv zeta in Epr. fold cell in Epr.
  rewrite Epr, Ecp. cbn [fst snd].
  set (S := a * a + b * b + c * c) in *.
  assert (HS : 0 < S) by (unfold S; nra).
  set (L := sqrt (S / 4)) in *.
  set (ua := a * a / S) in *. set (ub := b * b / S) in *. set (uc := c * c / S) in *.
  assert (Ea : ua * S = a * a) by (unfold ua; field; lra).
  assert (Eb : ub * S = b * b) by (unfold ub; field; lra).
  assert (Ec : uc * S = c * c) by (unfold uc; field; lra).
  assert (Hsum : ua + ub + uc = 1).
  { apply Rmult_eq_reg_r with S; [|lra]. unfold S in *. lra. }
  assert (Hua : 0 < ua) by (unfold ua; apply Rdiv_lt_0_compat; nra).
  assert (Hub : 0 < ub) by (unfold ub; apply Rdiv_lt_0_compat; nra).
  assert (Huc : 0 < uc) by (unfold uc; apply Rdiv_lt_0_compat; nra).
  assert (Eab : (b * b - a * a) / S = ub - ua) by (unfold ua, ub; field; lra).
  assert (Ebc : (c * c - b * b) / S = uc - ub) by (unfold uc, ub; field; lra).
  assert (Eac : (c * c - a * a) / S = uc - ua) by (unfold ua, uc; field; lra).
  rewrite Eab in Hdab. rewrite Ebc in Hdbc. rewrite Eac in Hspread.
  pose proof (degrees_apart (2 * ub - 1) (2 * uc - 1) ltac:(lra) ltac:(lra)) as D1.
  pose proof (degrees_apart (2 * uc - 1) (2 * ua - 1) ltac:(lra) ltac:(lra)) as D2.
  pose proof (degrees_apart (2 * ua - 1) (2 * ub - 1) ltac:(lra) ltac:(lra)) as D3.
  pose proof (degrees_apart (2 * ua - 1) (2 * uc - 1) ltac:(lra) ltac:(lra)) as D4.
  rewrite (Rabs_left (2 * ub - 1 - (2 * uc - 1))) in D1 by lra.
  rewrite (Rabs_right (2 * uc - 1 - (2 * ua - 1))) in D2 by lra.
  rewrite (Rabs_left (2 * ua - 1 - (2 * ub - 1))) in D3 by lra.
  rewrite (Rabs_left (2 * ua - 1 - (2 * uc - 1))) in D4 by lra.
  set (alpha := acos (2 * ua - 1) * 180 / PI) in *.
  set (beta := acos (2 * ub - 1) * 180 / PI) in *.
  set (gamma := acos (2 * uc - 1) * 180 / PI) in *.
  assert (Hfar : forall w, 0 <= w <= 180 ->
            allclose eps [alpha; beta; gamma] (broadcast 3 w) = false).
  { intros w Hw. apply allclose_spread. unfold default_rtol in *.
    rewrite (Rabs_right w) by lra. lra. }
  rewrite categorize_all_equal by (apply Rabs_0_lt; lra). cbn [bind].
  rewrite (categorize_all_different eps alpha beta gamma) by lra.
  cbn [bind].
  rewrite categorize_all_different
    by (apply Rabs_ge_iff; unfold S in *; lra).
  cbn [bind].
  pose proof bcc_angle_bound as Hb1. pose proof bcc_angle_le_180 as Hb2.
  unfold test_cubic. cbn [to_list].
  rewrite !Hfar by lra. cbn [seq].
  unfold test_BCT, test_HEX, test_TET, test_ORCC. cbn [seq].
  unfold test_ORC. cbn [to_list]. rewrite Hfar by lra. cbn [andb seq].
  unfold test_ORCF. cbn [andb seq].
  unfold test_ORCI. zcompute. unfold map3.
  replace (-2 * ((b * b - a * a - c * c) / 4 + (c * c - a * a - b * b) / 4))
    with (a * a) by lra.
  replace (-2 * ((c * c - a * a - b * b) / 4 + (a * a - b * b - c * c) / 4))
    with (b * b) by lra.
  replace (-2 * ((a * a - b * b - c * c) / 4 + (b * b - a * a - c * c) / 4))
    with (c * c) by lra.
  cbn [to_list forallb].
  rewrite !Rltb_lt by nra.
  rewrite noduplicates_sorted by lra. cbn [andb].
  rewrite !sqrt_square by lra.
  rewrite argsort_sorted by assumption. zcompute. cbn [to_list].
  rewrite ORCI_constructs by assumption. cbn [bind try].
  rewrite ORCI_tocell. cbn [try].
  replace (item cell 0, item cell 1, item cell 2) with cell by reflexivity.
  unfold allclose. rewrite np_allclose_refl by (unfold default_rtol; lra).
  reflexivity.
Qed.

Lemma round_trip_ORCI (eps a b c : R) :
  0 < eps <= 1 -> 0 < a -> a < b -> b < c ->
  2 * eps <= b * b - a * a -> 2 * eps <= c * c - b * b ->
  eps <= 90 * ((b * b - a * a) / (a * a + b * b + c * c)) ->
  eps <= 90 * ((c * c - b * b) / (a * a + b * b + c * c)) ->
  2 * (eps + default_rtol * 180)
    < 90 * ((c * c - a * a) / (a * a + b * b + c * c)) ->
  round_trip false ORCI [a; b; c] eps.
Proof.
  intros He Ha Hab Hbc H1 H2 H3 H4 H5. split.
  - eexists. eexists. split; [apply ORCI_constructs; assumption | apply ORCI_tocell].
  - intros lat cell Hcall Hcell.
    rewrite ORCI_constructs in Hcall by assumption.
    inversion Hcall; subst lat; clear Hcall.
    rewrite ORCI_tocell in Hcell. inversion Hcell; subst cell; clear Hcell.
    eexists. split; [apply ORCI_constructs; assumption|].
    apply classify_ORCI; first [assumption | reflexivity].
Qed.

End RoundTripBodyCentred.

(** ** Face-centred orthorhombic cells *)

Section RoundTripFaceCentred.

Context {ops : CellOps}.

Lemma ORCF_constructs (a b c : R) : 0 < a -> a < b -> b < c ->
  exists v, call ORCF [a; b; c] =
    Return (mkLattice ORCF (Some [("a", a); ("b", b); ("c", c)]) (Some default_eps)
              (Some v)).
Proof.
  intros H0 H1 H2. unfold call, new, Orthorhombic__init__, BravaisLattice__init__,
    get_variant, _variant_name. cbn.
  unfold ORCF_variant_name, check_orc.
  rewrite (Rltb_lt a b), (Rltb_lt b c) by assumption. cbn.
  rewrite !truediv_nonzero by nra. cbn [bind].
  destruct (Rltb (Rabs _) default_eps); [cbn; eexists; reflexivity|].
  destruct (Rltb 0 _); cbn; eexists; reflexivity.
Qed.

Lemma ORCF_tocell (a b c : R) e v :
  tocell (mkLattice ORCF (Some [("a", a); ("b", b); ("c", c)]) e v) 0 =
    Return (scale 0.5 ((0, b, c), (a, 0, c), (a, b, 0))).
Proof. reflexivity. Qed.

Lemma cellpar_ORCF (a b c : R) :
  let L0 := sqrt ((b * b + c * c) / 4) in
  let L1 := sqrt ((a * a + c * c) / 4) in
  let L2 := sqrt ((a * a + b * b) / 4) in
  Cell_cellpar (scale 0.5 ((0, b, c), (a, 0, c), (a, b, 0))) =
    ((L0, L1, L2),
     (acos (a * a / 4 / (L1 * L2)) * 180 / PI,
      acos (b * b / 4 / (L0 * L2)) * 180 / PI,
      acos (c * c / 4 / (L0 * L1)) * 180 / PI)).
Proof.
  intros L0 L1 L2.
  assert (Hn : forall w s, vdot w w = s -> norm w = sqrt s).
  { intros w s E. unfold norm. now rewrite E. }
  unfold Cell_cellpar, scale, map3, angle.
  rewrite (Hn (0.5 * 0, 0.5 * b, 0.5 * c) ((b * b + c * c) / 4)) by (cbv [vdot]; lra).
  rewrite (Hn (0.5 * a, 0.5 * 0, 0.5 * c) ((a * a + c * c) / 4)) by (cbv [vdot]; lra).
  rewrite (Hn (0.5 * a, 0.5 * b, 0.5 * 0) ((a * a + b * b) / 4)) by (cbv [vdot]; lra).
  fold L0. fold L1. fold L2.
  replace (vdot (0.5 * a, 0.5 * 0, 0.5 * c) (0.5 * a, 0.5 * b, 0.5 * 0))
    with (a * a / 4) by (cbv [vdot]; lra).
  replace (vdot (0.5 * 0, 0.5 * b, 0.5 * c) (0.5 * a, 0.5 * b, 0.5 * 0))
    with (b * b / 4) by (cbv [vdot]; lra).
  replace (vdot (0.5 * 0, 0.5 * b, 0.5 * c) (0.5 * a, 0.5 * 0, 0.5 * c))
    with (c * c / 4) by (cbv [vdot]; lra).
  reflexivity.
Qed.

Lemma products_ORCF (a b c : R) :
  let m := scale 0.5 ((0, b, c), (a, 0, c), (a, b, 0)) in
  (vdot (item m 1) (item m 2), vdot (item m 2) (item m 0), vdot (item m 0) (item m 1))
  = (a * a / 4, b * b / 4, c * c / 4).
Proof.
  cbv [scale map3]. zcompute. cbv [vdot]. f_equal; [f_equal|]; lra.
Qed.

(** [ORCF(a, b, c)] is found again when the lengths and the angles of
    its cell are far enough apart, and a cell made from an array is
    that array. *)
Lemma classify_ORCF (eps a b c : R) (lat : BravaisLattice) :
  0 < eps <= 1 -> 0 < a -> a < b -> b < c ->
  let L0 := sqrt ((b * b + c * c) / 4) in
  let L1 := sqrt ((a * a + c * c) / 4) in
  let L2 := sqrt ((a * a + b * b) / 4) in
  eps <= L0 - L1 -> eps <= L1 - L2 ->
  eps < (b * b - a * a) / 4 -> eps < (c * c - b * b) / 4 ->
  eps <= 45 * (b * b / 4 / (L0 * L2) - a * a / 4 / (L1 * L2)) ->
  eps <= 45 * (c * c / 4 / (L0 * L1) - b * b / 4 / (L0 * L2)) ->
  call ORCF [a; b; c] = Return lat ->
  let cell := scale 0.5 ((0, b, c), (a, 0, c), (a, b, 0)) in
  Cell_new (FromArray cell) = cell ->
  forall reduce : bool,
  (if reduce then fst (niggli_reduce cell) else cell) = cell ->
  get_bravais_lattice cell eps reduce = Return (lat, []).
Proof.
  intros [He He1] Ha Hab Hbc L0 L1 L2 HL01 HL12 Hpab Hpbc Hxab Hxbc Hcall
    cell Hnew reduce Hred.
  assert (Hb : 0 < b) by lra. assert (Hc : 0 < c) by lra.
  assert (Htc : tocell lat 0 = Return cell).
  { destruct (ORCF_constructs a b c Ha Hab Hbc) as [v Hv]. rewrite Hv in Hcall.
    inversion Hcall; subst lat. apply ORCF_tocell. }
  unfold get_bravais_lattice. rewrite Hred.
  assert (Ecp := cellpar_ORCF a b c). cbv zeta in Ecp.
  fold cell in Ecp. fold L0 in Ecp. fold L1 in Ecp. fold L2 in Ecp.
  assert (Epr := products_ORCF a b c). cbv zeta in Epr. fold cell in Epr.
  rewrite Epr, Ecp. cbn [fst snd].
  assert (H0 : L0 * L0 = (b * b + c * c) / 4) by (apply sqrt_sqrt; nra).
  assert (H1 : L1 * L1 = (a * a + c * c) / 4) by (apply sqrt_sqrt; nra).
  assert (H2 : L2 * L2 = (a * a + b * b) / 4) by (apply sqrt_sqrt; nra).
  assert (P0 : 0 < L0) by (apply sqrt_lt_R0; nra).
  assert (P1 : 0 < L1) by (apply sqrt_lt_R0; nra).
  assert (P2 : 0 < L2) by (apply sqrt_lt_R0; nra).
  set (xa := a * a / 4 / (L1 * L2)) in *.
  set (xb := b * b / 4 / (L0 * L2)) in *.
  set (xc := c * c / 4 / (L0 * L1)) in *.
  assert (Ea : xa * (L1 * L2) = a * a / 4) by (unfold xa; field; lra).
  assert (Ec : xc * (L0 * L1) = c * c / 4) by (unfold xc; field; lra).
  assert (Q12 : 0 < L1 * L2) by (apply Rmult_lt_0_compat; assumption).
  assert (Q01 : 0 < L0 * L1) by (apply Rmult_lt_0_compat; assumption).
  assert (Hxa0 : 0 < xa).
  { unfold xa. apply Rdiv_lt_0_compat; [nra | exact Q12]. }
  assert (Hxc1 : xc <= 1).
  { assert (c <= 2 * L0) by nra. assert (c <= 2 * L1) by nra.
    assert (c * c / 4 <= L0 * L1) by nra.
    apply Rmult_le_reg_r with (L0 * L1); [exact Q01|]. lra. }
  assert (Hxc2 : 1 / 2 <= xc).
  { assert (L0 * L1 <= c * c / 2) by nra.
    apply Rmult_le_reg_r with (L0 * L1); [exact Q01|]. lra. }
  pose proof (degrees_apart xb xc ltac:(lra) ltac:(lra)) as D1.
  pose proof (degrees_apart xc xa ltac:(lra) ltac:(lra)) as D2.
  pose proof (degrees_apart xa xb ltac:(lra) ltac:(lra)) as D3.
  rewrite (Rabs_left (xb - xc)) in D1 by lra.
  rewrite (Rabs_right (xc - xa)) in D2 by lra.
  rewrite (Rabs_left (xa - xb)) in D3 by lra.
  pose proof (degrees_below_90 xc ltac:(lra)) as Dc.
  set (alpha := acos xa * 180 / PI) in *.
  set (beta := acos xb * 180 / PI) in *.
  set (gamma := acos xc * 180 / PI) in *.
  rewrite (categorize_all_different eps L0 L1 L2)
    by (apply Rabs_ge_iff; lra).
  cbn [bind].
  rewrite (categorize_all_different eps alpha beta gamma) by lra.
  cbn [bind].
  rewrite categorize_all_different by (apply Rabs_ge_iff; lra).
  cbn [bind].
  unfold test_cubic, test_BCT, test_HEX, test_TET, test_ORCC. cbn [seq].
  unfold test_ORC. cbn [to_list].
  rewrite allclose_third_far
    by (unfold default_rtol; rewrite (Rabs_right 90) by lra;
        rewrite Rabs_left by lra; lra).
  cbn [andb seq].
  unfold test_ORCF.
  rewrite noduplicates_sorted by lra. cbn [andb].
  rewrite argsort_sorted by lra. zcompute. unfold map3. cbn [to_list].
  replace (2 * sqrt (a * a / 4)) with a
    by (replace (a * a / 4) with (a / 2 * (a / 2)) by lra;
        rewrite sqrt_square by lra; lra).
  replace (2 * sqrt (b * b / 4)) with b
    by (replace (b * b / 4) with (b / 2 * (b / 2)) by lra;
        rewrite sqrt_square by lra; lra).
  replace (2 * sqrt (c * c / 4)) with c
    by (replace (c * c / 4) with (c / 2 * (c / 2)) by lra;
        rewrite sqrt_square by lra; lra).
  rewrite Hcall. cbn [try]. unfold cellpar. rewrite Htc. cbn [bind try].
  replace (item cell 0, item cell 1, item cell 2) with cell by reflexivity.
  rewrite Hnew.
  unfold allclose. rewrite np_allclose_refl by (unfold default_rtol; lra).
  reflexivity.
Qed.

Lemma round_trip_ORCF (eps a b c : R) :
  0 < eps <= 1 -> 0 < a -> a < b -> b < c ->
  let L0 := sqrt ((b * b + c * c) / 4) in
  let L1 := sqrt ((a * a + c * c) / 4) in
  let L2 := sqrt ((a * a + b * b) / 4) in
  eps <= L0 - L1 -> eps <= L1 - L2 ->
  eps < (b * b - a * a) / 4 -> eps < (c * c - b * b) / 4 ->
  eps <= 45 * (b * b / 4 / (L0 * L2) - a * a / 4 / (L1 * L2)) ->
  eps <= 45 * (c * c / 4 / (L0 * L1) - b * b / 4 / (L0 * L2)) ->
  (let cell := scale 0.5 ((0, b, c), (a, 0, c), (a, b, 0)) in
   Cell_new (FromArray cell) = cell) ->
  round_trip false ORCF [a; b; c] eps.
Proof.
  intros He Ha Hab Hbc L0 L1 L2 H1 H2 H3 H4 H5 H6 Hnew.
  destruct (ORCF_constructs a b c Ha Hab Hbc) as [v Hv].
  split.
  - eexists. eexists. split; [exact Hv | apply ORCF_tocell].
  - intros lat cell Hcall Hcell.
    exists lat. split; [exact Hcall|].
    pose proof Hcall as Hcall'.
    rewrite Hv in Hcall'. inversion Hcall'; subst lat; clear Hcall'.
    rewrite ORCF_tocell in Hcell. inversion Hcell; subst cell; clear Hcell.
    apply (classify_ORCF eps a b c _ He Ha Hab Hbc H1 H2 H3 H4 H5 H6 Hcall Hnew
             false eq_refl).
Qed.

End RoundTripFaceCentred.

(** ** The round trip of the monoclinic families *)

Section RoundTripMonoclinicTheorem.

Context {ops : CellOps}.

Lemma round_trip_MCL (eps a b c alpha : R) :
  0 < eps <= 1 -> 0 < a -> 0 < b -> 0 <= alpha ->
  eps <= Rabs (a - b) -> a + eps <= c -> b + eps <= c ->
  alpha + eps + 0.001 <= 90 ->
  eps <= b * c * cos (alpha * (PI / 180)) ->
  round_trip false MCL [a; b; c; alpha] eps.
Proof.
  intros He Ha Hb Hal Hab Hac Hbc Hal90 Hp.
  assert (Hcon := MCL_constructs a b c alpha ltac:(lra) ltac:(lra) ltac:(lra)).
  split.
  - eexists. eexists. split; [exact Hcon | apply MCL_tocell].
  - intros lat cell Hcall Hcell.
    rewrite Hcon in Hcall. inversion Hcall; subst lat; clear Hcall.
    rewrite MCL_tocell in Hcell. inversion Hcell; subst cell; clear Hcell.
    eexists. split; [exact Hcon|].
    apply (classify_MCL eps a b c alpha He Ha Hb Hal Hab Hac Hbc Hal90 Hp false eq_refl).
Qed.

Lemma MCLC_constructs (a b c alpha : R) : a <= c -> b <= c -> alpha < 90 ->
  exists v, call MCLC [a; b; c; alpha] =
    Return (mkLattice MCLC (Some [("a", a); ("b", b); ("c", c); ("alpha", alpha)])
              (Some default_eps) (Some v)).
Proof.
  intros H1 H2 H3.
  unfold call, new, MCLC__init__, BravaisLattice__init__, get_variant, _variant_name.
  cbn. unfold MCLC_variant_name, check_mcl.
  rewrite !Rleb_le, Rltb_lt by assumption. cbn.
  match goal with |- context [Rltb 90 ?k] => set (kgamma := k) end.
  destruct (Rltb (Rabs (kgamma - 90)) default_eps) eqn:E1;
    [cbn; eexists; reflexivity|].
  destruct (Rltb 90 kgamma) eqn:E2; [cbn; eexists; reflexivity|].
  destruct (Rltb kgamma 90) eqn:E3.
  - clear E1 E2 E3.
    repeat match goal with
           | |- context [if Rltb ?x ?y then _ else _] => destruct (Rltb x y)
           end; cbn; eexists; reflexivity.
  - exfalso. apply Rltb_false in E1, E2, E3.
    assert (kgamma = 90) by lra.
    replace (kgamma - 90) with 0 in E1 by lra.
    rewrite Rabs_R0 in E1. unfold default_eps in E1. lra.
Qed.

Lemma round_trip_MCLC (eps a b c alpha : R) :
  0 < eps <= 1 -> 0 < a -> 0 < b -> a <= c -> b <= c -> 0 <= alpha < 90 ->
  4 * eps <= c ->
  eps < b * c * cos (alpha * (PI / 180)) / 2 ->
  (eps + 0.001) * c <= 30 * (b * cos (alpha * (PI / 180))) ->
  round_trip false MCLC [a; b; c; alpha] eps.
Proof.
  intros He Ha Hb Hac Hbc Hal Hc4 Hq Hfar.
  destruct (MCLC_constructs a b c alpha Hac Hbc ltac:(lra)) as [v Hv].
  split.
  - eexists. eexists. split; [exact Hv|]. apply (MCLC_tocell _ a b c alpha Hv).
  - intros lat cell Hcall Hcell.
    exists lat. split; [exact Hcall|].
    rewrite (MCLC_tocell _ a b c alpha Hcall) in Hcell.
    inversion Hcell; subst cell; clear Hcell.
    apply (classify_MCLC eps a b c alpha lat He Ha Hb Hac Hbc Hal Hc4 Hq Hfar Hcall
             false eq_refl).
Qed.

End RoundTripMonoclinicTheorem.

(** ** Bounds on square roots and inverses *)

Lemma cos_45 : 1 / 2 <= cos (45 * (PI / 180)) <= 1.
Proof.
  replace (45 * (PI / 180)) with (PI / 4) by lra.
  split; [|apply COS_bound].
  rewrite cos_PI4.
  assert (H0 : 0 < sqrt 2) by (apply sqrt_lt_R0; lra).
  assert (H2 : sqrt 2 <= 2).
  { rewrite <- (sqrt_square 2) at 2 by lra. apply sqrt_le_1_alt. lra. }
  apply Rmult_le_reg_r with (sqrt 2); [exact H0|].
  replace (1 / sqrt 2 * sqrt 2) with 1 by (field; lra). lra.
Qed.

Lemma sqrt_between (s lo hi : R) :
  0 <= lo -> lo * lo <= s -> s <= hi * hi -> 0 <= hi -> lo <= sqrt s <= hi.
Proof.
  intros H0 H1 H2 H3. split.
  - rewrite <- (sqrt_square lo) by assumption. apply sqrt_le_1_alt. exact H1.
  - rewrite <- (sqrt_square hi) by assumption. apply sqrt_le_1_alt. exact H2.
Qed.

Lemma Rinv_between (x lo hi : R) : 0 < lo -> lo <= x <= hi -> / hi <= / x <= / lo.
Proof.
  intros H0 [H1 H2]. split; apply Rinv_le_contravar; lra.
Qed.

(** ** Cells in normal form *)

(** The comparisons of a condition on numbers, settled one by one. *)
Ltac settle_comparisons :=
  repeat match goal with
  | |- context [Rabs ?x] =>
      first [ rewrite (Rabs_right x) by lra | rewrite (Rabs_left x) by lra ]
  end;
  repeat match goal with
  | |- context [Rleb ?x ?y] =>
      first [ rewrite (Rleb_le x y) by lra | rewrite (Rleb_gt x y) by lra ]
  | |- context [Rltb ?x ?y] =>
      first [ rewrite (Rltb_lt x y) by lra | rewrite (Rltb_ge x y) by lra ]
  | |- context [Reqb ?x ?y] =>
      first [ rewrite (Reqb_eq x y) by lra | rewrite (Reqb_neq x y) by lra ]
  end.

(** A rectangular cell with increasing edges is in normal form. *)
Lemma normal_form_diag (a b c : R) :
  0 < a -> a <= b -> b <= c -> normal_form (diag (a, b, c)) = true.
Proof.
  intros Ha Hab Hbc. unfold normal_form, diag, vdot.
  replace (2 * (0 * 0 + b * 0 + 0 * c)) with 0 by ring.
  replace (2 * (a * 0 + 0 * 0 + 0 * c)) with 0 by ring.
  replace (2 * (a * 0 + 0 * b + 0 * 0)) with 0 by ring.
  replace (a * a + 0 * 0 + 0 * 0) with (a * a) by ring.
  replace (0 * 0 + b * b + 0 * 0) with (b * b) by ring.
  replace (0 * 0 + 0 * 0 + c * c) with (c * c) by ring.
  assert (A : 0 < a * a) by nra.
  assert (B : a * a <= b * b) by nra.
  assert (C : b * b <= c * c) by nra.
  set (h := a * a) in *. set (k := b * b) in *. set (l := c * c) in *.
  settle_comparisons. cbn. rewrite ?orb_true_r. reflexivity.
Qed.




(** ** The round trip with reduction *)

(** A cell in normal form is its own reference reduction. *)
Lemma reference_reduce_normal (m : matrix) :
  normal_form m = true -> reference_reduce m = (m, eye).
Proof. intros H. unfold reference_reduce. rewrite H. reflexivity. Qed.

Lemma reference_metric (uc : matrix) :
  normal_form uc = true ->
  metric (fst (niggli_reduce (CellOps := reference_ops) uc)) = metric uc.
Proof.
  intros H. cbn [niggli_reduce reference_ops].
  rewrite (reference_reduce_normal uc H). reflexivity.
Qed.

Section RoundTripWithReduction.

Context {ops : CellOps}.

(** The reduction of a cell in normal form has the lengths, the angles
    and the scalar products of that cell. *)
Hypothesis metric_of_normal_form :
  forall uc, normal_form uc = true -> metric (fst (niggli_reduce uc)) = metric uc.



End RoundTripWithReduction.



(** * Part III: further properties of the code *)

(** ** The round trip of a triclinic lattice *)

Lemma vdot_negative_nonzero (u v : vec) : vdot u v < 0 -> 0 < vdot u u.
Proof.
  destruct u as [[u0 u1] u2], v as [[v0 v1] v2]. cbv [vdot]. intros H.
  destruct (Req_dec u0 0) as [E0|E0]; [|nra].
  destruct (Req_dec u1 0) as [E1|E1]; [|nra].
  destruct (Req_dec u2 0) as [E2|E2]; [|nra].
  subst. lra.
Qed.

Lemma vdot_sym' (u v : vec) : vdot u v = vdot v u.
Proof.
  destruct u as [[u0 u1] u2], v as [[v0 v1] v2]. cbv [vdot]. ring.
Qed.

(** Vectors with a negative scalar product make an obtuse angle. *)
Lemma angle_obtuse (u v : vec) : vdot u v < 0 -> 90 < angle u v.
Proof.
  intros H.
  pose proof (vdot_negative_nonzero u v H) as Hu.
  assert (Hv : 0 < vdot v v).
  { apply (vdot_negative_nonzero v u). now rewrite vdot_sym'. }
  pose proof PI_RGT_0 as HP.
  assert (Nu : 0 < norm u) by (apply sqrt_lt_R0; exact Hu).
  assert (Nv : 0 < norm v) by (apply sqrt_lt_R0; exact Hv).
  unfold angle.
  set (x := vdot u v / (norm u * norm v)).
  assert (Hx : x < 0).
  { unfold x. apply Rmult_lt_reg_r with (norm u * norm v); [nra|].
    replace (vdot u v / (norm u * norm v) * (norm u * norm v)) with (vdot u v)
      by (field; nra).
    lra. }
  assert (Hacos : PI / 2 < acos x).
  { destruct (Rle_dec x (- 1)) as [L|L].
    - unfold acos. destruct (Rle_dec x (- 1)); [lra | contradiction].
    - pose proof (acos_neg_ge_shift (- x) ltac:(lra)) as K.
      replace (- - x) with x in K by ring. lra. }
  apply Rmult_lt_reg_r with PI; [exact HP|].
  replace (acos x * 180 / PI * PI) with (acos x * 180) by (field; lra).
  lra.
Qed.

(** The reciprocal rows of a cell in lower triangular form, up to the
    common factor: their scalar products. *)
Lemma reciprocal_products (a0 b0 b1 c0 c1 c2 : R) :
  0 < a0 -> 0 < b1 -> 0 < c2 ->
  let '(r0, r1, r2) :=
    inverse_transpose ((a0, 0, 0), (b0, b1, 0), (c0, c1, c2)) in
  let d := a0 * b1 * c2 in
  vdot r1 r2 = - (a0 * a0 * b1 * c1) / (d * d)
  /\ vdot r0 r2 = (b0 * c1 - b1 * c0) * (a0 * b1) / (d * d)
  /\ vdot r0 r1 = - (a0 * (b0 * (c1 * c1 + c2 * c2) - b1 * c0 * c1)) / (d * d).
Proof.
  intros Ha Hb Hc. unfold inverse_transpose.
  assert (D : det ((a0, 0, 0), (b0, b1, 0), (c0, c1, c2)) = a0 * b1 * c2)
    by (unfold det, cross; cbv [vdot]; ring).
  rewrite D. unfold cross, map3. cbv [vdot].
  assert (Hd : a0 * b1 * c2 <> 0).
  { apply Rgt_not_eq. apply Rmult_lt_0_compat; [apply Rmult_lt_0_compat|]; assumption. }
  repeat split; field; repeat split; apply Rgt_not_eq; assumption.
Qed.

(** [TRI(3, 4, 5, 60, 60, 60)]: with the reference instance the angles of
    the reciprocal cell are obtuse, and the lattice is constructed. *)
Lemma TRI_constructs :
  exists v,
    call (ops := reference_ops) TRI [3; 4; 5; 60; 60; 60] =
      Return (mkLattice TRI
                (Some [("a", 3); ("b", 4); ("c", 5);
                       ("alpha", 60); ("beta", 60); ("gamma", 60)])
                (Some default_eps) (Some v)).
Proof.
  unfold call, new, TRI__init__, BravaisLattice__init__, get_variant, _variant_name.
  cbn [blank cls _parameters _eps _variant get remove dict_of fold_left set_item
       fst snd String.eqb Ascii.eqb Bool.eqb keys List.map parameters set_eqb
       forallb mem existsb andb orb negb attr bind kw].
  assert (V : exists n,
    TRI_variant_name (ops := reference_ops)
      (mkLattice TRI
         (Some [("a", 3); ("b", 4); ("c", 5);
                ("alpha", 60); ("beta", 60); ("gamma", 60)])
         (Some default_eps) None) 3 4 5 60 60 60 = Return n
    /\ (n = "TRI1a" \/ n = "TRI2a")).
  { unfold TRI_variant_name.
    cbn [Cell_new reciprocal reference_ops attr _eps bind].
    unfold cellpar_to_cell.
    replace (60 * _degrees) with (PI / 3) by (unfold _degrees; lra).
    rewrite cos_PI3, sin_PI3.
    pose proof (sqrt_sqrt 3 ltac:(lra)) as Q.
    assert (Q0 : 0 < sqrt 3) by (apply sqrt_lt_R0; lra).
    replace ((sqrt 3 / 2) ^ 2 - (1 / 2) ^ 2 - (1 / 2) ^ 2 + 2 * (1 / 2) * (1 / 2) * (1 / 2))
      with (1 / 2) by nra.
    pose proof (sqrt_sqrt (1 / 2) ltac:(lra)) as W.
    assert (W0 : 0 < sqrt (1 / 2)) by (apply sqrt_lt_R0; lra).
    set (s := sqrt 3 / 2) in *.
    set (w := sqrt (1 / 2)) in *.
    assert (S0 : 0 < s) by (unfold s; lra).
    assert (S2 : s * s = 3 / 4) by (unfold s; nra).
    set (u := / s).
    assert (U0 : 0 < u) by (apply Rinv_0_lt_compat; exact S0).
    assert (U1 : u * s = 1) by (unfold u; field; lra).
    assert (U2 : u * u = 4 / 3) by nra.
    replace (5 / s) with (5 * u) by (unfold u; field; lra).
    assert (B0 : 0 < 3) by lra.
    assert (B1 : 0 < 4 * s) by lra.
    assert (C2 : 0 < 5 * u * w).
    { apply Rmult_lt_0_compat; [lra | exact W0]. }
    pose proof (reciprocal_products 3 (4 * (1 / 2)) (4 * s) (5 * (1 / 2))
                  (5 * u * (1 / 2 - 1 / 2 * (1 / 2))) (5 * u * w)
                  B0 B1 C2) as P.
    destruct (inverse_transpose _) as [[r0 r1] r2].
    cbv zeta in P. destruct P as [P1 [P2 P3]].
    unfold Cell_cellpar. cbn [snd].
    assert (D1 : 0 < 3 * (4 * s) * (5 * u * w)).
    { apply Rmult_lt_0_compat; [lra | exact C2]. }
    assert (D : 0 < 3 * (4 * s) * (5 * u * w) * (3 * (4 * s) * (5 * u * w))).
    { apply Rmult_lt_0_compat; exact D1. }
    assert (A1 : 90 < angle r1 r2).
    { apply angle_obtuse. rewrite P1.
      apply Rmult_lt_reg_r with (3 * (4 * s) * (5 * u * w) * (3 * (4 * s) * (5 * u * w)));
        [exact D|].
      unfold Rdiv. rewrite Rmult_assoc, Rinv_l by lra. nra. }
    assert (A2 : 90 < angle r0 r2).
    { apply angle_obtuse. rewrite P2.
      apply Rmult_lt_reg_r with (3 * (4 * s) * (5 * u * w) * (3 * (4 * s) * (5 * u * w)));
        [exact D|].
      unfold Rdiv. rewrite Rmult_assoc, Rinv_l by lra. nra. }
    assert (A3 : 90 < angle r0 r1).
    { apply angle_obtuse. rewrite P3.
      apply Rmult_lt_reg_r with (3 * (4 * s) * (5 * u * w) * (3 * (4 * s) * (5 * u * w)));
        [exact D|].
      unfold Rdiv. rewrite Rmult_assoc, Rinv_l by lra. nra. }
    rewrite !(Rltb_lt 90) by assumption.
    rewrite (Rltb_ge (angle r1 r2) 90), (Rltb_ge (angle r0 r2) 90) by lra.
    cbn [andb].
    destruct (Rltb (Rabs (angle r0 r1 - 90)) default_eps); eauto. }
  destruct V as [n [V Hn]].
  match goal with
  | |- context [TRI_variant_name ?s ?a ?b ?c ?al ?be ?ga] =>
      replace (TRI_variant_name s a b c al be ga) with (Return n)
        by (symmetry; exact V)
  end.
  cbn [bind].
  destruct Hn; subst n; eexists; reflexivity.
Qed.

Section TriclinicRoundTrip.

Context {ops : CellOps}.

(** X20: for the triclinic family the round trip fails for every
    choice of the parameters: whatever lattice
    [TRI(...)] is constructed and whatever cell it has, classifying that
    cell with reduction does not return a [TRI] lattice.  This is so
    for every reduction primitive, because no path of the classifier
    returns a triclinic lattice: when the triclinic test matches, the
    stray statement before [return obj] raises [NameError]. *)
Theorem triclinic_round_trip_fails (args : list R) (lat : BravaisLattice)
  (cell : matrix) (eps : R) :
  call TRI args = Return lat -> tocell lat 0 = Return cell ->
  cls lat = TRI
  /\ returns_family (cls lat) (get_bravais_lattice cell eps true) = false
  /\ (forall lat' d,
        get_bravais_lattice cell eps true = Return (lat', d) -> cls lat' <> cls lat).
Proof.
  intros Hcall Hcell.
  destruct (call_spec TRI args lat Hcall) as [Hcls _].
  destruct (TRI_not_returned cell eps true) as [Hnot _].
  rewrite Hcls. split; [reflexivity|]. split; [exact Hnot|].
  intros lat' d E Hsame. rewrite E in Hnot. cbn in Hnot.
  rewrite Hsame in Hnot. discriminate Hnot.
Qed.

End TriclinicRoundTrip.

Lemma triclinic_round_trip_fails_witness :
  exists lat cell,
    call (ops := reference_ops) TRI [3; 4; 5; 60; 60; 60] = Return lat
    /\ tocell lat 0 = Return cell
    /\ returns_family TRI
         (get_bravais_lattice (ops := reference_ops) cell default_eps true) = false.
Proof.
  destruct TRI_constructs as [v Hv].
  eexists. eexists. split; [exact Hv|]. split; [reflexivity|].
  exact (proj1 (proj2 (triclinic_round_trip_fails (ops := reference_ops)
                         _ _ _ default_eps Hv eq_refl))).
Defined.

(** ** The equality pattern of three numbers *)

(** X1: [categorize_differences] (lines 958-967) is decided by which of
    the three pairs are within [eps]: it fails its assertion exactly
    when two pairs are and the third is not; it reports all-equal when
    the three are, all-different when none is, and otherwise the
    direction [d] of the one close pair, where pair 0 is (b, c), pair 1
    is (c, a) and pair 2 is (a, b): the number [d] is the one that
    differs from the other two. *)
Theorem categorize_differences_pattern (eps a b c : R) :
  let bc := Rabs (b - c) < eps in
  let ca := Rabs (c - a) < eps in
  let ab := Rabs (a - b) < eps in
  let r := categorize_differences eps (a, b, c) in
  (r = Raise AssertionError <->
     (bc /\ ca /\ ~ ab) \/ (bc /\ ~ ca /\ ab) \/ (~ bc /\ ca /\ ab))
  /\ (r = Return (true, false, None) <-> bc /\ ca /\ ab)
  /\ (r = Return (false, true, None) <-> ~ bc /\ ~ ca /\ ~ ab)
  /\ (r = Return (false, false, Some 0%Z) <-> bc /\ ~ ca /\ ~ ab)
  /\ (r = Return (false, false, Some 1%Z) <-> ~ bc /\ ca /\ ~ ab)
  /\ (r = Return (false, false, Some 2%Z) <-> ~ bc /\ ~ ca /\ ab)
  /\ (r = Raise AssertionError
      \/ r = Return (true, false, None) \/ r = Return (false, true, None)
      \/ r = Return (false, false, Some 0%Z) \/ r = Return (false, false, Some 1%Z)
      \/ r = Return (false, false, Some 2%Z)).
Proof.
  intros bc ca ab r. unfold r, bc, ca, ab, categorize_differences, eq_flags.
  destruct (Rltb (Rabs (b - c)) eps) eqn:E1;
    [apply Rltb_true in E1 | apply Rltb_false in E1];
  (destruct (Rltb (Rabs (c - a)) eps) eqn:E2;
    [apply Rltb_true in E2 | apply Rltb_false in E2]);
  (destruct (Rltb (Rabs (a - b)) eps) eqn:E3;
    [apply Rltb_true in E3 | apply Rltb_false in E3]);
  cbn;
  repeat split; intros; try discriminate; try tauto; try lra;
  repeat match goal with
         | H : _ \/ _ |- _ => destruct H
         | H : _ /\ _ |- _ => destruct H
         end; try lra; try contradiction.
Qed.

(** ** Duplicates among three numbers *)

(** X2: the local [noduplicates] (lines 1004-1007) sorts the three
    numbers and compares neighbours; it holds exactly when every two of
    the three numbers differ by more than [eps], in whatever order they
    are given. *)
Theorem noduplicates_pairwise (eps a b c : R) :
  noduplicates eps (a, b, c) = true
  <-> eps < Rabs (a - b) /\ eps < Rabs (b - c) /\ eps < Rabs (c - a).
Proof.
  unfold noduplicates, sort, argsort, sort_keys.
  cbn [fold_left insert_key fst].
  repeat (match goal with
          | |- context [if Rltb ?x ?y then _ else _] =>
              let E := fresh "E" in
              destruct (Rltb x y) eqn:E;
              [apply Rltb_true in E | apply Rltb_false in E]
          end; cbn [insert_key fst]);
  zcompute; rewrite Rltb_true;
  unfold Rmin, Rabs;
  repeat match goal with
         | |- context [Rcase_abs ?x] => destruct (Rcase_abs x)
         end;
  repeat match goal with
         | |- context [Rle_dec ?x ?y] => destruct (Rle_dec x y)
         end; split; intros; repeat split; try lra;
  repeat match goal with H : _ /\ _ |- _ => destruct H end; lra.
Qed.

(** ** Variants *)

Section VariantFacts.

Context {ops : CellOps}.

(** X3: the variant table is complete for the names the classes
    compute: whenever [_variant_name] returns a name, [get_variant]
    (lines 156-158) finds the variant of that name among those the
    decorator registered for the class; when [_variant_name] raises,
    that exception is what [get_variant] raises.  The lookup itself
    never fails: [get_variant] does not raise [KeyError]. *)
Theorem get_variant_registered (self : BravaisLattice) :
  match _variant_name self with
  | Return n =>
      exists v, get_variant self = Return v /\ name v = n
                /\ List.In v (variant_list (cls self))
  | Raise e => get_variant self = Raise e
  end
  /\ get_variant self <> Raise KeyError.
Proof.
  unfold get_variant, _variant_name.
  destruct self as [f [p|] e v]; cbn [attr bind _parameters cls _eps];
    [|split; [reflexivity | intros H; discriminate H]].
  unfold MCLC_variant_name, tocell, _cell, kw.
  destruct f; cbn [bind attr _parameters cls _eps];
    repeat match goal with
           | |- context [get ?d ?k] => destruct (get d k); cbn [bind]
           end;
    try (split; [reflexivity | intros H; discriminate H]);
    unfold SimpleBravaisLattice_variant_name, BCT_variant_name, ORCF_variant_name,
      ORCI_variant_name, ORCC_variant_name, RHL_variant_name, MCL_variant_name,
      TRI_variant_name, MCLC_cell, check_orc, check_mcl, truediv;
    cbn [variants variant_list variant_names List.map List.length Nat.eqb
         assert bind negb andb Z.eqb];
    repeat match goal with
           | |- context [attr ?x] => destruct x; cbn [attr bind]
           | |- context [if ?b then _ else _] => destruct b; cbn [bind negb andb]
           | |- context [match ?x with pair _ _ => _ end] => destruct x
           end;
    (split; [first [reflexivity
                   | eexists; split; [reflexivity|];
                     split; [reflexivity|]; cbn; tauto]
            | cbn; intros H; discriminate H]).
Qed.

End VariantFacts.

(** ** Parameters of a constructed lattice *)

Section ParameterFacts.

Context {ops : CellOps}.

(** The normal attribute lookup, as in the definition of [__getattr__]. *)
Variable object : Type.
Variable __getattribute__ : BravaisLattice -> string -> result object.

(** What [BravaisLattice.__init__] has stored when the call of the
    class returns. *)
Lemma init_stores (f : Family) (kwargs : dict R) (lat : BravaisLattice) :
  get kwargs "eps" = None ->
  new f (BravaisLattice__init__ kwargs) = Return lat ->
  cls lat = f /\ _parameters lat = Some (dict_of kwargs)
  /\ _eps lat = Some default_eps.
Proof.
  intros He H. destruct (init_parameters f kwargs lat He H) as [H1 H2].
  split; [exact H1|]. split; [exact H2|].
  revert H. unfold new, BravaisLattice__init__. rewrite He.
  cbn [blank cls _parameters _eps _variant].
  destruct (negb _); [intros H; discriminate H|].
  destruct (get_variant _); intros H; inversion H; subst; reflexivity.
Qed.

(** What a call of a class leaves on the instance it returns. *)
Lemma call_stores (f : Family) (args : list R) (lat : BravaisLattice) :
  call f args = Return lat ->
  cls lat = f /\ _eps lat = Some default_eps
  /\ List.length args = List.length (parameters f)
  /\ _parameters lat = Some (List.combine (parameters f) args).
Proof.
  intros H. unfold call in H.
  destruct f; destruct args as [|x1 [|x2 [|x3 [|x4 [|x5 [|x6 [|x7 args]]]]]]];
    try discriminate H;
    unfold Cubic__init__, TET__init__, BCT__init__, HEX__init__,
      Orthorhombic__init__, MCL__init__, MCLC__init__, TRI__init__ in H;
    try (apply init_stores in H as [H1 [H2 H3]]; [|reflexivity];
         repeat split; assumption).
  (* RHL *)
  unfold new, RHL__init__ in H. cbn [blank] in H.
  destruct (Rleb 120 x2); [discriminate H|].
  fold (blank RHL) in H.
  change (new RHL (BravaisLattice__init__ [("a", x1); ("alpha", x2)]) = Return lat)
    in H.
  apply init_stores in H as [H1 [H2 H3]]; [|reflexivity].
  repeat split; assumption.
Qed.

(** X4: a lattice built by calling its class keeps the positional
    arguments under the parameter names of the class, in their order,
    and the default tolerance [2e-4] (the classes take no [eps]); each
    parameter can be read back as an attribute ([__getattr__], lines
    119-122), and for a name that is no parameter [__getattr__]
    answers what [__getattribute__] answers, a value or an
    exception. *)
Theorem constructor_parameters (f : Family) (args : list R) (lat : BravaisLattice) :
  call f args = Return lat ->
  cls lat = f
  /\ _eps lat = Some default_eps
  /\ List.length args = List.length (parameters f)
  /\ _parameters lat = Some (List.combine (parameters f) args)
  /\ (forall k v, List.In (k, v) (List.combine (parameters f) args) ->
        __getattr__ object __getattribute__ lat k = Return (inl v))
  /\ (forall k, mem k (parameters f) = false ->
        __getattr__ object __getattribute__ lat k
        = (v <- __getattribute__ lat k ;; Return (inr v))).
Proof.
  intros H.
  pose proof (call_stores f args lat H) as K.
  destruct K as [K1 [K2 [K3 K4]]].
  split; [exact K1|]. split; [exact K2|]. split; [exact K3|]. split; [exact K4|].
  unfold __getattr__. rewrite K4.
  assert (Hk : keys (List.combine (parameters f) args) = parameters f).
  { unfold keys. apply combine_fst. symmetry. exact K3. }
  split.
  - intros k v Hin. rewrite Hk.
    clear H K1 K2 K4 Hk.
    destruct f; destruct args as [|x1 [|x2 [|x3 [|x4 [|x5 [|x6 [|x7 args]]]]]]];
      try discriminate K3;
      cbn in Hin;
      repeat (destruct Hin as [Hin|Hin];
              [inversion Hin; subst k v; reflexivity|]);
      contradiction.
  - intros k Hm. rewrite Hk, Hm. reflexivity.
Qed.

End ParameterFacts.

Lemma constructor_parameters_witness :
  __getattr__ unit (fun _ _ => Raise AttributeError)
    (mkLattice MCL (Some [("a", 3); ("b", 4); ("c", 5); ("alpha", 55)])
       (Some default_eps)
       (Some (mkVariant "MCL" "GACDD1EHH1H2MM1M2XYY1Z" "GYHCEM1AXH1,MDZ,YD")))
    "alpha" = Return (inl 55).
Proof.
  assert (H : call (ops := reference_ops) MCL [3; 4; 5; 55] =
    Return (mkLattice MCL (Some [("a", 3); ("b", 4); ("c", 5); ("alpha", 55)])
              (Some default_eps)
              (Some (mkVariant "MCL" "GACDD1EHH1H2MM1M2XYY1Z" "GYHCEM1AXH1,MDZ,YD"))))
    by (apply MCL_constructs; lra).
  destruct (constructor_parameters (ops := reference_ops) unit
              (fun _ _ => Raise AttributeError) MCL [3; 4; 5; 55] _ H)
    as [_ [_ [_ [_ [G _]]]]].
  apply G. cbn. tauto.
Defined.

(** ** Cycled cells *)

Lemma take_identity {A : Type} (t : A * A * A) : take t (0%Z, 1%Z, 2%Z) = t.
Proof. destruct t as [[x y] z]. reflexivity. Qed.

Lemma cycle_index (i cycle k : Z) : ((i + (cycle + 3 * k)) mod 3 = (i + cycle) mod 3)%Z.
Proof.
  replace (i + (cycle + 3 * k))%Z with (i + cycle + k * 3)%Z by ring.
  apply Z_mod_plus_full.
Qed.

Lemma tocell_rotates (self : BravaisLattice) (c : Z) :
  tocell self c =
    (cell <- tocell self 0 ;;
     Return (take cell ((0 + c) mod 3, (1 + c) mod 3, (2 + c) mod 3)%Z)).
Proof.
  unfold tocell. cbn [Z.eqb].
  destruct (attr (_parameters self)) as [p|e]; cbn [bind]; [|reflexivity].
  destruct (_cell (cls self) p) as [cell|e]; cbn [bind]; [|reflexivity].
  destruct (Z.eqb_spec c 0) as [->|Hc]; [|reflexivity].
  change ((0 + 0) mod 3)%Z with 0%Z. change ((1 + 0) mod 3)%Z with 1%Z.
  change ((2 + 0) mod 3)%Z with 2%Z. now rewrite take_identity.
Qed.

(** X5: [tocell(cycle)] (lines 124-129) rotates the rows of the
    canonical cell: row [i] of the result is row [(i + cycle) mod 3] of
    [tocell()], also for [cycle = 0], which the code treats apart; and
    it is periodic, [cycle] and [cycle + 3 k] giving the same cell (or
    the same exception) for every integer [k], negative ones
    included. *)
Theorem tocell_periodic (self : BravaisLattice) (cycle k : Z) :
  tocell self (cycle + 3 * k) = tocell self cycle
  /\ tocell self cycle =
       (cell <- tocell self 0 ;;
        Return (take cell ((0 + cycle) mod 3, (1 + cycle) mod 3, (2 + cycle) mod 3)%Z)).
Proof.
  split; [|apply tocell_rotates].
  rewrite (tocell_rotates self (cycle + 3 * k)%Z), (tocell_rotates self cycle).
  now rewrite !cycle_index.
Qed.

Lemma cellpar_cycled_1 (x y z : R) : 0 <= x -> 0 <= y -> 0 <= z ->
  Cell_cellpar ((0, y, 0), (0, 0, z), (x, 0, 0)) = ((y, z, x), (90, 90, 90)).
Proof.
  intros Hx Hy Hz. unfold Cell_cellpar.
  rewrite norm_x, norm_y, norm_z by assumption.
  rewrite !angle_orthogonal by (unfold vdot; ring). reflexivity.
Qed.

Lemma cellpar_cycled_2 (x y z : R) : 0 <= x -> 0 <= y -> 0 <= z ->
  Cell_cellpar ((0, 0, z), (x, 0, 0), (0, y, 0)) = ((z, x, y), (90, 90, 90)).
Proof.
  intros Hx Hy Hz. unfold Cell_cellpar.
  rewrite norm_x, norm_y, norm_z by assumption.
  rewrite !angle_orthogonal by (unfold vdot; ring). reflexivity.
Qed.

Lemma products_orthogonal (u v w : vec) :
  vdot v w = 0 -> vdot w u = 0 -> vdot u v = 0 ->
  (vdot (item (u, v, w) 1) (item (u, v, w) 2),
   vdot (item (u, v, w) 2) (item (u, v, w) 0),
   vdot (item (u, v, w) 0) (item (u, v, w) 1)) = (0, 0, 0).
Proof. intros H1 H2 H3. zcompute. now rewrite H1, H2, H3. Qed.

(** The three rotations of a triple. *)
Lemma cycle_cases {A : Type} (t : A * A * A) (cycle : Z) :
  let idx := ((0 + cycle) mod 3, (1 + cycle) mod 3, (2 + cycle) mod 3)%Z in
  take t idx = t
  \/ take t idx = take t (1%Z, 2%Z, 0%Z)
  \/ take t idx = take t (2%Z, 0%Z, 1%Z).
Proof.
  cbv zeta.
  rewrite <- (Zplus_mod_idemp_r cycle 0), <- (Zplus_mod_idemp_r cycle 1),
    <- (Zplus_mod_idemp_r cycle 2).
  pose proof (Z.mod_pos_bound cycle 3 ltac:(lia)) as Hb.
  set (r := (cycle mod 3)%Z) in *.
  assert (Hr : r = 0%Z \/ r = 1%Z \/ r = 2%Z) by lia.
  destruct t as [[x y] z].
  clearbody r. destruct Hr as [Hr | [Hr | Hr]]; subst r;
    [left | right; left | right; right]; reflexivity.
Qed.

Section CycledCells.

Context {ops : CellOps}.

Lemma check_TET_cycled_1 (a c : R) : 0 <= a -> 0 <= c ->
  check (a, c, a, (90, 90, 90)) TET [a; c] 1 =
    Return (Some (TET, dict_of (List.combine (parameters TET) [a; c]))).
Proof.
  intros Ha Hc. unfold check. rewrite TET_constructs. cbn [bind].
  rewrite TET_tocell. rewrite cellpar_diag by assumption.
  zcompute.
  rewrite np_allclose_refl by (apply default_rtol_pos || apply default_atol_pos).
  reflexivity.
Qed.

Lemma check_TET_cycled_2 (a c : R) : 0 <= a -> 0 <= c ->
  check (c, a, a, (90, 90, 90)) TET [a; c] 2 =
    Return (Some (TET, dict_of (List.combine (parameters TET) [a; c]))).
Proof.
  intros Ha Hc. unfold check. rewrite TET_constructs. cbn [bind].
  rewrite TET_tocell. rewrite cellpar_diag by assumption.
  zcompute.
  rewrite np_allclose_refl by (apply default_rtol_pos || apply default_atol_pos).
  reflexivity.
Qed.

(** X6: the tetragonal test finds the distinguished axis wherever it
    stands.  For [TET(a, c)] with [a] and [c] at least [eps] apart and
    for every [cycle], classifying [tocell(cycle)] without reduction
    returns [TET(a, c)] again: the axis passed to [check] undoes the
    rotation of the rows. *)
Theorem TET_found_in_every_cycle (eps a c : R) (cycle : Z) :
  0 < eps -> 0 < a -> 0 < c -> eps <= Rabs (a - c) ->
  exists lat cell,
    call TET [a; c] = Return lat
    /\ tocell lat cycle = Return cell
    /\ get_bravais_lattice cell eps false = Return (lat, []).
Proof.
  intros He Ha Hc Hac.
  eexists. eexists. split; [apply TET_constructs|].
  rewrite tocell_rotates, TET_tocell. cbn [bind].
  split; [reflexivity|].
  assert (Hca : eps <= Rabs (c - a)) by (rewrite Rabs_minus_sym; exact Hac).
  destruct (cycle_cases (diag (a, a, c)) cycle) as [E|[E|E]];
    cbv zeta in E; rewrite E; clear E.
  - unfold get_bravais_lattice.
    rewrite products_diag.
    rewrite cellpar_diag by lra. cbn [fst snd].
    rewrite (categorize_third eps a a c) by close_or_apart.
    cbn [bind].
    rewrite (categorize_all_equal eps 90 90 90) by auto using Rabs_0_lt.
    cbn [bind].
    rewrite (categorize_all_equal eps 0 0 0) by auto using Rabs_0_lt.
    cbn [bind].
    unfold test_cubic, test_BCT, test_HEX. cbn [seq].
    unfold test_TET. cbn [fst snd to_list].
    rewrite allclose_right_angles by lra.
    zcompute.
    rewrite check_TET_diag by lra. cbn [try assert].
    rewrite TET_constructs. reflexivity.
  - unfold diag. zcompute.
    unfold get_bravais_lattice.
    rewrite products_orthogonal by (unfold vdot; ring).
    rewrite cellpar_cycled_1 by lra. cbn [fst snd].
    rewrite (categorize_second eps a c a) by close_or_apart.
    cbn [bind].
    rewrite (categorize_all_equal eps 90 90 90) by auto using Rabs_0_lt.
    cbn [bind].
    rewrite (categorize_all_equal eps 0 0 0) by auto using Rabs_0_lt.
    cbn [bind].
    unfold test_cubic, test_BCT, test_HEX. cbn [seq].
    unfold test_TET. cbn [fst snd to_list].
    rewrite allclose_right_angles by lra.
    zcompute.
    rewrite check_TET_cycled_1 by lra. cbn [try assert].
    rewrite TET_constructs. reflexivity.
  - unfold diag. zcompute.
    unfold get_bravais_lattice.
    rewrite products_orthogonal by (unfold vdot; ring).
    rewrite cellpar_cycled_2 by lra. cbn [fst snd].
    rewrite (categorize_first eps c a a) by close_or_apart.
    cbn [bind].
    rewrite (categorize_all_equal eps 90 90 90) by auto using Rabs_0_lt.
    cbn [bind].
    rewrite (categorize_all_equal eps 0 0 0) by auto using Rabs_0_lt.
    cbn [bind].
    unfold test_cubic, test_BCT, test_HEX. cbn [seq].
    unfold test_TET. cbn [fst snd to_list].
    rewrite allclose_right_angles by lra.
    zcompute.
    rewrite check_TET_cycled_2 by lra. cbn [try assert].
    rewrite TET_constructs. reflexivity.
Qed.

Lemma argsort_cycled_1 (a b c : R) : a < b -> b < c ->
  argsort (b, c, a) = (2%Z, 0%Z, 1%Z).
Proof.
  intros H1 H2. unfold argsort, sort_keys. cbn [fold_left insert_key fst].
  rewrite (Rltb_ge c b) by lra. cbn [insert_key fst].
  rewrite (Rltb_lt a b) by lra. reflexivity.
Qed.

Lemma argsort_cycled_2 (a b c : R) : a < b -> b < c ->
  argsort (c, a, b) = (1%Z, 2%Z, 0%Z).
Proof.
  intros H1 H2. unfold argsort, sort_keys. cbn [fold_left insert_key fst].
  rewrite (Rltb_lt a c) by lra. cbn [insert_key fst].
  rewrite (Rltb_ge b a) by lra. rewrite (Rltb_lt b c) by lra. reflexivity.
Qed.

(** X7: the orthorhombic test sorts the axes.  For [ORC(a, b, c)] with
    [a < b < c] at least [eps] apart and for every [cycle], classifying
    [tocell(cycle)] without reduction returns [ORC(a, b, c)] again,
    with the lengths in increasing order. *)
Theorem ORC_found_in_every_cycle (eps a b c : R) (cycle : Z) :
  0 < eps -> 0 < a -> a + eps <= b -> b + eps <= c ->
  exists lat cell,
    call ORC [a; b; c] = Return lat
    /\ tocell lat cycle = Return cell
    /\ get_bravais_lattice cell eps false = Return (lat, []).
Proof.
  intros He Ha Hab Hbc.
  eexists. eexists. split; [apply ORC_constructs|].
  rewrite tocell_rotates, ORC_tocell by lra. cbn [bind].
  split; [reflexivity|].
  destruct (cycle_cases (diag (a, b, c)) cycle) as [E|[E|E]];
    cbv zeta in E; rewrite E; clear E.
  - unfold get_bravais_lattice.
    rewrite products_diag.
    rewrite cellpar_diag by lra. cbn [fst snd].
    rewrite (categorize_all_different eps a b c) by (apply Rabs_ge_iff; lra).
    cbn [bind].
    rewrite (categorize_all_equal eps 90 90 90) by auto using Rabs_0_lt.
    cbn [bind].
    rewrite (categorize_all_equal eps 0 0 0) by auto using Rabs_0_lt.
    cbn [bind].
    unfold test_cubic, test_BCT, test_HEX, test_TET, test_ORCC. cbn [seq].
    unfold test_ORC. cbn [to_list].
    rewrite allclose_right_angles by lra. cbn [andb].
    rewrite argsort_sorted by lra.
    zcompute. cbn [to_list]. rewrite ORC_constructs. reflexivity.
  - unfold diag. zcompute.
    unfold get_bravais_lattice.
    rewrite products_orthogonal by (unfold vdot; ring).
    rewrite cellpar_cycled_1 by lra. cbn [fst snd].
    rewrite (categorize_all_different eps b c a) by (apply Rabs_ge_iff; lra).
    cbn [bind].
    rewrite (categorize_all_equal eps 90 90 90) by auto using Rabs_0_lt.
    cbn [bind].
    rewrite (categorize_all_equal eps 0 0 0) by auto using Rabs_0_lt.
    cbn [bind].
    unfold test_cubic, test_BCT, test_HEX, test_TET, test_ORCC. cbn [seq].
    unfold test_ORC. cbn [to_list].
    rewrite allclose_right_angles by lra. cbn [andb].
    rewrite argsort_cycled_1 by lra.
    zcompute. cbn [to_list]. rewrite ORC_constructs. reflexivity.
  - unfold diag. zcompute.
    unfold get_bravais_lattice.
    rewrite products_orthogonal by (unfold vdot; ring).
    rewrite cellpar_cycled_2 by lra. cbn [fst snd].
    rewrite (categorize_all_different eps c a b) by (apply Rabs_ge_iff; lra).
    cbn [bind].
    rewrite (categorize_all_equal eps 90 90 90) by auto using Rabs_0_lt.
    cbn [bind].
    rewrite (categorize_all_equal eps 0 0 0) by auto using Rabs_0_lt.
    cbn [bind].
    unfold test_cubic, test_BCT, test_HEX, test_TET, test_ORCC. cbn [seq].
    unfold test_ORC. cbn [to_list].
    rewrite allclose_right_angles by lra. cbn [andb].
    rewrite argsort_cycled_2 by lra.
    zcompute. cbn [to_list]. rewrite ORC_constructs. reflexivity.
Qed.

End CycledCells.

Lemma TET_found_in_every_cycle_witness :
  exists lat cell,
    call (ops := reference_ops) TET [3; 5] = Return lat
    /\ tocell lat 1 = Return cell
    /\ get_bravais_lattice (ops := reference_ops) cell default_eps false
       = Return (lat, []).
Proof.
  apply (TET_found_in_every_cycle (ops := reference_ops) default_eps 3 5 1);
    unfold default_eps; try lra.
  rewrite Rabs_left by lra. lra.
Defined.

Lemma ORC_found_in_every_cycle_witness :
  exists lat cell,
    call (ops := reference_ops) ORC [3; 4; 5] = Return lat
    /\ tocell lat 2 = Return cell
    /\ get_bravais_lattice (ops := reference_ops) cell default_eps false
       = Return (lat, []).
Proof.
  apply (ORC_found_in_every_cycle (ops := reference_ops) default_eps 3 4 5 2);
    unfold default_eps; lra.
Defined.

(** ** Rotated cells *)

Lemma vdot_sym (u v : vec) : vdot u v = vdot v u.
Proof. destruct u as [[u0 u1] u2], v as [[v0 v1] v2]. unfold vdot. ring. Qed.

Lemma angle_sym (u v : vec) : angle u v = angle v u.
Proof. unfold angle. now rewrite vdot_sym, (Rmult_comm (norm u)). Qed.

Lemma cellpar_rotate_1 (u v w : vec) (A B C al be ga : R) :
  Cell_cellpar (u, v, w) = ((A, B, C), (al, be, ga)) ->
  Cell_cellpar (v, w, u) = ((B, C, A), (be, ga, al)).
Proof.
  unfold Cell_cellpar. intros H. inversion H; subst.
  now rewrite (angle_sym w u), (angle_sym v u).
Qed.

Lemma cellpar_rotate_2 (u v w : vec) (A B C al be ga : R) :
  Cell_cellpar (u, v, w) = ((A, B, C), (al, be, ga)) ->
  Cell_cellpar (w, u, v) = ((C, A, B), (ga, al, be)).
Proof.
  unfold Cell_cellpar. intros H. inversion H; subst.
  now rewrite (angle_sym w v), (angle_sym w u).
Qed.

Lemma products_rotate_1 (u v w : vec) (p q r : R) :
  (vdot v w, vdot w u, vdot u v) = (p, q, r) ->
  (vdot (item (v, w, u) 1) (item (v, w, u) 2),
   vdot (item (v, w, u) 2) (item (v, w, u) 0),
   vdot (item (v, w, u) 0) (item (v, w, u) 1)) = (q, r, p).
Proof. zcompute. intros H. inversion H; subst. reflexivity. Qed.

Lemma products_rotate_2 (u v w : vec) (p q r : R) :
  (vdot v w, vdot w u, vdot u v) = (p, q, r) ->
  (vdot (item (w, u, v) 1) (item (w, u, v) 2),
   vdot (item (w, u, v) 2) (item (w, u, v) 0),
   vdot (item (w, u, v) 0) (item (w, u, v) 1)) = (r, p, q).
Proof. zcompute. intros H. inversion H; subst. reflexivity. Qed.

Section CycledHexagonal.

Context {ops : CellOps}.

(** X8: the hexagonal test finds the sixfold axis wherever it stands.
    For [HEX(a, c)] with [a] and [c] at least [eps] apart and
    [a * a / 2 >= eps], and for every [cycle], classifying
    [tocell(cycle)] without reduction returns [HEX(a, c)] again. *)
Theorem HEX_found_in_every_cycle (eps a c : R) (cycle : Z) :
  0 < eps <= 1 -> 0 < a -> 0 < c -> eps <= Rabs (a - c) -> eps <= a * a / 2 ->
  exists lat cell,
    call HEX [a; c] = Return lat
    /\ tocell lat cycle = Return cell
    /\ get_bravais_lattice cell eps false = Return (lat, []).
Proof.
  intros [He He1] Ha Hc Hac Haa.
  eexists. eexists. split; [apply HEX_constructs|].
  rewrite tocell_rotates, HEX_tocell. cbn [bind].
  split; [reflexivity|].
  assert (Hca : eps <= Rabs (c - a)) by (rewrite Rabs_minus_sym; exact Hac).
  pose proof (cellpar_HEX a c Ha Hc) as Ecp.
  set (u := (0.5 * a, - (0.5 * sqrt 3) * a, 0)) in *.
  set (v := (0.5 * a, 0.5 * sqrt 3 * a, 0)) in *.
  set (w := (0, 0, c)) in *.
  assert (Epr : (vdot v w, vdot w u, vdot u v) = (0, 0, - (a * a) / 2))
    by exact (products_HEX a c).
  assert (Hfinal : sqrt (-2 * (- (a * a) / 2)) = a).
  { replace (-2 * (- (a * a) / 2)) with (a * a) by field.
    apply sqrt_square. lra. }
  destruct (cycle_cases (A := vec) (u, v, w) cycle) as [E|[E|E]];
    cbv zeta in E; rewrite E; clear E.
  - unfold get_bravais_lattice.
    change (vdot (item (u, v, w) 1) (item (u, v, w) 2),
            vdot (item (u, v, w) 2) (item (u, v, w) 0),
            vdot (item (u, v, w) 0) (item (u, v, w) 1))
      with (vdot v w, vdot w u, vdot u v).
    rewrite Epr, Ecp. cbn [fst snd].
    rewrite (categorize_third eps a a c) by close_or_apart. cbn [bind].
    rewrite (categorize_third eps 90 90 120)
      by first [apply Rabs_0_lt; lra | apply Rabs_ge_iff; lra].
    cbn [bind].
    rewrite (categorize_third eps 0 0 (- (a * a) / 2))
      by first [apply Rabs_0_lt; lra | apply Rabs_ge_iff; lra].
    cbn [bind].
    unfold test_cubic, test_BCT. cbn [seq].
    unfold test_HEX. zcompute.
    rewrite !Rltb_lt by (apply Rabs_0_lt; lra). cbn [andb].
    rewrite (Rltb_lt 0) by nra. cbn [try assert].
    rewrite Hfinal, HEX_constructs. reflexivity.
  - change (take (u, v, w) (1%Z, 2%Z, 0%Z)) with (v, w, u).
    unfold get_bravais_lattice.
    match goal with
    | |- context [categorize_differences eps (vdot ?x ?y, ?q, ?r)] =>
        replace (vdot x y, q, r) with (0, - (a * a) / 2, 0)
          by (symmetry; exact (products_rotate_1 u v w _ _ _ Epr))
    end.
    match goal with
    | |- context [Cell_cellpar ?m] =>
        replace (Cell_cellpar m) with ((a, c, a), (90, 120, 90))
          by (symmetry; exact (cellpar_rotate_1 u v w _ _ _ _ _ _ Ecp))
    end.
    cbn [fst snd].
    rewrite (categorize_second eps a c a) by close_or_apart. cbn [bind].
    rewrite (categorize_second eps 90 120 90)
      by first [apply Rabs_0_lt; lra | apply Rabs_ge_iff; lra].
    cbn [bind].
    rewrite (categorize_second eps 0 (- (a * a) / 2) 0)
      by first [apply Rabs_0_lt; lra | apply Rabs_ge_iff; lra].
    cbn [bind].
    unfold test_cubic, test_BCT. cbn [seq].
    unfold test_HEX. zcompute.
    rewrite !Rltb_lt by (apply Rabs_0_lt; lra). cbn [andb].
    rewrite (Rltb_lt 0) by nra. cbn [try assert].
    rewrite Hfinal, HEX_constructs. reflexivity.
  - change (take (u, v, w) (2%Z, 0%Z, 1%Z)) with (w, u, v).
    unfold get_bravais_lattice.
    match goal with
    | |- context [categorize_differences eps (vdot ?x ?y, ?q, ?r)] =>
        replace (vdot x y, q, r) with (- (a * a) / 2, 0, 0)
          by (symmetry; exact (products_rotate_2 u v w _ _ _ Epr))
    end.
    match goal with
    | |- context [Cell_cellpar ?m] =>
        replace (Cell_cellpar m) with ((c, a, a), (120, 90, 90))
          by (symmetry; exact (cellpar_rotate_2 u v w _ _ _ _ _ _ Ecp))
    end.
    cbn [fst snd].
    rewrite (categorize_first eps c a a) by close_or_apart. cbn [bind].
    rewrite (categorize_first eps 120 90 90)
      by first [apply Rabs_0_lt; lra | apply Rabs_ge_iff; lra].
    cbn [bind].
    rewrite (categorize_first eps (- (a * a) / 2) 0 0)
      by first [apply Rabs_0_lt; lra | apply Rabs_ge_iff; lra].
    cbn [bind].
    unfold test_cubic, test_BCT. cbn [seq].
    unfold test_HEX. zcompute.
    rewrite !Rltb_lt by (apply Rabs_0_lt; lra). cbn [andb].
    rewrite (Rltb_lt 0) by nra. cbn [try assert].
    rewrite Hfinal, HEX_constructs. reflexivity.
Qed.

End CycledHexagonal.

Lemma HEX_found_in_every_cycle_witness :
  exists lat cell,
    call (ops := reference_ops) HEX [3; 5] = Return lat
    /\ tocell lat (-1) = Return cell
    /\ get_bravais_lattice (ops := reference_ops) cell default_eps false
       = Return (lat, []).
Proof.
  apply (HEX_found_in_every_cycle (ops := reference_ops) default_eps 3 5 (-1));
    unfold default_eps; try lra.
  rewrite Rabs_left by lra. lra.
Defined.

(** ** Two tolerances in the tetragonal test *)

Section TetragonalAssertion.

Context {ops : CellOps}.

(** X9: the tetragonal test compares with two tolerances.  Two lengths
    are taken as equal when they differ by less than [eps], but
    [check] compares the cell of [TET(b, c)] with the given one by
    [np.allclose] with its default tolerances.  For an orthogonal cell
    whose first two lengths differ by less than [eps] and by more than
    [1e-8 + 1e-5 * a], the third standing apart, [check] returns
    [None], [assert xx] fails, and the classifier raises
    [AssertionError]. *)
Theorem TET_assertion_fails (eps a b c : R) :
  0 < eps -> 0 < a -> 0 < b -> 0 < c ->
  default_atol + default_rtol * a < Rabs (b - a) -> Rabs (a - b) < eps ->
  eps <= Rabs (b - c) -> eps <= Rabs (c - a) ->
  check (a, b, c, (90, 90, 90)) TET [b; c] 0 = Return None
  /\ get_bravais_lattice (diag (a, b, c)) eps false = Raise AssertionError.
Proof.
  intros He Ha Hb Hc Hfar Hab Hbc Hca.
  assert (Hcheck : check (a, b, c, (90, 90, 90)) TET [b; c] 0 = Return None).
  { unfold check. rewrite TET_constructs. cbn [bind].
    rewrite TET_tocell. rewrite cellpar_diag by lra.
    zcompute. unfold np_allclose, cellpar_list.
    cbn [fst snd to_list app combine forallb].
    unfold isclose at 1.
    rewrite (Rabs_right a) by lra.
    rewrite (Rleb_gt (Rabs (b - a))) by exact Hfar.
    reflexivity. }
  split; [exact Hcheck|].
  unfold get_bravais_lattice.
  rewrite products_diag.
  rewrite cellpar_diag by lra. cbn [fst snd].
  rewrite (categorize_third eps a b c) by assumption.
  cbn [bind].
  rewrite (categorize_all_equal eps 90 90 90) by auto using Rabs_0_lt.
  cbn [bind].
  rewrite (categorize_all_equal eps 0 0 0) by auto using Rabs_0_lt.
  cbn [bind].
  unfold test_cubic, test_BCT, test_HEX. cbn [seq].
  unfold test_TET. cbn [fst snd to_list].
  rewrite allclose_right_angles by lra.
  zcompute.
  rewrite Hcheck. reflexivity.
Qed.

End TetragonalAssertion.

Lemma TET_assertion_fails_witness :
  get_bravais_lattice (ops := reference_ops) (diag (1, 1.0001, 2)) default_eps false
  = Raise AssertionError.
Proof.
  apply (TET_assertion_fails (ops := reference_ops) default_eps 1 1.0001 2);
    unfold default_eps, default_atol, default_rtol; try lra.
  - rewrite Rabs_right by lra. lra.
  - rewrite Rabs_left by lra. lra.
  - rewrite Rabs_left by lra. lra.
  - rewrite Rabs_right by lra. lra.
Defined.

(** ** What the classifier returns *)

Section ClassifierAnswer.

Context {ops : CellOps}.

Lemma well_formed_call (f : Family) (args : list R) (lat : BravaisLattice) :
  List.existsb (Family_eqb f) classified = true ->
  call f args = Return lat -> well_formed lat [].
Proof.
  intros Hf H. unfold well_formed.
  destruct (call_spec f args lat H) as [H1 H2].
  destruct (call_stores f args lat H) as [_ [H3 _]].
  rewrite H1. auto.
Qed.

Lemma returns_only_seq (s1 s2 : flow answer) :
  returns_only well_formed s1 -> returns_only well_formed s2 ->
  returns_only well_formed (s1 >> s2).
Proof. destruct s1; cbn; auto. Qed.

Lemma returns_only_try {A : Type} (m : result A) (k : A -> flow answer) :
  (forall a, m = Return a -> returns_only well_formed (k a)) ->
  returns_only well_formed (a <~ m ;; k a).
Proof. intros H. unfold try. destruct m; cbn; auto. Qed.

Ltac answer_stage :=
  repeat first
    [ exact I
    | apply returns_only_seq
    | apply returns_only_try; intros
    | match goal with
      | |- returns_only _ (if ?b then _ else _) => destruct b
      | |- returns_only _ (match ?o with Some _ => _ | None => _ end) => destruct o
      | |- returns_only _ (let '(_, _) := ?x in _) => destruct x
      | H : call ?f _ = Return ?lat |- returns_only _ (Ret (?lat, [])) =>
          cbn [returns_only]; apply (well_formed_call f _ lat eq_refl H)
      end ].

Lemma get_bravais_lattice_answer (uc : matrix) (eps : R) (reduce : bool) :
  match get_bravais_lattice uc eps reduce with
  | Return (lat, d) => well_formed lat d
  | Raise _ => True
  end.
Proof.
  unfold get_bravais_lattice.
  destruct (categorize_differences eps (fst _)) as [[[ale ald] uld]|]; cbn [bind];
    [|exact I].
  destruct (categorize_differences eps (snd _)) as [[[aae aad] uad]|]; cbn [bind];
    [|exact I].
  destruct (categorize_differences eps (_, _, _)) as [[[x y] usd]|]; cbn [bind];
    [|exact I].
  match goal with |- match run ?s with _ => _ end =>
    assert (H : returns_only well_formed s);
    [|destruct s as [|[lat meta]|]; cbn in *; tauto]
  end.
  unfold test_cubic, test_BCT, test_HEX, test_TET, test_ORCC, test_ORC, test_ORCF,
    test_ORCI, test_RHL, test_MCL, test_MCLC, test_TRI.
  destruct ale, uad, uld, usd; answer_stage.
Qed.

(** X10: whatever [get_bravais_lattice] returns is a pair of a lattice
    and the empty dictionary; the lattice is a fully initialised
    instance (parameter names of its class, one of the variants of its
    class) of one of the thirteen classes other than [TRI], and its
    tolerance is the default [2e-4], whatever [eps] the classifier was
    called with: the classes are called without [eps]. *)
Theorem classifier_answer (uc : matrix) (eps : R) (reduce : bool)
  (lat : BravaisLattice) (d : dict R) :
  get_bravais_lattice uc eps reduce = Return (lat, d) ->
  d = [] /\ initialised lat = true /\ _eps lat = Some default_eps
  /\ List.existsb (Family_eqb (cls lat)) classified = true.
Proof.
  intros H. pose proof (get_bravais_lattice_answer uc eps reduce) as G.
  rewrite H in G. exact G.
Qed.

End ClassifierAnswer.

Lemma classifier_answer_witness :
  _eps (mkLattice TET (Some [("a", 3); ("c", 5)]) (Some default_eps)
          (Some (mkVariant "TET" "GAMRXZ" "GXMGZRAZ,XR,MA"))) = Some default_eps.
Proof.
  assert (H : get_bravais_lattice (ops := reference_ops) (diag (3, 3, 5)) 0.5 true
              = Return (mkLattice TET (Some [("a", 3); ("c", 5)]) (Some default_eps)
                          (Some (mkVariant "TET" "GAMRXZ" "GXMGZRAZ,XR,MA")), [])).
  { apply classify_TET_diag; try lra.
    - rewrite Rabs_left by lra. lra.
    - apply reference_metric, normal_form_diag; lra. }
  exact (proj1 (proj2 (proj2
           (classifier_answer (ops := reference_ops) _ _ _ _ _ H)))).
Defined.

(** ** The variants of the face-centred orthorhombic lattice *)

Section FaceCentredVariants.

Context {ops : CellOps}.

(** X11: [ORCF._variant_name] (lines 539-545) compares [1/a^2] with
    [1/b^2 + 1/c^2].  With [a0 = 1/sqrt(1/b^2 + 1/c^2)], which lies
    below [b], the lattice [ORCF(t a0, b, c)] is of variant ORCF3 when
    [|1/t^2 - 1| (1/b^2 + 1/c^2) < 2e-4] (so for [t = 1]), ORCF1 when
    [t] is smaller and ORCF2 when [t] is larger by at least that
    margin; and when [t a0] does not lie below [b] the constructor
    raises [UnconventionalLattice]. *)
Theorem ORCF_variants_around_a0 (b c t : R) :
  0 < b -> b < c -> 0 < t ->
  let s := 1 / (b * b) + 1 / (c * c) in
  let a0 := sqrt (1 / s) in
  let lattice n :=
    Return (mkLattice ORCF (Some [("a", t * a0); ("b", b); ("c", c)])
              (Some default_eps) (get (variants ORCF) n)) in
  a0 < b
  /\ (t * a0 < b -> Rabs ((1 / (t * t) - 1) * s) < default_eps ->
      call ORCF [t * a0; b; c] = lattice "ORCF3")
  /\ (t * a0 < b -> default_eps <= (1 / (t * t) - 1) * s ->
      call ORCF [t * a0; b; c] = lattice "ORCF1")
  /\ (t * a0 < b -> default_eps <= (1 - 1 / (t * t)) * s ->
      call ORCF [t * a0; b; c] = lattice "ORCF2")
  /\ (b <= t * a0 -> call ORCF [t * a0; b; c] = Raise UnconventionalLattice).
Proof.
  intros Hb Hbc Ht s a0 lattice.
  assert (Hc : 0 < c) by lra.
  assert (Hs : 0 < s).
  { unfold s. assert (0 < 1 / (b * b)) by (apply Rdiv_lt_0_compat; nra).
    assert (0 < 1 / (c * c)) by (apply Rdiv_lt_0_compat; nra). lra. }
  assert (Hs1 : 0 < 1 / s) by (apply Rdiv_lt_0_compat; lra).
  assert (Ha0 : 0 < a0) by (apply sqrt_lt_R0; exact Hs1).
  assert (Haa : a0 * a0 = 1 / s) by (apply sqrt_sqrt; lra).
  assert (Hlt : a0 < b).
  { assert (H1 : 1 / s < b * b).
    { apply Rmult_lt_reg_r with s; [exact Hs|].
      replace (1 / s * s) with 1 by (field; lra).
      unfold s. replace (b * b * (1 / (b * b) + 1 / (c * c)))
        with (1 + b * b / (c * c)) by (field; lra).
      assert (0 < b * b / (c * c)) by (apply Rdiv_lt_0_compat; nra). lra. }
    destruct (Rlt_dec a0 b) as [H|H]; [exact H|]. exfalso. nra. }
  assert (Hdiff : 1 / (t * a0 * (t * a0)) - 1 / (b * b) - 1 / (c * c)
                  = (1 / (t * t) - 1) * s).
  { replace (t * a0 * (t * a0)) with (t * t * (a0 * a0)) by ring.
    rewrite Haa.
    replace (1 / (t * t * (1 / s)) - 1 / (b * b) - 1 / (c * c))
      with (1 / (t * t * (1 / s)) - s) by (unfold s; ring).
    assert (G : forall x, 0 < x -> 1 / (t * t * (1 / x)) - x = (1 / (t * t) - 1) * x)
      by (intros x Hx; field; lra).
    apply G. exact Hs. }
  assert (N1 : t * a0 * (t * a0) <> 0).
  { apply Rgt_not_eq. apply Rmult_lt_0_compat; apply Rmult_lt_0_compat; assumption. }
  assert (N2 : b * b <> 0) by (apply Rgt_not_eq, Rmult_lt_0_compat; assumption).
  assert (N3 : c * c <> 0) by (apply Rgt_not_eq, Rmult_lt_0_compat; assumption).
  assert (Hcall : t * a0 < b ->
            call ORCF [t * a0; b; c] =
            (n <- ORCF_variant_name default_eps (t * a0) b c ;;
             lattice n)).
  { intros Hlt'. unfold call, new, Orthorhombic__init__, BravaisLattice__init__,
      get_variant, _variant_name. cbn.
    unfold ORCF_variant_name, check_orc.
    rewrite (Rltb_lt (t * a0) b), (Rltb_lt b c) by assumption.
    cbn [negb andb orb bind].
    rewrite !truediv_nonzero by assumption. cbn.
    destruct (Rltb (Rabs _) default_eps); [reflexivity|].
    destruct (Rltb 0 _); reflexivity. }
  split; [exact Hlt|].
  split; [|split; [|split]].
  - intros Hlt' H. rewrite (Hcall Hlt').
    unfold ORCF_variant_name, check_orc.
    rewrite (Rltb_lt (t * a0) b), (Rltb_lt b c) by assumption. cbn [negb andb orb bind].
    rewrite !truediv_nonzero by assumption. cbn [bind].
    rewrite Hdiff. rewrite (Rltb_lt _ _ H). reflexivity.
  - intros Hlt' H. rewrite (Hcall Hlt').
    unfold ORCF_variant_name, check_orc.
    rewrite (Rltb_lt (t * a0) b), (Rltb_lt b c) by assumption. cbn [negb andb orb bind].
    rewrite !truediv_nonzero by assumption. cbn [bind].
    rewrite Hdiff.
    assert (Hd : default_eps = 2e-4) by reflexivity.
    rewrite (Rltb_ge (Rabs _)) by (rewrite Rabs_right by lra; lra).
    rewrite (Rltb_lt 0) by lra. reflexivity.
  - intros Hlt' H. rewrite (Hcall Hlt').
    unfold ORCF_variant_name, check_orc.
    rewrite (Rltb_lt (t * a0) b), (Rltb_lt b c) by assumption. cbn [negb andb orb bind].
    rewrite !truediv_nonzero by assumption. cbn [bind].
    rewrite Hdiff.
    assert (Hd : default_eps = 2e-4) by reflexivity.
    rewrite (Rltb_ge (Rabs _)) by (rewrite Rabs_left by lra; lra).
    rewrite (Rltb_ge 0) by lra. reflexivity.
  - intros Hge. unfold call, new, Orthorhombic__init__, BravaisLattice__init__,
      get_variant, _variant_name. cbn.
    unfold ORCF_variant_name, check_orc.
    rewrite (Rltb_ge (t * a0) b) by exact Hge. reflexivity.
Qed.

End FaceCentredVariants.

Lemma ORCF_variants_around_a0_witness :
  call (ops := reference_ops) ORCF [0.5 * sqrt (1 / (1 / (4 * 4) + 1 / (5 * 5))); 4; 5]
  = Return (mkLattice ORCF
              (Some [("a", 0.5 * sqrt (1 / (1 / (4 * 4) + 1 / (5 * 5))));
                     ("b", 4); ("c", 5)])
              (Some default_eps) (get (variants ORCF) "ORCF1")).
Proof.
  destruct (ORCF_variants_around_a0 (ops := reference_ops) 4 5 0.5
              ltac:(lra) ltac:(lra) ltac:(lra)) as [H0 [_ [H1 _]]].
  apply H1.
  - assert (0 < sqrt (1 / (1 / (4 * 4) + 1 / (5 * 5))))
      by (apply sqrt_lt_R0; lra).
    lra.
  - unfold default_eps. lra.
Defined.

(** ** The variants of the base-centred monoclinic lattice *)

Section BaseCentredMonoclinicVariants.

Context {ops : CellOps}.

(** X12: [MCLC._variant_name] (lines 740-775) binds its local
    [variant] in every case.  Whatever the reciprocal cell, and so
    whatever the angle [kgamma] read from it, [MCLC(a, b, c, alpha)]
    with [a <= c], [b <= c] and [alpha < 90] is constructed with one of
    the five variants of the class: the three tests on [kgamma] leave
    no case out, the tolerance being positive.  When one of the
    three conditions fails the constructor raises
    [UnconventionalLattice]. *)
Theorem MCLC_always_has_a_variant (a b c alpha : R) :
  (a <= c -> b <= c -> alpha < 90 ->
   exists v,
     List.In v (variant_list MCLC)
     /\ call MCLC [a; b; c; alpha] =
          Return (mkLattice MCLC
                    (Some [("a", a); ("b", b); ("c", c); ("alpha", alpha)])
                    (Some default_eps) (Some v)))
  /\ (c < a \/ c < b \/ 90 <= alpha ->
      call MCLC [a; b; c; alpha] = Raise UnconventionalLattice).
Proof.
  split.
  - intros H1 H2 H3.
    unfold call, new, MCLC__init__, BravaisLattice__init__, get_variant, _variant_name.
    cbn. unfold MCLC_variant_name, check_mcl.
    rewrite !Rleb_le, Rltb_lt by assumption. cbn.
    match goal with |- context [Rltb 90 ?k] => set (kgamma := k) end.
    destruct (Rltb (Rabs (kgamma - 90)) default_eps) eqn:E1;
      [cbn; eexists; split; [|reflexivity]; cbn; tauto|].
    destruct (Rltb 90 kgamma) eqn:E2;
      [cbn; eexists; split; [|reflexivity]; cbn; tauto|].
    destruct (Rltb kgamma 90) eqn:E3.
    + clear E1 E2 E3.
      repeat match goal with
             | |- context [if Rltb ?x ?y then _ else _] => destruct (Rltb x y)
             end; cbn; eexists; (split; [|reflexivity]); cbn; tauto.
    + exfalso. apply Rltb_false in E1, E2, E3.
      assert (kgamma = 90) by lra.
      replace (kgamma - 90) with 0 in E1 by lra.
      rewrite Rabs_R0 in E1. unfold default_eps in E1. lra.
  - intros H.
    unfold call, new, MCLC__init__, BravaisLattice__init__, get_variant, _variant_name.
    cbn. unfold MCLC_variant_name, check_mcl.
    assert (E : Rleb a c && Rleb b c && Rltb alpha 90 = false).
    { destruct H as [H|[H|H]].
      - rewrite (Rleb_gt a c) by exact H. reflexivity.
      - rewrite (Rleb_gt b c) by exact H. apply Bool.andb_false_iff. left.
        apply Bool.andb_false_r.
      - rewrite (Rltb_ge alpha 90) by exact H. apply Bool.andb_false_r. }
    rewrite E. reflexivity.
Qed.

End BaseCentredMonoclinicVariants.

Lemma MCLC_always_has_a_variant_witness :
  exists v,
    List.In v (variant_list MCLC)
    /\ call (ops := reference_ops) MCLC [3; 4; 5; 80] =
         Return (mkLattice MCLC (Some [("a", 3); ("b", 4); ("c", 5); ("alpha", 80)])
                   (Some default_eps) (Some v)).
Proof.
  apply (proj1 (MCLC_always_has_a_variant (ops := reference_ops) 3 4 5 80)); lra.
Defined.

(** ** The rhombohedral cell *)

Section RhombohedralCell.

Context {ops : CellOps}.

(** X13: [RHL._cell] (lines 633-642).  For [a > 0] and
    [0 < alpha < 120] its assertion holds and the cell is
    rhombohedral: each row has squared length [a^2] and every two rows
    have the scalar product [a^2 cos alpha].  For [alpha = 0], which
    the constructor accepts, the quantity under the assertion is zero:
    the lattice is built, and asking for its cell raises
    [AssertionError]. *)
Theorem RHL_cell_is_rhombohedral (a alpha : R) :
  0 < a ->
  (0 < alpha < 120 ->
   exists u v w,
     RHL_cell a alpha = Return (u, v, w)
     /\ vdot u u = a * a /\ vdot v v = a * a /\ vdot w w = a * a
     /\ vdot v w = a * a * cos (alpha * (PI / 180))
     /\ vdot w u = a * a * cos (alpha * (PI / 180))
     /\ vdot u v = a * a * cos (alpha * (PI / 180)))
  /\ (exists lat, call RHL [a; 0] = Return lat
                  /\ tocell lat 0 = Raise AssertionError).
Proof.
  intros Ha. split.
  - intros Hal.
    destruct (RHL_cell_defined a alpha Ha Hal) as [Hx E].
    pose proof (cos_half_angle alpha Hal) as Hc.
    set (t := alpha * (PI / 180)) in *.
    set (c := cos (0.5 * t)) in *.
    set (s := sin (0.5 * t)) in *.
    assert (Ht : cos t = 2 * c * c - 1).
    { replace t with (2 * (0.5 * t)) by lra. apply cos_2a_cos. }
    assert (Hs : s * s + c * c = 1) by apply sin2_cos2'.
    set (q := a * cos t / (a * c)) in *.
    assert (Hq : c * q = cos t) by (unfold q; field; lra).
    assert (Hr : sqrt (1 - q ^ 2) * sqrt (1 - q ^ 2) = 1 - q ^ 2)
      by (apply sqrt_sqrt; lra).
    eexists. eexists. eexists. split; [exact E|].
    cbv [vdot]. repeat split; nra.
  - destruct (RHL_constructs a 0 ltac:(lra)) as [v Hv].
    eexists. split; [exact Hv|].
    unfold tocell. cbn. unfold RHL_cell.
    replace (0 * (PI / 180)) with 0 by ring.
    replace (0.5 * 0) with 0 by ring. rewrite cos_0.
    replace (1 - (a * 1 / (a * 1)) ^ 2) with 0 by (field; lra).
    rewrite (Rltb_ge 0 0) by lra. reflexivity.
Qed.

End RhombohedralCell.

Lemma RHL_cell_is_rhombohedral_witness :
  exists u v w,
    RHL_cell 3 60 = Return (u, v, w)
    /\ vdot u u = 3 * 3 /\ vdot v v = 3 * 3 /\ vdot w w = 3 * 3
    /\ vdot v w = 3 * 3 * cos (60 * (PI / 180))
    /\ vdot w u = 3 * 3 * cos (60 * (PI / 180))
    /\ vdot u v = 3 * 3 * cos (60 * (PI / 180)).
Proof.
  apply (proj1 (RHL_cell_is_rhombohedral (ops := reference_ops) 3 60 ltac:(lra))).
  lra.
Defined.

(** ** The triclinic cell *)

(** X14: [TRI._cell] (lines 877-888) converts its angles to radians
    twice: on entry, and again inside the sines and cosines.  Its first
    two rows have the lengths [a] and [b], but their scalar product is
    [a b cos (gamma (pi/180)^2)]: the angle between them, as
    [cellpar] reports it in degrees, is [gamma * pi / 180] and not
    [gamma]. *)
Theorem TRI_cell_converts_twice (a b c alpha beta gamma : R) :
  0 < a -> 0 < b -> 0 < gamma <= 180 ->
  exists u v w,
    TRI_cell a b c alpha beta gamma = Return (u, v, w)
    /\ vdot u u = a * a /\ vdot v v = b * b
    /\ vdot u v = a * b * cos (gamma * (PI / 180) * (PI / 180))
    /\ item (snd (Cell_cellpar (u, v, w))) 2 = gamma * (PI / 180)
    /\ item (snd (Cell_cellpar (u, v, w))) 2 <> gamma.
Proof.
  intros Ha Hb Hg. pose proof PI_RGT_0 as HP. pose proof PI_4 as HP4.
  unfold TRI_cell, _degrees.
  set (g := gamma * (PI / 180) * (PI / 180)).
  eexists. eexists. eexists. split; [reflexivity|].
  pose proof (sin2_cos2' g) as Hsc.
  assert (Huu : vdot (a, 0, 0) (a, 0, 0) = a * a) by (cbv [vdot]; ring).
  assert (Hvv : vdot (b * cos g, b * sin g, 0) (b * cos g, b * sin g, 0) = b * b)
    by (cbv [vdot]; nra).
  assert (Huv : vdot (a, 0, 0) (b * cos g, b * sin g, 0) = a * b * cos g)
    by (cbv [vdot]; ring).
  match goal with
  | |- context [Cell_cellpar ?m] =>
      assert (Hang : item (snd (Cell_cellpar m)) 2 = gamma * (PI / 180))
  end.
  { unfold Cell_cellpar. zcompute. unfold angle, norm.
    rewrite Huu, Hvv, Huv.
    rewrite !sqrt_square by lra.
    replace (a * b * cos g / (a * b)) with (cos g) by (field; lra).
    assert (Hk : 0 < PI / 180 < 1) by lra.
    assert (Hg1 : 0 <= gamma * (PI / 180) <= PI).
    { split; [nra|]. replace PI with (180 * (PI / 180)) at 2 by lra.
      apply Rmult_le_compat_r; lra. }
    rewrite acos_cos.
    - unfold g. field. lra.
    - unfold g. split; [nra|].
      assert (gamma * (PI / 180) * (PI / 180) <= PI * 1).
      { apply Rmult_le_compat; lra. }
      lra. }
  split; [exact Huu|]. split; [exact Hvv|]. split; [exact Huv|].
  split; [exact Hang|].
  rewrite Hang. intros E.
  assert (Hk : PI / 180 < 1) by lra. nra.
Qed.

Lemma TRI_cell_converts_twice_witness :
  exists u v w,
    TRI_cell 3 4 5 70 80 90 = Return (u, v, w)
    /\ vdot u u = 3 * 3 /\ vdot v v = 4 * 4
    /\ vdot u v = 3 * 4 * cos (90 * (PI / 180) * (PI / 180))
    /\ item (snd (Cell_cellpar (u, v, w))) 2 = 90 * (PI / 180)
    /\ item (snd (Cell_cellpar (u, v, w))) 2 <> 90.
Proof.
  apply (TRI_cell_converts_twice 3 4 5 70 80 90); lra.
Defined.

(** ** Band paths *)

Section BandPathFacts.

Context {ops : CellOps}.

Variable ibz_points : string -> string -> vec.
Variable array : Type.
Variable is_nx3 : array -> bool.
Variable empty_0x3 : array.
Variable paths2kpts : list (list vec) -> matrix -> Z -> result array.

(** X15: a base-centred orthorhombic lattice has no band path of its
    own.  [ORCC] inherits the class attribute [special_points = None]
    of [SimpleBravaisLattice], and the decorator, which knows no table
    for it, leaves it so: [get_special_points] (lines 148-154) returns
    [None], and [bandpath] (lines 206-224) called without special
    points fails its assertion, whatever the path.
    [get_special_points_array] meanwhile returns the ten points of
    [ORCC._special_points] when [b] is not zero, and raises
    [ZeroDivisionError] when it is: the class checks [a < b] only, so
    that [ORCC(-1, 0, 5)] is constructed. *)
Theorem ORCC_bandpath_fails (args : list R) (lat : BravaisLattice)
  (path : option string) (npoints : Z) :
  call ORCC args = Return lat ->
  (exists a b c,
     args = [a; b; c]
     /\ (b <> 0 ->
         exists points,
           get_special_points_array ibz_points lat = Return points
           /\ len points = 10%nat)
     /\ (b = 0 ->
         get_special_points_array ibz_points lat = Raise ZeroDivisionError))
  /\ get_special_points ibz_points lat = Return None
  /\ bandpath ibz_points array is_nx3 empty_0x3 paths2kpts lat path npoints None
     = Raise AssertionError.
Proof.
  intros H.
  destruct (call_spec ORCC args lat H) as [Hc Hi].
  destruct (call_stores ORCC args lat H) as [_ [_ [Hl Hp]]].
  destruct lat as [f p e v]. cbn in Hc, Hp. subst f p.
  destruct args as [|a [|b [|c [|d args]]]]; try discriminate Hl.
  unfold initialised in Hi. cbn in Hi.
  destruct e as [e|]; [|discriminate Hi].
  destruct v as [v|]; [|discriminate Hi].
  rewrite orb_false_r in Hi. apply Variant_eqb_eq in Hi. subst v.
  split.
  - exists a, b, c. split; [reflexivity|].
    unfold get_special_points_array, _special_points, ORCC_special_points.
    cbn [cls _parameters _variant attr bind List.combine parameters].
    split.
    + intros Hb.
      assert (N : b * b <> 0) by (intros E; apply Hb; apply square_zero; exact E).
      change (kw [("a", a); ("b", b); ("c", c)] "a") with (Return (A := R) a).
      change (kw [("a", a); ("b", b); ("c", c)] "b") with (Return (A := R) b).
      change (kw [("a", a); ("b", b); ("c", c)] "c") with (Return (A := R) c).
      cbn [bind]. rewrite (truediv_nonzero _ _ N). cbn [bind].
      eexists. split; reflexivity.
    + intros Hb. subst b.
      change (kw [("a", a); ("b", 0); ("c", c)] "a") with (Return (A := R) a).
      change (kw [("a", a); ("b", 0); ("c", c)] "b") with (Return (A := R) 0).
      change (kw [("a", a); ("b", 0); ("c", c)] "c") with (Return (A := R) c).
      cbn [bind]. unfold truediv. rewrite (Reqb_eq (0 * 0) 0) by ring. reflexivity.
  - split; [reflexivity|].
    unfold bandpath. destruct path; reflexivity.
Qed.

(** X16: the default path of every variant can be resolved.  For an
    initialised lattice of any class but [ORCC], whenever
    [get_special_points] returns, it returns a dictionary in which
    every label of the variant's [special_path] is a key, so that
    [resolve_kpt_path_string] (lines 16-22) raises no [KeyError] and
    returns one coordinate for each label of each subpath; [bandpath]
    called without arguments then fails only where the cell or
    [paths2kpts] fails.  [get_special_points] returns when no
    parameter is zero; it raises nothing but [ZeroDivisionError], only
    when a parameter is zero, and [bandpath] then raises it too. *)
Theorem default_path_resolves (self : BravaisLattice) (npoints : Z) :
  initialised self = true -> cls self <> ORCC ->
  exists v parameters,
    _variant self = Some v
    /\ _parameters self = Some parameters
    /\ match get_special_points ibz_points self with
       | Return special_points =>
           exists sp paths coords,
             special_points = Some sp
             /\ resolve_kpt_path_string (special_path v) sp = Return (paths, coords)
             /\ List.map (@List.length vec) coords
                = List.map (@List.length string) paths
             /\ bandpath ibz_points array is_nx3 empty_0x3 paths2kpts self None
                  npoints None
                = (cell <- tocell self 0 ;;
                   kpts <- paths2kpts coords cell npoints ;;
                   BandPath__init__ array is_nx3 empty_0x3 cell (Some kpts) (Some sp)
                     (Some (PathString (special_path v))))
       | Raise e =>
           e = ZeroDivisionError
           /\ (exists k, kw parameters k = Return 0)
           /\ bandpath ibz_points array is_nx3 empty_0x3 paths2kpts self None
                npoints None
              = Raise ZeroDivisionError
       end
    /\ ((forall k x, kw parameters k = Return x -> x <> 0) ->
        exists sp, get_special_points ibz_points self = Return (Some sp)).
Proof.
  destruct self as [f [p|] [e|] [v|]];
    cbn [initialised _parameters _eps _variant cls]; try discriminate.
  intros H Hf. apply andb_prop in H as [Hk Hv].
  apply existsb_exists in Hv as [w [Hin Hw]].
  apply Variant_eqb_eq in Hw. subst w.
  exists v, p. split; [reflexivity|]. split; [reflexivity|].
  match goal with
  | |- ?M /\ _ =>
      cut M;
      [ intros HM; split; [exact HM|];
        intros Hnz;
        destruct (get_special_points ibz_points _) as [special_points|e0];
        [ destruct HM as [sp [paths [coords [E _]]]]; subst special_points;
          exists sp; reflexivity
        | destruct HM as [_ [[k Hk0] _]]; exfalso; exact (Hnz k 0 Hk0 eq_refl) ]
      | ]
  end.
  set (self := mkLattice f (Some p) (Some e) (Some v)).
  assert (K1 : forall sp paths coords,
    get_special_points ibz_points self = Return (Some sp) ->
    resolve_kpt_path_string (special_path v) sp = Return (paths, coords) ->
    List.map (@List.length vec) coords = List.map (@List.length string) paths ->
    match get_special_points ibz_points self with
    | Return special_points =>
        exists sp paths coords,
          special_points = Some sp
          /\ resolve_kpt_path_string (special_path v) sp = Return (paths, coords)
          /\ List.map (@List.length vec) coords
             = List.map (@List.length string) paths
          /\ bandpath ibz_points array is_nx3 empty_0x3 paths2kpts self None
               npoints None
             = (cell <- tocell self 0 ;;
                kpts <- paths2kpts coords cell npoints ;;
                BandPath__init__ array is_nx3 empty_0x3 cell (Some kpts) (Some sp)
                  (Some (PathString (special_path v))))
    | Raise e =>
        e = ZeroDivisionError
        /\ (exists k, kw p k = Return 0)
        /\ bandpath ibz_points array is_nx3 empty_0x3 paths2kpts self None
             npoints None
           = Raise ZeroDivisionError
    end).
  { intros sp paths coords E1 E2 E3.
    unfold bandpath. rewrite E1. cbn [bind].
    exists sp, paths, coords.
    split; [reflexivity|]. split; [exact E2|]. split; [exact E3|].
    unfold BravaisLattice_special_path, BravaisLattice_variant.
    cbn [self _variant attr bind]. rewrite E2. cbn [bind]. reflexivity. }
  assert (K2 :
    get_special_points ibz_points self = Raise ZeroDivisionError ->
    (exists k, kw p k = Return 0) ->
    match get_special_points ibz_points self with
    | Return special_points =>
        exists sp paths coords,
          special_points = Some sp
          /\ resolve_kpt_path_string (special_path v) sp = Return (paths, coords)
          /\ List.map (@List.length vec) coords
             = List.map (@List.length string) paths
          /\ bandpath ibz_points array is_nx3 empty_0x3 paths2kpts self None
               npoints None
             = (cell <- tocell self 0 ;;
                kpts <- paths2kpts coords cell npoints ;;
                BandPath__init__ array is_nx3 empty_0x3 cell (Some kpts) (Some sp)
                  (Some (PathString (special_path v))))
    | Raise e =>
        e = ZeroDivisionError
        /\ (exists k, kw p k = Return 0)
        /\ bandpath ibz_points array is_nx3 empty_0x3 paths2kpts self None
             npoints None
           = Raise ZeroDivisionError
    end).
  { intros E1 E2. unfold bandpath. rewrite E1. cbn [bind].
    split; [reflexivity|]. split; [exact E2 | reflexivity]. }
  assert (C : (exists sp, get_special_points ibz_points self = Return (Some sp)
                /\ exists paths coords,
                     resolve_kpt_path_string (special_path v) sp = Return (paths, coords)
                     /\ List.map (@List.length vec) coords
                        = List.map (@List.length string) paths)
              \/ (get_special_points ibz_points self = Raise ZeroDivisionError
                  /\ exists k, kw p k = Return 0)).
  { subst self.
    destruct f; try (exfalso; apply Hf; reflexivity); cbn in Hin;
      repeat (destruct Hin as [Hin|Hin]; [subst v|]); try contradiction;
      bound_kw p Hk;
      unfold get_special_points, get_special_points_array, _special_points;
      cbn [cls _parameters _variant attr bind is_simple]; rewrite_kw; cbn [bind].
    all: unfold BCT_special_points, ORCF_special_points, ORCI_special_points,
           RHL_special_points, MCL_special_points,
           MCLC_special_points, TRI_special_points.
    all: closed_parts.
    all: cbn [name String.eqb Ascii.eqb Bool.eqb orb bind assert Nat.eqb].
    all: repeat divide.
    all: try (right; split; [reflexivity | zero_parameter]).
    all: left; eexists; split; [reflexivity|]; eexists; eexists;
           split; reflexivity. }
  destruct C as [[sp [E1 [paths [coords [E2 E3]]]]]|[E1 E2]].
  - exact (K1 sp paths coords E1 E2 E3).
  - exact (K2 E1 E2).
Qed.

End BandPathFacts.

Lemma ORCC_bandpath_fails_witness :
  get_special_points_array (fun _ _ => (0, 0, 0))
    (mkLattice ORCC (Some [("a", -1); ("b", 0); ("c", 5)]) (Some default_eps)
       (get (variants ORCC) "ORCC"))
  = Raise ZeroDivisionError
  /\ bandpath (ops := reference_ops) (fun _ _ => (0, 0, 0)) unit (fun _ => true) tt
       (fun _ _ _ => Return tt)
       (mkLattice ORCC (Some [("a", -1); ("b", 0); ("c", 5)]) (Some default_eps)
          (get (variants ORCC) "ORCC"))
       None 50 None
     = Raise AssertionError.
Proof.
  assert (H : call (ops := reference_ops) ORCC [-1; 0; 5] =
    Return (mkLattice ORCC (Some [("a", -1); ("b", 0); ("c", 5)]) (Some default_eps)
              (get (variants ORCC) "ORCC")))
    by (apply ORCC_constructs; lra).
  destruct (ORCC_bandpath_fails (ops := reference_ops) (fun _ _ => (0, 0, 0)) unit
              (fun _ => true) tt (fun _ _ _ => Return tt) [-1; 0; 5] _ None 50 H)
    as [[a [b [c [E [_ Z]]]]] [_ G]].
  split; [|exact G].
  apply Z. injection E as _ E _. symmetry. exact E.
Defined.

Lemma default_path_resolves_witness :
  exists sp,
    get_special_points (fun _ _ => (0, 0, 0))
      (mkLattice BCT (Some [("a", 2); ("c", 1)]) (Some default_eps)
         (Some (mkVariant "BCT1" "GMNPXZZ1" "GXMGZPNZ1M,XP")))
    = Return (Some sp).
Proof.
  destruct (default_path_resolves (ops := reference_ops) (fun _ _ => (0, 0, 0)) unit
              (fun _ => true) tt (fun _ _ _ => Return tt)
              (mkLattice BCT (Some [("a", 2); ("c", 1)]) (Some default_eps)
                 (Some (mkVariant "BCT1" "GMNPXZZ1" "GXMGZPNZ1M,XP")))
              50 eq_refl ltac:(discriminate))
    as [v [p [_ [Ep [_ G]]]]].
  apply G. cbn in Ep. injection Ep as <-.
  intros k x Hx. unfold kw, get in Hx. cbn in Hx.
  destruct (String.eqb _ _) in Hx; [injection Hx as <-; lra|].
  destruct (String.eqb _ _) in Hx; [injection Hx as <-; lra|].
  discriminate Hx.
Defined.

(** ** Monoclinic cells with an obtuse angle *)

Lemma noduplicates_zeros (eps p : R) : 0 <= eps -> noduplicates eps (p, 0, 0) = false.
Proof.
  intros He. unfold noduplicates, sort, argsort, sort_keys.
  cbn [fold_left insert_key fst].
  destruct (Rltb 0 p) eqn:E; cbn [insert_key fst];
    rewrite ?E; cbn [insert_key fst];
    rewrite ?(Rltb_ge 0 0) by lra; cbn [insert_key fst];
    rewrite ?E; cbn [insert_key fst];
    zcompute.
  - replace (0 - 0) with 0 by ring. rewrite Rabs_R0.
    rewrite Rmin_left by apply Rabs_pos. apply Rltb_ge. exact He.
  - replace (0 - 0) with 0 by ring. rewrite Rabs_R0.
    rewrite Rmin_right by apply Rabs_pos. apply Rltb_ge. exact He.
Qed.

Section ObtuseMonoclinic.

Context {ops : CellOps}.

(** X17: the monoclinic test (lines 1124-1148) asserts that the
    distinguished angle is acute instead of testing it.  A monoclinic
    cell with three different lengths, two right angles and an obtuse
    angle [alpha] between its second and third axes, away from 120
    degrees, passes every earlier test of the cascade and then fails
    [assert mcl_alpha < 90]: the classifier raises [AssertionError]. *)
Theorem obtuse_monoclinic_assertion_fails (eps a b c alpha : R) :
  0 < eps <= 1 -> 0 < a -> 0 < b -> 0 < c ->
  eps <= Rabs (b - c) -> eps <= Rabs (c - a) -> eps <= Rabs (a - b) ->
  90 + eps + 0.001 <= alpha <= 180 -> eps <= Rabs (alpha - 120) ->
  b * c * cos (alpha * (PI / 180)) <= - eps ->
  get_bravais_lattice
    ((a, 0, 0), (0, b, 0),
     (0, c * cos (alpha * (PI / 180)), c * sin (alpha * (PI / 180))))
    eps false
  = Raise AssertionError.
Proof.
  intros [He He1] Ha Hb Hc Hbc Hca Hab Hal H120 Hp.
  unfold get_bravais_lattice.
  rewrite products_MCL.
  rewrite cellpar_MCL by lra. cbn [fst snd].
  rewrite (categorize_all_different eps a b c) by assumption.
  cbn [bind].
  rewrite (categorize_first eps alpha 90 90)
    by first [apply Rabs_0_lt; lra | apply Rabs_ge_iff; lra].
  cbn [bind].
  rewrite (categorize_first eps _ 0 0)
    by first [apply Rabs_0_lt; lra | apply Rabs_ge_iff; lra].
  cbn [bind].
  unfold test_cubic, test_BCT. cbn [seq].
  unfold test_HEX. zcompute.
  rewrite (Rltb_ge (Rabs (alpha - 120))) by exact H120.
  cbn [andb seq].
  unfold test_TET, test_ORCC. cbn [seq].
  unfold test_ORC. cbn [to_list].
  rewrite allclose_first_far
    by (unfold default_rtol; rewrite (Rabs_right (alpha - 90)), (Rabs_right 90) by lra;
        lra).
  cbn [andb seq].
  unfold test_ORCF. rewrite noduplicates_zeros by lra. cbn [andb seq].
  unfold test_ORCI, test_RHL. cbn [seq].
  unfold test_MCL. zcompute.
  replace (allclose eps [90; 90] (broadcast 2 90)) with true
    by (symmetry; apply np_allclose_refl; [apply default_rtol_pos | lra]).
  rewrite (Rltb_ge alpha 90) by lra. reflexivity.
Qed.

End ObtuseMonoclinic.

Lemma cos_135 : cos (135 * (PI / 180)) <= - (1 / 2).
Proof.
  replace (135 * (PI / 180)) with (3 * (PI / 4)) by lra.
  rewrite cos_3PI4.
  assert (H0 : 0 < sqrt 2) by (apply sqrt_lt_R0; lra).
  assert (H2 : sqrt 2 <= 2).
  { rewrite <- (sqrt_square 2) at 2 by lra. apply sqrt_le_1_alt. lra. }
  apply Rmult_le_reg_r with (sqrt 2); [exact H0|].
  replace (-1 / sqrt 2 * sqrt 2) with (-1) by (field; lra). lra.
Qed.

Lemma obtuse_monoclinic_assertion_fails_witness :
  get_bravais_lattice (ops := reference_ops)
    ((3, 0, 0), (0, 4, 0),
     (0, 6 * cos (135 * (PI / 180)), 6 * sin (135 * (PI / 180))))
    default_eps false
  = Raise AssertionError.
Proof.
  pose proof cos_135 as H.
  apply (obtuse_monoclinic_assertion_fails (ops := reference_ops) default_eps 3 4 6 135);
    unfold default_eps; try lra.
  - rewrite Rabs_left by lra. lra.
  - rewrite Rabs_right by lra. lra.
  - rewrite Rabs_left by lra. lra.
  - rewrite Rabs_right by lra. lra.
Defined.

(** ** The hexagonal test and the lengths *)

Lemma cellpar_oblique (a b c : R) : 0 < a -> 0 < b -> 0 < c ->
  Cell_cellpar ((0.5 * a, - (0.5 * sqrt 3) * a, 0), (0.5 * b, 0.5 * sqrt 3 * b, 0),
                (0, 0, c)) =
    ((a, b, c), (90, 90, 120)).
Proof.
  intros Ha Hb Hc.
  pose proof (sqrt_sqrt 3 ltac:(lra)) as H3.
  assert (Hn : forall u x, 0 < x -> vdot u u = x * x -> norm u = x).
  { intros u x Hx E. unfold norm. rewrite E. apply sqrt_square. lra. }
  unfold Cell_cellpar.
  rewrite (Hn (0.5 * a, - (0.5 * sqrt 3) * a, 0) a) by (try assumption; cbv [vdot]; nra).
  rewrite (Hn (0.5 * b, 0.5 * sqrt 3 * b, 0) b) by (try assumption; cbv [vdot]; nra).
  rewrite norm_z by lra.
  rewrite (angle_orthogonal (0.5 * b, 0.5 * sqrt 3 * b, 0)) by (cbv [vdot]; nra).
  rewrite (angle_orthogonal (0.5 * a, - (0.5 * sqrt 3) * a, 0) (0, 0, c))
    by (cbv [vdot]; nra).
  unfold angle.
  rewrite (Hn (0.5 * a, - (0.5 * sqrt 3) * a, 0) a) by (try assumption; cbv [vdot]; nra).
  rewrite (Hn (0.5 * b, 0.5 * sqrt 3 * b, 0) b) by (try assumption; cbv [vdot]; nra).
  replace (vdot (0.5 * a, - (0.5 * sqrt 3) * a, 0) (0.5 * b, 0.5 * sqrt 3 * b, 0) / (a * b))
    with (- (1 / 2)).
  - rewrite acos_neg_half. repeat f_equal. field. exact PI_neq0'.
  - cbv [vdot]. apply Rmult_eq_reg_r with (a * b); [|nra].
    replace ((0.5 * a * (0.5 * b) + - (0.5 * sqrt 3) * a * (0.5 * sqrt 3 * b) + 0 * 0)
             / (a * b) * (a * b))
      with (0.5 * a * (0.5 * b) + - (0.5 * sqrt 3) * a * (0.5 * sqrt 3 * b) + 0 * 0)
      by (field; lra).
    assert (K : a * b * (sqrt 3 * sqrt 3) = 3 * (a * b)) by (rewrite H3; ring).
    nra.
Qed.

Lemma products_oblique (a b c : R) :
  let m := ((0.5 * a, - (0.5 * sqrt 3) * a, 0), (0.5 * b, 0.5 * sqrt 3 * b, 0),
            (0, 0, c)) in
  (vdot (item m 1) (item m 2), vdot (item m 2) (item m 0), vdot (item m 0) (item m 1))
  = (0, 0, - (a * b) / 2).
Proof.
  pose proof (sqrt_sqrt 3 ltac:(lra)) as H3.
  assert (K : a * b * (sqrt 3 * sqrt 3) = 3 * (a * b)) by (rewrite H3; ring).
  zcompute. cbv [vdot]. f_equal; [f_equal|]; nra.
Qed.

Section HexagonalLengths.

Context {ops : CellOps}.

(** X18: the hexagonal test (lines 1031-1038) looks at the angles and
    never at the lengths.  A cell with two right angles and an angle
    of 120 degrees between axes of different lengths [a] and [b] is
    returned as [HEX] with [a = sqrt (a * b)], without a check: the
    lattice returned has two equal lengths, neither of them a length
    of the cell it was given for. *)
Theorem HEX_ignores_lengths (eps a b c : R) :
  0 < eps <= 1 -> 0 < a -> 0 < b -> 0 < c ->
  eps <= Rabs (b - c) -> eps <= Rabs (c - a) -> eps <= Rabs (a - b) ->
  eps <= a * b / 2 ->
  let lat := mkLattice HEX (Some [("a", sqrt (a * b)); ("c", c)]) (Some default_eps)
               (Some (mkVariant "HEX" "GMKALH" "GMKGALHA,LM,KH")) in
  get_bravais_lattice
    ((0.5 * a, - (0.5 * sqrt 3) * a, 0), (0.5 * b, 0.5 * sqrt 3 * b, 0), (0, 0, c))
    eps false
  = Return (lat, [])
  /\ cellpar lat 0 = Return ((sqrt (a * b), sqrt (a * b), c), (90, 90, 120))
  /\ sqrt (a * b) <> a /\ sqrt (a * b) <> b.
Proof.
  intros [He He1] Ha Hb Hc Hbc Hca Hab Hp lat.
  assert (Hs : 0 < sqrt (a * b)) by (apply sqrt_lt_R0; nra).
  assert (Hss : sqrt (a * b) * sqrt (a * b) = a * b) by (apply sqrt_sqrt; nra).
  assert (Hne : a <> b).
  { intros E. subst b. replace (a - a) with 0 in Hab by ring.
    rewrite Rabs_R0 in Hab. lra. }
  split; [|split; [|split]].
  - unfold get_bravais_lattice.
    rewrite products_oblique.
    rewrite cellpar_oblique by lra. cbn [fst snd].
    rewrite (categorize_all_different eps a b c) by assumption. cbn [bind].
    rewrite (categorize_third eps 90 90 120)
      by first [apply Rabs_0_lt; lra | apply Rabs_ge_iff; lra].
    cbn [bind].
    rewrite (categorize_third eps 0 0 (- (a * b) / 2))
      by first [apply Rabs_0_lt; lra | apply Rabs_ge_iff; lra].
    cbn [bind].
    unfold test_cubic, test_BCT. cbn [seq].
    unfold test_HEX. zcompute.
    rewrite !Rltb_lt by (apply Rabs_0_lt; lra). cbn [andb].
    rewrite (Rltb_lt 0) by nra. cbn [try assert].
    replace (-2 * (- (a * b) / 2)) with (a * b) by field.
    rewrite HEX_constructs. reflexivity.
  - unfold cellpar, lat. rewrite HEX_tocell. cbn [bind].
    rewrite cellpar_HEX by assumption. reflexivity.
  - intros E. rewrite E in Hss. apply Hne. nra.
  - intros E. rewrite E in Hss. apply Hne. nra.
Qed.

End HexagonalLengths.

Lemma HEX_ignores_lengths_witness :
  get_bravais_lattice (ops := reference_ops)
    ((0.5 * 3, - (0.5 * sqrt 3) * 3, 0), (0.5 * 4, 0.5 * sqrt 3 * 4, 0), (0, 0, 5))
    default_eps false
  = Return (mkLattice HEX (Some [("a", sqrt (3 * 4)); ("c", 5)]) (Some default_eps)
              (Some (mkVariant "HEX" "GMKALH" "GMKGALHA,LM,KH")), []).
Proof.
  apply (HEX_ignores_lengths (ops := reference_ops) default_eps 3 4 5);
    unfold default_eps; try lra.
  - rewrite Rabs_left by lra. lra.
  - rewrite Rabs_right by lra. lra.
  - rewrite Rabs_left by lra. lra.
Defined.

(** ** The round trip without reduction *)

(** X19: classifying the cell of a lattice as it is, without reduction
    ([_niggli_reduce=False]), returns the lattice it came from, for each
    of the thirteen families the classifier returns, when the
    parameters are such that no earlier test of the cascade matches
    the cell and no assertion on the way fails: the conditions are
    spelled out family by family.  A tetragonal lattice whose two
    parameters agree within [eps] is returned as the cubic lattice
    [CUB(a)], the cubic test coming first. *)
Theorem round_trip_without_reduction {ops : CellOps} (eps a b c alpha : R) :
  0 < eps <= 1 -> 0 < a -> 0 < b -> 0 < c ->
  round_trip false CUB [a] eps
  /\ round_trip false FCC [a] eps
  /\ round_trip false BCC [a] eps
  /\ (eps <= Rabs (a - c) -> round_trip false TET [a; c] eps)
  /\ (Rabs (a - c) < eps ->
      has_cell TET [a; c] /\ classified_as false TET [a; c] eps CUB [a])
  /\ (eps + default_rtol * 180
        < 90 * Rabs (c * c / (2 * (a * a) + c * c) - 1 / 3) ->
      round_trip false BCT [a; c] eps)
  /\ (a + eps <= b -> b + eps <= c -> round_trip false ORC [a; b; c] eps)
  /\ (a < b -> b < c ->
      let L0 := sqrt ((b * b + c * c) / 4) in
      let L1 := sqrt ((a * a + c * c) / 4) in
      let L2 := sqrt ((a * a + b * b) / 4) in
      eps <= L0 - L1 -> eps <= L1 - L2 ->
      eps < (b * b - a * a) / 4 -> eps < (c * c - b * b) / 4 ->
      eps <= 45 * (b * b / 4 / (L0 * L2) - a * a / 4 / (L1 * L2)) ->
      eps <= 45 * (c * c / 4 / (L0 * L1) - b * b / 4 / (L0 * L2)) ->
      (let cell := scale 0.5 ((0, b, c), (a, 0, c), (a, b, 0)) in
       Cell_new (FromArray cell) = cell) ->
      round_trip false ORCF [a; b; c] eps)
  /\ (a < b -> b < c ->
      2 * eps <= b * b - a * a -> 2 * eps <= c * c - b * b ->
      eps <= 90 * ((b * b - a * a) / (a * a + b * b + c * c)) ->
      eps <= 90 * ((c * c - b * b) / (a * a + b * b + c * c)) ->
      2 * (eps + default_rtol * 180)
        < 90 * ((c * c - a * a) / (a * a + b * b + c * c)) ->
      round_trip false ORCI [a; b; c] eps)
  /\ (a < b ->
      eps <= Rabs (sqrt ((a * a + b * b) / 4) - c) ->
      eps < (b * b - a * a) / 4 ->
      eps + default_rtol * 90 < 45 * ((b * b - a * a) / (a * a + b * b)) ->
      eps <= 45 * Rabs ((b * b - a * a) / (a * a + b * b) - 1 / 2) ->
      round_trip false ORCC [a; b; c] eps)
  /\ (eps <= Rabs (a - c) -> eps <= a * a / 2 -> round_trip false HEX [a; c] eps)
  /\ (0 < alpha < 120 ->
      eps + default_rtol * Rabs 90 < Rabs (alpha - 90) ->
      eps + default_rtol * Rabs 60 < Rabs (alpha - 60) ->
      eps + default_rtol * Rabs (acos (- 1 / 3) * 180 / PI)
        < Rabs (alpha - acos (- 1 / 3) * 180 / PI) ->
      round_trip false RHL [a; alpha] eps)
  /\ (0 <= alpha -> eps <= Rabs (a - b) -> a + eps <= c -> b + eps <= c ->
      alpha + eps + 0.001 <= 90 ->
      eps <= b * c * cos (alpha * (PI / 180)) ->
      round_trip false MCL [a; b; c; alpha] eps)
  /\ (a <= c -> b <= c -> 0 <= alpha < 90 -> 4 * eps <= c ->
      eps < b * c * cos (alpha * (PI / 180)) / 2 ->
      (eps + 0.001) * c <= 30 * (b * cos (alpha * (PI / 180))) ->
      round_trip false MCLC [a; b; c; alpha] eps).
Proof.
  intros He Ha Hb Hc.
  split; [apply round_trip_CUB; lra|].
  split; [apply round_trip_FCC; assumption|].
  split; [apply round_trip_BCC; assumption|].
  split; [intros; apply round_trip_TET; lra|].
  split; [intros; apply TET_classified_cubic; lra|].
  split; [intros; apply round_trip_BCT; assumption|].
  split; [intros; apply round_trip_ORC; lra|].
  split; [intros; apply round_trip_ORCF; assumption|].
  split; [intros; apply round_trip_ORCI; assumption|].
  split; [intros; apply round_trip_ORCC; assumption|].
  split; [intros; apply round_trip_HEX; assumption|].
  split; [intros; apply round_trip_RHL; assumption|].
  split; [intros; apply round_trip_MCL; assumption|].
  intros; apply round_trip_MCLC; assumption.
Qed.

Lemma round_trip_without_reduction_witness :
  round_trip (ops := reference_ops) false CUB [3] default_eps
  /\ round_trip (ops := reference_ops) false FCC [3] default_eps
  /\ round_trip (ops := reference_ops) false BCC [3] default_eps
  /\ round_trip (ops := reference_ops) false TET [3; 5] default_eps
  /\ round_trip (ops := reference_ops) false BCT [3; 5] default_eps
  /\ round_trip (ops := reference_ops) false ORC [3; 4; 5] default_eps
  /\ round_trip (ops := reference_ops) false ORCF [3; 4; 5] default_eps
  /\ round_trip (ops := reference_ops) false ORCI [3; 4; 5] default_eps
  /\ round_trip (ops := reference_ops) false ORCC [3; 4; 5] default_eps
  /\ round_trip (ops := reference_ops) false HEX [3; 5] default_eps
  /\ round_trip (ops := reference_ops) false RHL [3; 45] default_eps
  /\ round_trip (ops := reference_ops) false MCL [3; 4; 5; 45] default_eps
  /\ round_trip (ops := reference_ops) false MCLC [3; 4; 5; 45] default_eps
  /\ get_bravais_lattice (ops := reference_ops) (diag (3, 3, 5)) default_eps false
     = Return (mkLattice TET (Some [("a", 3); ("c", 5)]) (Some default_eps)
                 (Some (mkVariant "TET" "GAMRXZ" "GXMGZRAZ,XR,MA")), []).
Proof.
  assert (He : 0 < default_eps <= 1) by (unfold default_eps; lra).
  assert (H35 : default_eps <= Rabs (3 - 5))
    by (unfold default_eps; rewrite Rabs_left by lra; lra).
  pose proof cos_45 as [Hcos Hcos1].
  pose proof bcc_angle_bound as Hb1. pose proof bcc_angle_le_180 as Hb2.
  assert (S2 : sqrt ((3 * 3 + 4 * 4) / 4) = 5 / 2).
  { replace ((3 * 3 + 4 * 4) / 4) with (5 / 2 * (5 / 2)) by lra.
    apply sqrt_square. lra. }
  assert (S0 : 3.20 <= sqrt ((4 * 4 + 5 * 5) / 4) <= 3.21)
    by (apply sqrt_between; lra).
  assert (S1 : 2.91 <= sqrt ((3 * 3 + 5 * 5) / 4) <= 2.92)
    by (apply sqrt_between; lra).
  pose proof (round_trip_without_reduction (ops := reference_ops) default_eps 3 4 5 45
                He ltac:(lra) ltac:(lra) ltac:(lra))
    as [H1 [H2 [H3 [H4 [_ [H5 [H6 [H7 [H8 [H9 [H10 [H11 [H12 H13]]]]]]]]]]]]].
  specialize (H4 H35).
  assert (G5 : default_eps + default_rtol * 180
               < 90 * Rabs (5 * 5 / (2 * (3 * 3) + 5 * 5) - 1 / 3)).
  { unfold default_eps, default_rtol. rewrite Rabs_right by lra. lra. }
  specialize (H5 G5).
  specialize (H6 ltac:(unfold default_eps; lra) ltac:(unfold default_eps; lra)).
  assert (G7 : round_trip (ops := reference_ops) false ORCF [3; 4; 5] default_eps).
  { apply H7; clear H7; cbv zeta; try rewrite S2; try (unfold default_eps; lra).
    - set (L0 := sqrt ((4 * 4 + 5 * 5) / 4)) in *.
      set (L1 := sqrt ((3 * 3 + 5 * 5) / 4)) in *.
      pose proof (Rinv_between L0 3.20 3.21 ltac:(lra) S0) as I0.
      pose proof (Rinv_between L1 2.91 2.92 ltac:(lra) S1) as I1.
      unfold Rdiv. rewrite !Rinv_mult.
      replace (/ (5 * / 2)) with (2 / 5) by lra.
      unfold default_eps. lra.
    - set (L0 := sqrt ((4 * 4 + 5 * 5) / 4)) in *.
      set (L1 := sqrt ((3 * 3 + 5 * 5) / 4)) in *.
      pose proof (Rinv_between L0 3.20 3.21 ltac:(lra) S0) as I0.
      pose proof (Rinv_between L1 2.91 2.92 ltac:(lra) S1) as I1.
      unfold Rdiv. rewrite !Rinv_mult.
      replace (/ (5 * / 2)) with (2 / 5) by lra.
      assert (P : / 3.21 * / 2.92 <= / L0 * / L1)
        by (apply Rmult_le_compat; lra).
      unfold default_eps. lra.
    - reflexivity. }
  assert (G8 : round_trip (ops := reference_ops) false ORCI [3; 4; 5] default_eps).
  { apply H8; unfold default_eps, default_rtol; lra. }
  assert (G9 : round_trip (ops := reference_ops) false ORCC [3; 4; 5] default_eps).
  { apply H9; try rewrite S2; unfold default_eps, default_rtol; try lra.
    - rewrite Rabs_left by lra. lra.
    - rewrite Rabs_left by lra. lra. }
  specialize (H10 H35 ltac:(unfold default_eps; lra)).
  assert (G11 : round_trip (ops := reference_ops) false RHL [3; 45] default_eps).
  { apply H11; unfold default_eps, default_rtol; try lra.
    - rewrite (Rabs_right 90), Rabs_left by lra. lra.
    - rewrite (Rabs_right 60), Rabs_left by lra. lra.
    - rewrite (Rabs_right (acos (- 1 / 3) * 180 / PI)), Rabs_left by lra. lra. }
  assert (G12 : round_trip (ops := reference_ops) false MCL [3; 4; 5; 45] default_eps).
  { apply H12; unfold default_eps; try lra.
    rewrite Rabs_left by lra. lra. }
  assert (G13 : round_trip (ops := reference_ops) false MCLC [3; 4; 5; 45] default_eps).
  { apply H13; unfold default_eps; lra. }
  repeat (split; [assumption|]).
  destruct H4 as [_ H4].
  destruct (H4 _ _ (TET_constructs (ops := reference_ops) 3 5)
               (TET_tocell 3 5 _ _)) as [lat' [E1 E2]].
  rewrite TET_constructs in E1. inversion E1; subst lat'. exact E2.
Defined.

